(** * SIMION.PA: potential arrays, their binary codec and their accessors

    A shallow embedding of [src/SIMION/PA.py] and the properties the
    specification states about it.

    Modelling conventions.
    - Python [int] is [Z].  Python [float] is idealised as an exact rational
      [Q]; equality of floats is [Qeq].  What a rational cannot compute
      (the text of [str(x)], [math.sqrt], the eight bytes of
      [struct.pack("d", x)]) is the interface [PyFloat].
    - A method of class [PA] is a computation [M A] over the instance: it
      takes [self] and returns the instance it leaves behind together with
      a value or the exception it raised.
    - Boolean attributes (mirror flags, [fast_adjustable]) are [bool];
      [symmetry] and [field_type] are the strings the code stores.
    - A file system is a finite map from paths to byte sequences. *)

From Stdlib Require Import ZArith QArith Qabs Qround Lqa Lia Bool Ascii String DecimalString.
From stdpp Require Import gmap strings list.

Local Open Scope Z_scope.

(** ** The Python runtime the module relies on *)

Module Py.

Inductive exn : Type :=
| PAError (value : string)
| IOError (msg : string)
| AssertionError (msg : option string)
| StructError
| ValueError
| IndexError
| TypeError
| ZeroDivisionError.

Inductive result (A : Type) : Type :=
| Ok (a : A)
| Raise (e : exn).
Arguments Ok {A} a.
Arguments Raise {A} e.

(** [str(n)] of an [int]. *)
Definition str_int (n : Z) : string := NilEmpty.string_of_int (Z.to_int n).

Definition dquote : string := String (Ascii.ascii_of_nat 34) EmptyString.
Definition squote : string := String (Ascii.ascii_of_nat 39) EmptyString.
Definition newline : string := String (Ascii.ascii_of_nat 10) EmptyString.

(** [repr(s)] of a string that holds no quote and no escape. *)
Definition repr_str (s : string) : string := squote +:+ s +:+ squote.

(** [str(e)]: class [PAError] prints [repr(self.value)], the built-in
    exceptions print their message. *)
Definition str_exn (e : exn) : string :=
  match e with
  | PAError v => repr_str v
  | IOError m => m
  | AssertionError (Some m) => m
  | AssertionError None => "None"
  | _ => EmptyString
  end.

(** Comparisons of floats. *)
Definition Qltb (a b : Q) : bool := negb (Qle_bool b a).
Definition Qgtb (a b : Q) : bool := Qltb b a.
Definition Qleb (a b : Q) : bool := Qle_bool a b.
Definition Qgeb (a b : Q) : bool := Qle_bool b a.
Definition Qneb (a b : Q) : bool := negb (Qeq_bool a b).

(** [int(x)] of a float truncates towards zero. *)
Definition int_of_float (x : Q) : Z := Z.quot (Qnum x) (Z.pos (Qden x)).

(** [l[i]] and [l[i] = v], with Python's negative indices. *)
Definition norm_index {A} (l : list A) (i : Z) : option nat :=
  if 0 <=? i then
    if i <? Z.of_nat (length l) then Some (Z.to_nat i) else None
  else
    if 0 <=? Z.of_nat (length l) + i then Some (Z.to_nat (Z.of_nat (length l) + i))
    else None.

Definition getitem {A} (l : list A) (i : Z) : result A :=
  match norm_index l i with
  | Some n => match l !! n with Some v => Ok v | None => Raise IndexError end
  | None => Raise IndexError
  end.

Definition setitem {A} (l : list A) (i : Z) (v : A) : result (list A) :=
  match norm_index l i with
  | Some n => Ok (<[n := v]> l)
  | None => Raise IndexError
  end.

(** [[v] * n]: empty when [n] is not positive. *)
Definition list_times {A} (v : A) (n : Z) : list A := replicate (Z.to_nat n) v.

(** [re.search('#$', s) != None]: [$] matches at the end of the string and
    also just before a newline that ends it. *)
Fixpoint search_hash_end (s : string) : bool :=
  match s with
  | EmptyString => false
  | String c rest =>
      (Ascii.eqb c "#"%char &&
         (String.eqb rest EmptyString || String.eqb rest newline))
      || search_hash_end rest
  end.

Definition strip_prefix_char (c : Ascii.ascii) (s : string) : bool * string :=
  match s with
  | String d rest => if Ascii.eqb c d then (true, rest) else (false, s)
  | EmptyString => (false, s)
  end.

(** [re.match('^(x?)(y?)(z?)$', s)]: the three groups as "group is not
    empty", or [None] when the string does not match. *)
Definition match_xyz (s : string) : option (bool * bool * bool) :=
  let '(gx, s1) := strip_prefix_char "x"%char s in
  let '(gy, s2) := strip_prefix_char "y"%char s1 in
  let '(gz, s3) := strip_prefix_char "z"%char s2 in
  if String.eqb s3 EmptyString || String.eqb s3 newline
  then Some (gx, gy, gz) else None.

(** *** Files and [struct] *)

Definition byte_of_Z (z : Z) : Byte.byte :=
  default Byte.x00 (Byte.of_N (Z.to_N (z mod 256))).

Definition Z_of_byte (b : Byte.byte) : Z := Z.of_N (Byte.to_N b).

(** [struct.pack("i", v)]: four bytes, least significant first, two's
    complement; [struct.error] outside the 32-bit range. *)
Definition le_bytes4 (u : Z) : list Byte.byte :=
  [byte_of_Z u; byte_of_Z (u / 2 ^ 8); byte_of_Z (u / 2 ^ 16); byte_of_Z (u / 2 ^ 24)].

Definition le_value (b : list Byte.byte) : Z :=
  foldr (fun b acc => Z_of_byte b + 256 * acc) 0 b.

Definition pack_i (v : Z) : result (list Byte.byte) :=
  if (- 2 ^ 31 <=? v) && (v <? 2 ^ 31) then Ok (le_bytes4 (v mod 2 ^ 32))
  else Raise StructError.

(** [struct.unpack("i", b)] on four bytes. *)
Definition unpack_i (b : list Byte.byte) : Z :=
  let u := le_value b in
  if u <? 2 ^ 31 then u else u - 2 ^ 32.

(** [f.read(size)] on the bytes not read yet: the bytes returned and the
    bytes left.  A negative size reads to the end. *)
Definition file_read (f : list Byte.byte) (size : Z)
  : list Byte.byte * list Byte.byte :=
  if size <? 0 then (f, []) else (take (Z.to_nat size) f, drop (Z.to_nat size) f).

(** Read [nbytes] bytes from the file; [IOError] when fewer are left. *)
Definition _read_bytes (f : list Byte.byte) (nbytes : Z)
  : result (list Byte.byte * list Byte.byte) :=
  let '(s, f') := file_read f nbytes in
  if negb (Z.of_nat (length s) =? nbytes)
  then Raise (IOError "Bytes missing from file.")
  else Ok (s, f').

(** [range(start, stop, step)] *)
Definition range3 (start stop step : Z) : result (list Z) :=
  if step =? 0 then Raise ValueError
  else
    let len := if 0 <? step then (stop - start + step - 1) / step
               else (start - stop - step - 1) / (- step) in
    Ok ((fun k => start + k * step) <$> seqZ 0 len).

(** [l[lo:hi] = row] *)
Definition slice_bound {A} (l : list A) (i : Z) : nat :=
  let len := Z.of_nat (length l) in
  Z.to_nat (Z.min (Z.max (if i <? 0 then i + len else i) 0) len).

Definition slice_assign {A} (l : list A) (lo hi : Z) (row : list A) : list A :=
  let a := slice_bound l lo in
  let b := Nat.max a (slice_bound l hi) in
  take a l ++ row ++ drop b l.

(** [l[lo:hi]] *)
Definition slice {A} (l : list A) (lo hi : Z) : list A :=
  let a := slice_bound l lo in
  let b := Nat.max a (slice_bound l hi) in
  take (b - a) (drop a l).

(** A file being written: the bytes written so far and how the writing
    went on. *)
Definition W (A : Type) : Type := list Byte.byte * result A.

Definition wret {A} (a : A) : W A := ([], Ok a).
Definition wlift {A} (r : result A) : W A := ([], r).
Definition write (b : list Byte.byte) : W unit := (b, Ok tt).
Definition wbind {A B} (m : W A) (k : A -> W B) : W B :=
  match m with
  | (w, Ok a) => let '(w', r) := k a in (w ++ w', r)
  | (w, Raise e) => (w, Raise e)
  end.

(** What the idealisation of [float] by [Q] leaves open. *)
Class PyFloat : Type := {
  str_float : Q -> string;
  sqrt : Q -> Q;
  pack_d : Q -> list Byte.byte;
  unpack_d : list Byte.byte -> Q;
  pack_d_length : forall q, length (pack_d q) = 8%nat
}.

End Py.
Import Py.

(** ** The instance *)

Local Unset Elimination Schemes.

Inductive PA : Type := mkPA {
  _mode : Z;
  _symmetry : string;
  _max_voltage : Q;
  _nx : Z;
  _ny : Z;
  _nz : Z;
  _mirror_x : bool;
  _mirror_y : bool;
  _mirror_z : bool;
  _field_type : string;
  _ng : Z;
  _dx_mm : Q;
  _dy_mm : Q;
  _dz_mm : Q;
  _fast_adjustable : bool;
  _error : option string;
  _pasharp : option PA;
  _points : list Q
}.

Local Set Elimination Schemes.

Definition set_error (e : option string) (s : PA) : PA :=
  mkPA (_mode s) (_symmetry s) (_max_voltage s) (_nx s) (_ny s) (_nz s)
       (_mirror_x s) (_mirror_y s) (_mirror_z s) (_field_type s) (_ng s)
       (_dx_mm s) (_dy_mm s) (_dz_mm s) (_fast_adjustable s) e
       (_pasharp s) (_points s).

Definition set_points (p : list Q) (s : PA) : PA :=
  mkPA (_mode s) (_symmetry s) (_max_voltage s) (_nx s) (_ny s) (_nz s)
       (_mirror_x s) (_mirror_y s) (_mirror_z s) (_field_type s) (_ng s)
       (_dx_mm s) (_dy_mm s) (_dz_mm s) (_fast_adjustable s) (_error s)
       (_pasharp s) p.

Definition set_max_voltage (m : Q) (s : PA) : PA :=
  mkPA (_mode s) (_symmetry s) m (_nx s) (_ny s) (_nz s)
       (_mirror_x s) (_mirror_y s) (_mirror_z s) (_field_type s) (_ng s)
       (_dx_mm s) (_dy_mm s) (_dz_mm s) (_fast_adjustable s) (_error s)
       (_pasharp s) (_points s).

Definition set_dims (nx ny nz : Z) (s : PA) : PA :=
  mkPA (_mode s) (_symmetry s) (_max_voltage s) nx ny nz
       (_mirror_x s) (_mirror_y s) (_mirror_z s) (_field_type s) (_ng s)
       (_dx_mm s) (_dy_mm s) (_dz_mm s) (_fast_adjustable s) (_error s)
       (_pasharp s) (_points s).

(** ** Computations over the instance *)

Definition M (A : Type) : Type := PA -> PA * result A.

Definition ret {A} (a : A) : M A := fun s => (s, Ok a).
Definition raise {A} (e : exn) : M A := fun s => (s, Raise e).
Definition bind {A B} (m : M A) (k : A -> M B) : M B :=
  fun s => match m s with
           | (s', Ok a) => k a s'
           | (s', Raise e) => (s', Raise e)
           end.
Definition get : M PA := fun s => (s, Ok s).
Definition modify (f : PA -> PA) : M unit := fun s => (f s, Ok tt).
Definition lift {A} (r : result A) : M A := fun s => (s, r).

Notation "x <- m ;; k" := (bind m (fun x => k))
  (at level 100, m at next level, right associativity).
Notation "m ;;; k" := (bind m (fun _ => k))
  (at level 100, right associativity).
Notation "x <~ m ;; k" := (wbind m (fun x => k))
  (at level 100, m at next level, right associativity).

(** [assert c, msg]: the message is evaluated only when [c] fails. *)
Definition assert_ (c : bool) (msg : M (option string)) : M unit :=
  if c then ret tt else (m <- msg ;; raise (AssertionError m)).

Definition when_ (c : bool) (m : M unit) : M unit := if c then m else ret tt.

(** Keyword arguments of [check]; [None] is an argument left out.
    ([fast_adjustable], [enable_points] and [file] are accepted and never
    looked at.) *)
Record kwargs : Type := mkKw {
  kw_mode : option Z;
  kw_field_type : option string;
  kw_symmetry : option string;
  kw_mirror : option string;
  kw_mirror_x : option bool;
  kw_mirror_y : option bool;
  kw_mirror_z : option bool;
  kw_nx : option Z;
  kw_ny : option Z;
  kw_nz : option Z;
  kw_max_voltage : option Q;
  kw_ng : option Z;
  kw_dx_mm : option Q;
  kw_dy_mm : option Q;
  kw_dz_mm : option Q
}.

Definition no_kw : kwargs :=
  mkKw None None None None None None None None None None None None None None None.

Definition with_symmetry (v : string) (k : kwargs) : kwargs :=
  mkKw (kw_mode k) (kw_field_type k) (Some v) (kw_mirror k) (kw_mirror_x k)
       (kw_mirror_y k) (kw_mirror_z k) (kw_nx k) (kw_ny k) (kw_nz k)
       (kw_max_voltage k) (kw_ng k) (kw_dx_mm k) (kw_dy_mm k) (kw_dz_mm k).

Definition with_mirrors (mx my mz : option bool) (k : kwargs) : kwargs :=
  mkKw (kw_mode k) (kw_field_type k) (kw_symmetry k) (kw_mirror k) mx my mz
       (kw_nx k) (kw_ny k) (kw_nz k)
       (kw_max_voltage k) (kw_ng k) (kw_dx_mm k) (kw_dy_mm k) (kw_dz_mm k).

Definition with_size (nx ny nz : option Z) (k : kwargs) : kwargs :=
  mkKw (kw_mode k) (kw_field_type k) (kw_symmetry k) (kw_mirror k)
       (kw_mirror_x k) (kw_mirror_y k) (kw_mirror_z k) nx ny nz
       (kw_max_voltage k) (kw_ng k) (kw_dx_mm k) (kw_dy_mm k) (kw_dz_mm k).

Section Methods.
Context `{PyFloat}.

(** *** Group: Error Handling *)

Definition error : M (option string) := s <- get ;; ret (_error s).

Definition fail_check (msg : string) : M bool :=
  modify (set_error (Some msg)) ;;; ret false.

(** *** Group: Checkers *)

Definition check_field_type (field_type : string) : M bool :=
  if negb (String.eqb field_type "electrostatic" || String.eqb field_type "magnetic")
  then fail_check ("Field type (" +:+ field_type +:+
                   ") must be 'electrostatic' or 'magnetic'.")
  else ret true.

Definition check_max_voltage (max_voltage : Q) : M bool :=
  if Qltb max_voltage 0
  then fail_check ("Max voltage (" +:+ str_float max_voltage +:+ ") is out of range.")
  else ret true.

Definition check_mirror (mirror : string) : M bool :=
  match match_xyz mirror with
  | None => fail_check ("Mirror string (" +:+ mirror +:+ ") invalid.")
  | Some _ => ret true
  end.

Definition check_mode (mode : Z) : M bool :=
  if negb (mode =? -1) && negb (mode =? -2)
  then fail_check ("Mode (" +:+ str_int mode +:+ ") is out of range.")
  else ret true.

Definition check_ng (ng : Z) : M bool :=
  if ng <? 0
  then fail_check ("Magnetic scaling factor (" +:+ str_int ng +:+
                   ") must be no less than 0.")
  else ret true.

Definition check_nx (nx : Z) : M bool :=
  if nx <? 3
  then fail_check ("nx value (" +:+ str_int nx +:+ ") must be no less than 3.")
  else if nx >? 90000
  then fail_check ("nx value (" +:+ str_int nx +:+ ") must be no greater than 90000.")
  else ret true.

Definition check_ny (ny : Z) : M bool :=
  if ny <? 3
  then fail_check ("ny value (" +:+ str_int ny +:+ ") must be no less than 3.")
  else if ny >? 90000
  then fail_check ("ny value (" +:+ str_int ny +:+ ") must be no greater than 90000.")
  else ret true.

Definition check_nz (nz : Z) : M bool :=
  if nz <? 1
  then fail_check ("nz value (" +:+ str_int nz +:+ ") must be no less than 1.")
  else if nz >? 90000
  then fail_check ("nz value (" +:+ str_int nz +:+ ") must be no greater than 90000.")
  else ret true.

(** Comparing [None] with a number is a [TypeError]. *)
Definition number {A} (o : option A) : M A :=
  match o with Some v => ret v | None => raise TypeError end.

(** [check_size(nx, ny, nz)] as [check] calls it: every argument is passed,
    and may be [None]. *)
Definition check_size (nx ny nz : option Z) : M bool :=
  vx <- number nx ;;
  okx <- check_nx vx ;;
  if negb okx then ret false else
  vy <- number ny ;;
  oky <- check_ny vy ;;
  if negb oky then ret false else
  vz <- number nz ;;
  okz <- check_nz vz ;;
  if negb okz then ret false else
  if vx * vy * vz >? 200000000
  then fail_check ("(" +:+ str_int vx +:+ "," +:+ str_int vy +:+ "," +:+ str_int vz +:+
                   ") exceeds 200 million points.")
  else ret true.

Definition check_symmetry (symmetry : string) : M bool :=
  if negb (String.eqb symmetry "planar" || String.eqb symmetry "cylindrical")
  then fail_check ("Symmetry (" +:+ symmetry +:+ ") must be 'planar' or 'cylindrical'.")
  else ret true.

Definition check_dx_mm (xmmgu : Q) : M bool :=
  if Qltb xmmgu (1 # 1000000)
  then fail_check ("dx_mm value (" +:+ str_float xmmgu +:+ ") must be no less than 1e-6.")
  else if Qgtb xmmgu 900
  then fail_check ("dx_mm value (" +:+ str_float xmmgu +:+ ") must be no greater than 900.")
  else ret true.

Definition check_dy_mm (ymmgu : Q) : M bool :=
  if Qltb ymmgu (1 # 1000000)
  then fail_check ("dy_mm value (" +:+ str_float ymmgu +:+ ") must be no less than 1e-6.")
  else if Qgtb ymmgu 900
  then fail_check ("dy_mm value (" +:+ str_float ymmgu +:+ ") must be no greater than 900.")
  else ret true.

Definition check_dz_mm (zmmgu : Q) : M bool :=
  if Qltb zmmgu (1 # 1000000)
  then fail_check ("dz_mm value (" +:+ str_float zmmgu +:+ ") must be no less than 1e-6.")
  else if Qgtb zmmgu 900
  then fail_check ("dz_mm value (" +:+ str_float zmmgu +:+ ") must be no greater than 900.")
  else ret true.

Definition _parse_mirror (mirror : string) : M (bool * bool * bool) :=
  match match_xyz mirror with
  | None => raise (AssertionError (Some ("Invalid mirroring (" +:+ mirror +:+ ").")))
  | Some g => ret g
  end.

(** One line [if v != None and not self.check_v(v): return 0] of [check]:
    [true] when the line returns. *)
Definition rejects {A} (o : option A) (chk : A -> M bool) : M bool :=
  match o with
  | None => ret false
  | Some v => ok <- chk v ;; ret (negb ok)
  end.

Definition is_true (o : option bool) : bool :=
  match o with Some b => b | None => false end.

(** The last three tests of [check], on the mirror flags once the alias
    [mirror] has been resolved. *)
Definition check_symmetry_rules (k : kwargs) (mirror_x mirror_y mirror_z : option bool)
  : M bool :=
  let cylindrical := bool_decide (kw_symmetry k = Some "cylindrical") in
  if cylindrical && bool_decide (mirror_y = Some false)
  then fail_check "y mirroring must be enabled under cylindrical symmetry."
  else
  match kw_nz k with
  | Some nz =>
      if cylindrical && negb (nz =? 1)
      then fail_check ("nz (" +:+ str_int nz +:+
                       ") must be 1 under cylindrical symmetry.")
      else if is_true mirror_z && (nz =? 1)
      then fail_check ("nz (" +:+ str_int nz +:+ ") cannot be 1 under z mirroring.")
      else ret true
  | None => ret true
  end.

Definition check (k : kwargs) : M bool :=
  r <- rejects (kw_mode k) check_mode ;; if r : bool then ret false else
  r <- rejects (kw_symmetry k) check_symmetry ;; if r : bool then ret false else
  r <- rejects (kw_max_voltage k) check_max_voltage ;; if r : bool then ret false else
  r <- rejects (kw_field_type k) check_field_type ;; if r : bool then ret false else
  r <- rejects (kw_ng k) check_ng ;; if r : bool then ret false else
  r <- rejects (kw_nx k) check_nx ;; if r : bool then ret false else
  r <- rejects (kw_ny k) check_ny ;; if r : bool then ret false else
  r <- rejects (kw_nz k) check_nz ;; if r : bool then ret false else
  r <- rejects (kw_nx k) (fun nx => check_size (Some nx) (kw_ny k) (kw_nz k)) ;;
  if r : bool then ret false else
  r <- rejects (kw_dx_mm k) check_dx_mm ;; if r : bool then ret false else
  r <- rejects (kw_dy_mm k) check_dy_mm ;; if r : bool then ret false else
  r <- rejects (kw_dz_mm k) check_dz_mm ;; if r : bool then ret false else
  match kw_mirror k with
  | None => check_symmetry_rules k (kw_mirror_x k) (kw_mirror_y k) (kw_mirror_z k)
  | Some mirror =>
      if bool_decide (kw_mirror_x k <> None)
      then fail_check "mirror and mirror_x named parameters cannot coexist."
      else if bool_decide (kw_mirror_y k <> None)
      then fail_check "mirror and mirror_y named parameters cannot coexist."
      else if bool_decide (kw_mirror_z k <> None)
      then fail_check "mirror and mirror_z named parameters cannot coexist."
      else
        g <- _parse_mirror mirror ;;
        check_symmetry_rules k (Some g.1.1) (Some g.1.2) (Some g.2)
  end.

(** *** Group: Getters and Setters *)

(** [mode()]: the value reported may be more negative than the one stored. *)
Definition mode : M Z :=
  s <- get ;;
  if (_mode s =? -1) &&
     (Qneb (_dx_mm s) 1 || Qneb (_dy_mm s) 1 || Qneb (_dz_mm s) 1)
  then ret (-2)
  else ret (_mode s).

Definition max_voltage : M Q := s <- get ;; ret (_max_voltage s).
Definition mirror_x : M bool := s <- get ;; ret (_mirror_x s).
Definition mirror_y : M bool := s <- get ;; ret (_mirror_y s).
Definition mirror_z : M bool := s <- get ;; ret (_mirror_z s).
Definition field_type : M string := s <- get ;; ret (_field_type s).
Definition ng : M Z := s <- get ;; ret (_ng s).
Definition nx : M Z := s <- get ;; ret (_nx s).
Definition ny : M Z := s <- get ;; ret (_ny s).
Definition nz : M Z := s <- get ;; ret (_nz s).
Definition num_points : M Z := s <- get ;; ret (_nx s * _ny s * _nz s).

(** [for a in l: body(a)] *)
Fixpoint for_ {A} (l : list A) (body : A -> M unit) : M unit :=
  match l with
  | [] => ret tt
  | a :: l' => body a ;;; for_ l' body
  end.

(** [range(n)] *)
Definition range (n : Z) : list Z := seqZ 0 n.

Definition points_get (pos : Z) : M Q :=
  s <- get ;; lift (getitem (_points s) pos).

Definition points_set (pos : Z) (v : Q) : M unit :=
  s <- get ;;
  p <- lift (setitem (_points s) pos v) ;;
  modify (set_points p).

(** [max_voltage(max_voltage)]: the setter. *)
Definition max_voltage_set (max_voltage : Q) : M unit :=
  ok <- check_max_voltage max_voltage ;;
  assert_ ok error ;;;
  s <- get ;;
  let num_points := _nx s * _ny s * _nz s in
  let old_max_voltage := _max_voltage s in
  let diff := ((-2) * _max_voltage s + 2 * max_voltage)%Q in
  modify (set_max_voltage max_voltage) ;;;
  for_ (range num_points) (fun n =>
    v <- points_get n ;;
    if Qgtb v old_max_voltage then points_set n (v + diff)%Q else ret tt).

Definition size_get : M (Z * Z * Z) := s <- get ;; ret (_nx s, _ny s, _nz s).

(** [size(nx, ny, nz)]: the setter; [nz] defaults to 1. *)
Definition size (nx ny : Z) (nz : option Z) : M unit :=
  let nz := match nz with Some v => v | None => 1 end in
  s <- get ;;
  ok <- check (with_size (Some nx) (Some ny) (Some nz)
                (with_symmetry (_symmetry s)
                  (with_mirrors (Some (_mirror_x s)) (Some (_mirror_y s))
                                (Some (_mirror_z s)) no_kw))) ;;
  assert_ ok error ;;;
  modify (set_dims nx ny nz) ;;;
  modify (set_points (list_times 0%Q (nx * ny * nz))).

(** *** Group: Boundary and Coordinates *)

Definition inside (x y z : Z) : M bool :=
  s <- get ;;
  ret ((0 <=? x) && (x <? _nx s) &&
       (0 <=? y) && (y <? _ny s) &&
       (0 <=? z) && (z <? _nz s)).

Definition _inside_cylindrical_real (x r : Q) : M bool :=
  s <- get ;;
  let yes :=
    if Qgeb x 0 then Qleb x (inject_Z (_nx s - 1))
    else if _mirror_x s then Qleb (- x) (inject_Z (_nx s - 1))
    else false in
  ret (if yes then Qleb r (inject_Z (_ny s - 1)) else yes).

Definition inside_real (x y z : Q) : M bool :=
  s <- get ;;
  if String.eqb (_symmetry s) "planar" then
    let yes :=
      if Qgeb x 0 then Qleb x (inject_Z (_nx s - 1))
      else if _mirror_x s then Qleb (- x) (inject_Z (_nx s - 1))
      else false in
    if yes then
      let yes :=
        if Qgeb y 0 then Qleb y (inject_Z (_ny s - 1))
        else if _mirror_y s then Qleb (- y) (inject_Z (_ny s - 1))
        else false in
      if yes && negb (_nz s =? 1) then
        ret (if Qgeb z 0 then Qleb z (inject_Z (_nz s - 1))
             else if _mirror_z s then Qleb (- z) (inject_Z (_nz s - 1))
             else false)
      else ret yes
    else ret yes
  else if String.eqb (_symmetry s) "cylindrical" then
    let r := sqrt (y * y + z * z)%Q in
    _inside_cylindrical_real x r
  else raise (AssertionError
                (Some ("internal error: bad symmetry (" +:+ _symmetry s +:+ ")"))).

(** *** Group: Point Setters/Getters *)

Definition _fail_point {A} (str : A -> string) (x y z : A) : M (option string) :=
  s <- get ;;
  ret (Some ("point (" +:+ str x +:+ "," +:+ str y +:+ "," +:+ str z +:+
             ") out of bounds (" +:+
             str_int (_nx s) +:+ "," +:+ str_int (_ny s) +:+ "," +:+
             str_int (_nz s) +:+ ").")).

Definition assert_inside (x y z : Z) : M unit :=
  ok <- inside x y z ;; assert_ ok (_fail_point str_int x y z).

(** [pos = (z * self._ny + y) * self._nx + x] *)
Definition pos_of (x y z : Z) : M Z :=
  s <- get ;; ret ((z * _ny s + y) * _nx s + x).

Definition clear_points : M unit :=
  n <- num_points ;;
  for_ (range n) (fun n => points_set n 0%Q).

Definition electrode (x y z : Z) : M bool :=
  assert_inside x y z ;;;
  pos <- pos_of x y z ;;
  v <- points_get pos ;;
  s <- get ;;
  ret (Qgtb v (_max_voltage s)).

Definition electrode_set (x y z : Z) (is_electrode : bool) : M unit :=
  assert_inside x y z ;;;
  pos <- pos_of x y z ;;
  v <- points_get pos ;;
  s <- get ;;
  if Qgtb v (_max_voltage s) then
    if negb is_electrode then points_set pos (v - 2 * _max_voltage s)%Q else ret tt
  else
    if is_electrode then points_set pos (v + 2 * _max_voltage s)%Q else ret tt.

Definition point (x y z : Z) : M (bool * Q) :=
  assert_inside x y z ;;;
  pos <- pos_of x y z ;;
  potential <- points_get pos ;;
  s <- get ;;
  let is_electrode := Qgtb potential (_max_voltage s) in
  ret (is_electrode,
       if is_electrode then (potential - 2 * _max_voltage s)%Q else potential).

(** [point(x, y, z, is_electrode, potential)]: the setter; a potential left
    out is [0.0]. *)
Definition point_set (x y z : Z) (is_electrode : bool) (potential : option Q)
  : M unit :=
  assert_inside x y z ;;;
  pos <- pos_of x y z ;;
  let potential := match potential with Some p => p | None => 0%Q end in
  s <- get ;;
  when_ (Qgtb potential (_max_voltage s)) (max_voltage_set (potential * 2)%Q) ;;;
  points_set pos potential ;;;
  if is_electrode then
    v <- points_get pos ;;
    s <- get ;;
    points_set pos (v + 2 * _max_voltage s)%Q
  else ret tt.

Definition potential (x y z : Z) : M Q :=
  assert_inside x y z ;;;
  pos <- pos_of x y z ;;
  v <- points_get pos ;;
  s <- get ;;
  let is_electrode := Qgtb v (_max_voltage s) in
  val <- points_get pos ;;
  ret (if is_electrode then (val - 2 * _max_voltage s)%Q else val).

Definition potential_set (x y z : Z) (potential : Q) : M unit :=
  assert_inside x y z ;;;
  pos <- pos_of x y z ;;
  v <- points_get pos ;;
  s <- get ;;
  let is_electrode := Qgtb v (_max_voltage s) in
  when_ (Qgtb potential (_max_voltage s)) (max_voltage_set (potential * 2)%Q) ;;;
  points_set pos potential ;;;
  if is_electrode then
    v <- points_get pos ;;
    s <- get ;;
    points_set pos (v + 2 * _max_voltage s)%Q
  else ret tt.

Definition raw (x y z : Z) : M Q :=
  assert_inside x y z ;;;
  pos <- pos_of x y z ;;
  points_get pos.

Definition raw_set (x y z : Z) (val : Q) : M unit :=
  assert_inside x y z ;;;
  pos <- pos_of x y z ;;
  points_set pos val.

(** [c and m() or 0.0]: [m] runs only when [c] holds, and a result that is
    zero is replaced by [0.0]. *)
Definition and_or (c : bool) (m : M Q) : M Q :=
  if c then (v <- m ;; ret (if Qeq_bool v 0 then 0%Q else v)) else ret 0%Q.

(** The bilinear blend of the four corners around [(xi + wx, yi + wy)]. *)
Definition bilinear (xi yi : Z) (wx wy : Q) : M Q :=
  p00 <- potential xi yi 0 ;;
  p10 <- and_or (Qneb wx 0) (potential (xi + 1) yi 0) ;;
  p01 <- and_or (Qneb wy 0) (potential xi (yi + 1) 0) ;;
  p11 <- and_or (Qneb wx 0 && Qneb wy 0) (potential (xi + 1) (yi + 1) 0) ;;
  ret ((1 - wx) * (1 - wy) * p00 +
       wx * (1 - wy) * p10 +
       (1 - wx) * wy * p01 +
       wx * wy * p11)%Q.

Definition trilinear (xi yi zi : Z) (wx wy wz : Q) : M Q :=
  p000 <- potential xi yi zi ;;
  p100 <- and_or (Qneb wx 0) (potential (xi + 1) yi zi) ;;
  p010 <- and_or (Qneb wy 0) (potential xi (yi + 1) zi) ;;
  p110 <- and_or (Qneb wx 0 && Qneb wy 0) (potential (xi + 1) (yi + 1) zi) ;;
  p001 <- and_or (Qneb wz 0) (potential xi yi (zi + 1)) ;;
  p101 <- and_or (Qneb wx 0 && Qneb wz 0) (potential (xi + 1) yi (zi + 1)) ;;
  p011 <- and_or (Qneb wy 0 && Qneb wz 0) (potential xi (yi + 1) (zi + 1)) ;;
  p111 <- and_or (Qneb wx 0 && Qneb wy 0 && Qneb wz 0)
                 (potential (xi + 1) (yi + 1) (zi + 1)) ;;
  ret ((1 - wx) * (1 - wy) * (1 - wz) * p000 +
       wx * (1 - wy) * (1 - wz) * p100 +
       (1 - wx) * wy * (1 - wz) * p010 +
       wx * wy * (1 - wz) * p110 +
       (1 - wx) * (1 - wy) * wz * p001 +
       wx * (1 - wy) * wz * p101 +
       (1 - wx) * wy * wz * p011 +
       wx * wy * wz * p111)%Q.

Definition potential_real (x y z : Q) : M Q :=
  ok <- inside_real x y z ;;
  assert_ ok (_fail_point str_float x y z) ;;;
  let xeff := Qabs x in
  let yeff := Qabs y in
  let zeff := Qabs z in
  s <- get ;;
  if String.eqb (_symmetry s) "planar" then
    if _nz s =? 1 then
      let xi := int_of_float xeff in
      let yi := int_of_float yeff in
      let wx := (xeff - inject_Z xi)%Q in
      let wy := (yeff - inject_Z yi)%Q in
      bilinear xi yi wx wy
    else
      let xi := int_of_float xeff in
      let yi := int_of_float yeff in
      let zi := int_of_float zeff in
      let wx := (xeff - inject_Z xi)%Q in
      let wy := (yeff - inject_Z yi)%Q in
      let wz := (zeff - inject_Z zi)%Q in
      trilinear xi yi zi wx wy wz
  else if String.eqb (_symmetry s) "cylindrical" then
    let r := sqrt (y * y + z * z)%Q in
    let xi := int_of_float xeff in
    let ri := int_of_float r in
    let wx := (xeff - inject_Z xi)%Q in
    let wr := (r - inject_Z ri)%Q in
    bilinear xi ri wx wr
  else raise (AssertionError
                (Some ("internal error: bad symmetry (" +:+ _symmetry s +:+ ")"))).

(** *** The field setter *)

(** [a / b] with a float [a] and an int [b]. *)
Definition div_int (a : Q) (b : Z) : M Q :=
  if b =? 0 then raise ZeroDivisionError else ret (a / inject_Z b)%Q.

Definition _set_field (x y z : Z) (field_x field_y field_z : Q) : M unit :=
  let is_electrode := false in
  ft <- field_type ;;
  f <- (if String.eqb ft "magnetic" then
          n <- ng ;; fx <- div_int field_x n ;;
          n <- ng ;; fy <- div_int field_y n ;;
          n <- ng ;; fz <- div_int field_z n ;;
          ret (fx, fy, fz)
        else ret (field_x, field_y, field_z)) ;;
  let '(field_x, field_y, field_z) := f in
  n <- nx ;;
  when_ (negb (x =? n - 1))
    (r <- raw (x + 1) y z ;; point_set (x + 1) y z false (Some (r - field_x)%Q)) ;;;
  n <- ny ;;
  when_ (negb (y =? n - 1))
    (r <- raw x (y + 1) z ;; point_set x (y + 1) z false (Some (r - field_y)%Q)) ;;;
  n <- nz ;;
  when_ (negb (z =? n - 1))
    (r <- raw x y (z + 1) ;; point_set x y (z + 1) false (Some (r - field_z)%Q)) ;;;
  if negb (x =? 0) && negb (y =? 0) && negb (z =? 0) then
    a <- potential (x - 1) y z ;;
    b <- potential x (y - 1) z ;;
    c <- potential x y (z - 1) ;;
    r <- raw x y z ;;
    let val := ((a + b + c) / 3 + (r - field_x - field_y - field_z) / 6)%Q in
    point_set x y z is_electrode (Some val)
  else if negb (x =? 0) && negb (y =? 0) then
    a <- potential (x - 1) y z ;;
    b <- potential x (y - 1) z ;;
    r <- raw x y z ;;
    let val := ((a + b) / 2 + (r - field_x - field_y) / 4)%Q in
    point_set x y z is_electrode (Some val)
  else if negb (x =? 0) && negb (z =? 0) then
    a <- potential (x - 1) y z ;;
    c <- potential x y (z - 1) ;;
    r <- raw x y z ;;
    let val := ((a + c) / 2 + (r - field_x - field_z) / 4)%Q in
    point_set x y z is_electrode (Some val)
  else if negb (y =? 0) && negb (z =? 0) then
    b <- potential x (y - 1) z ;;
    c <- potential x y (z - 1) ;;
    r <- raw x y z ;;
    let val := ((b + c) / 2 + (r - field_y - field_z) / 4)%Q in
    point_set x y z is_electrode (Some val)
  else if negb (z =? 0) then
    c <- potential x y (z - 1) ;;
    r <- raw x y z ;;
    let val := (c + (r - field_z) / 2)%Q in
    point_set x y z is_electrode (Some val)
  else if negb (y =? 0) then
    b <- potential x (y - 1) z ;;
    r <- raw x y z ;;
    let val := (b + (r - field_y) / 2)%Q in
    point_set x y z is_electrode (Some val)
  else if negb (x =? 0) then
    a <- potential (x - 1) y z ;;
    r <- raw x y z ;;
    let val := (a + (r - field_x) / 2)%Q in
    point_set x y z is_electrode (Some val)
  else
    point_set x y z is_electrode (Some 0%Q).

(** [field(x, y, z, ex, ey, ez)]: the setter. *)
Definition field_set (x y z : Z) (ex ey ez : Q) : M unit :=
  _set_field x y z ex ey ez.

(** The scan the field setter asks of its caller:
    [for z in range(nz): for y in range(ny): for x in range(nx)]. *)
Definition scan_order (nx ny nz : Z) : list (Z * Z * Z) :=
  z ← range nz; y ← range ny; x ← range nx; [(x, y, z)].

Definition set_constant_field (ex ey ez : Q) : M unit :=
  s <- get ;;
  for_ (scan_order (_nx s) (_ny s) (_nz s))
       (fun p => field_set p.1.1 p.1.2 p.2 ex ey ez).

(** *** Group: Construction and Serialization *)

(** [struct.pack("d" * count, *row)] and [struct.unpack("d" * count, buf)] *)
Definition pack_ds (count : Z) (row : list Q) : result (list Byte.byte) :=
  if negb (Z.of_nat (length row) =? Z.max count 0) then Raise StructError
  else Ok (concat (pack_d <$> row)).

Fixpoint unpack_chunks (n : nat) (buf : list Byte.byte) : list Q :=
  match n with
  | O => []
  | S n' => unpack_d (take 8 buf) :: unpack_chunks n' (drop 8 buf)
  end.

Definition unpack_ds (count : Z) (buf : list Byte.byte) : result (list Q) :=
  if negb (Z.of_nat (length buf) =? 8 * Z.max count 0) then Raise StructError
  else Ok (unpack_chunks (Z.to_nat count) buf).

(** The loop of [load] over the rows of points; [f] is the open file. *)
Fixpoint load_rows (ns : list Z) (f : list Byte.byte) : M unit :=
  match ns with
  | [] => ret tt
  | n :: ns' =>
      s <- get ;;
      let '(buf, f') := file_read f (_nx s * 8) in
      row <- lift (unpack_ds (_nx s) buf) ;;
      modify (set_points (slice_assign (_points s) n (n + _nx s) row)) ;;;
      load_rows ns' f'
  end.

(** What [load] installs from the words of a header. *)
Definition install_header (path : string) (mode symmetry : Z) (max_voltage : Q)
    (nx ny nz raw_mirror : Z) (dx_mm dy_mm dz_mm : Q) (self : PA) : PA :=
  mkPA mode
       (if negb (symmetry =? 0) then "planar" else "cylindrical")
       max_voltage nx ny nz
       (negb (Z.land raw_mirror 1 =? 0))
       (negb (Z.land (Z.shiftr raw_mirror 1) 1 =? 0))
       (negb (Z.land (Z.shiftr raw_mirror 2) 1 =? 0))
       (if negb (Z.land (Z.shiftr raw_mirror 3) 1 =? 0)
        then "magnetic" else "electrostatic")
       (Z.land (Z.shiftr raw_mirror 4) (Z.shiftl 1 17 - 1))
       dx_mm dy_mm dz_mm
       (search_hash_end path)
       (_error self) (_pasharp self) (_points self).

(** The second half of [load]: allocate the store and read the rows. *)
Definition load_points (f : list Byte.byte) : M unit :=
  s <- get ;;
  let num_points := _nx s * _ny s * _nz s in
  modify (set_points (list_times 0%Q num_points)) ;;;
  ns <- lift (range3 0 num_points (_nx s)) ;;
  load_rows ns f.

(** The body of the [try] of [load], on the open file. *)
Definition load_try (path : string) (f : list Byte.byte) : M unit :=
  r <- lift (_read_bytes f 4) ;;
  let '(b, f) := r in
  let mode := unpack_i b in
  if negb (mode =? -1) && negb (mode =? -2)
  then raise (PAError ("invalid mode (" +:+ str_int mode +:+ ")"))
  else
  r <- lift (_read_bytes f (4 + 8 + 4 * 4)) ;;
  let '(b, f) := r in
  let symmetry := unpack_i (take 4 b) in
  let max_voltage := unpack_d (take 8 (drop 4 b)) in
  let nx := unpack_i (take 4 (drop 12 b)) in
  let ny := unpack_i (take 4 (drop 16 b)) in
  let nz := unpack_i (take 4 (drop 20 b)) in
  let raw_mirror := unpack_i (take 4 (drop 24 b)) in
  r <- (if mode <=? -2 then
          r <- lift (_read_bytes f (8 * 3)) ;;
          let '(b, f) := r in
          ret (unpack_d (take 8 b), unpack_d (take 8 (drop 8 b)),
               unpack_d (take 8 (drop 16 b)), f)
        else ret (1%Q, 1%Q, 1%Q, f)) ;;
  let '(dx_mm, dy_mm, dz_mm, f) := r in
  modify (install_header path mode symmetry max_voltage nx ny nz raw_mirror
                         dx_mm dy_mm dz_mm) ;;;
  load_points f.

(** [load(path)] in a file system: [open] fails on a path that is not
    there; a [PAError] or an [IOError] of the body is raised again as a
    [PAError] that names the file, anything else goes through. *)
Definition load (path : string) (fs : gmap string (list Byte.byte)) : M unit :=
  fun self =>
    let attempt :=
      match fs !! path with
      | None => (self, Raise (IOError ("[Errno 2] No such file or directory: " +:+
                                       repr_str path)))
      | Some f => load_try path f self
      end in
    match attempt with
    | (s, Raise (PAError v)) =>
        (s, Raise (PAError ("Failed reading file " +:+ dquote +:+ path +:+ dquote +:+
                            ": " +:+ str_exn (PAError v))))
    | (s, Raise (IOError m)) =>
        (s, Raise (PAError ("Failed reading file " +:+ dquote +:+ path +:+ dquote +:+
                            ": " +:+ str_exn (IOError m))))
    | other => other
    end.

(** The loop of [save] over the rows of points. *)
Fixpoint save_rows (self : PA) (ns : list Z) : W unit :=
  match ns with
  | [] => wret tt
  | n :: ns' =>
      buf <~ wlift (pack_ds (_nx self) (slice (_points self) n (n + _nx self))) ;;
      _ <~ write buf ;;
      save_rows self ns'
  end.

(** The scan of the paired array for the first point of each electrode
    group. *)
Fixpoint first_points (pasharp : PA) (ns : list Z) (first_idx : list Z)
  : result (list Z) :=
  match ns with
  | [] => Ok first_idx
  | n :: ns' =>
      match getitem (_points pasharp) n with
      | Raise e => Raise e
      | Ok fval =>
          if Qgeb fval (2 * _max_voltage pasharp) then
            let fval := (fval - 2 * _max_voltage pasharp)%Q in
            let ival := int_of_float fval in
            if Qeq_bool (inject_Z ival) fval && (1 <=? ival) && (ival <=? 30) then
              match getitem first_idx ival with
              | Raise e => Raise e
              | Ok i =>
                  if i =? -1 then
                    match setitem first_idx ival n with
                    | Raise e => Raise e
                    | Ok first_idx' => first_points pasharp ns' first_idx'
                    end
                  else first_points pasharp ns' first_idx
              end
            else
              match getitem first_idx 0 with
              | Raise e => Raise e
              | Ok i =>
                  if i =? -1 then
                    match setitem first_idx 0 n with
                    | Raise e => Raise e
                    | Ok first_idx' => first_points pasharp ns' first_idx'
                    end
                  else first_points pasharp ns' first_idx
              end
          else first_points pasharp ns' first_idx
      end
  end.

Fixpoint write_ints (l : list Z) : W unit :=
  match l with
  | [] => wret tt
  | v :: l' => b <~ wlift (pack_i v) ;; _ <~ write b ;; write_ints l'
  end.

(** The statistics that [save] appends when a raw array is paired. *)
Definition save_stats (self pasharp : PA) : W unit :=
  if negb ((_nx pasharp =? _nx self) && (_ny pasharp =? _ny self) &&
           (_nz pasharp =? _nz self))
  then wlift (Raise (AssertionError
                       (Some "PA# dimensions does not match PA0 dimensions")))
  else
    let num_points := Z.of_nat (length (_points self)) in
    first_idx <~ wlift (first_points pasharp (range num_points) (list_times (-1) 31)) ;;
    let num_electrodes :=
      (if negb (default (-1) (first_idx !! 0%nat) =? -1) then 1 else 0) +
      Z.of_nat (length (filter (fun i => i <> -1) (drop 1 first_idx))) in
    b <~ wlift (pack_i num_electrodes) ;;
    _ <~ write b ;;
    _ <~ write (pack_d 10000) ;;
    _ <~ write_ints first_idx ;;
    b <~ wlift (pack_i (-1)) ;;
    write b.

(** The [raw_mirror] word that [save] builds.  The mirror flags are
    booleans, so the normalisation [&= 0x1] that precedes it leaves the
    instance as it is. *)
Definition save_raw_mirror (self : PA) : Z :=
  let raw_mirror := 0 in
  let raw_mirror := if _mirror_x self then Z.lor raw_mirror 1 else raw_mirror in
  let raw_mirror := if _mirror_y self then Z.lor raw_mirror 2 else raw_mirror in
  let raw_mirror := if _mirror_z self then Z.lor raw_mirror 4 else raw_mirror in
  let raw_mirror := if String.eqb (_field_type self) "magnetic"
                    then Z.lor raw_mirror 8 else raw_mirror in
  if (1 <=? _ng self) && (_ng self <=? 90000)
  then Z.lor raw_mirror (Z.shiftl (_ng self) 4) else raw_mirror.

(** [self.mode()] where [save] reads it: the getter cannot raise. *)
Definition reported_mode (self : PA) : Z :=
  match mode self with (_, Ok m) => m | _ => _mode self end.

(** What [save] writes, and how it ends. *)
Definition save_try (self : PA) : W unit :=
  let symmetry := if String.eqb (_symmetry self) "planar" then 1 else 0 in
  let raw_mirror := save_raw_mirror self in
  b_mode <~ wlift (pack_i (reported_mode self)) ;;
  b_symmetry <~ wlift (pack_i symmetry) ;;
  b_nx <~ wlift (pack_i (_nx self)) ;;
  b_ny <~ wlift (pack_i (_ny self)) ;;
  b_nz <~ wlift (pack_i (_nz self)) ;;
  b_mirror <~ wlift (pack_i raw_mirror) ;;
  let header_str := b_mode ++ b_symmetry ++ pack_d (_max_voltage self) ++
                    b_nx ++ b_ny ++ b_nz ++ b_mirror in
  let header_str :=
    if reported_mode self <=? -2
    then header_str ++ pack_d (_dx_mm self) ++ pack_d (_dy_mm self) ++ pack_d (_dz_mm self)
    else header_str in
  _ <~ write header_str ;;
  let num_points := Z.of_nat (length (_points self)) in
  ns <~ wlift (range3 0 num_points (_nx self)) ;;
  _ <~ save_rows self ns ;;
  match _pasharp self with
  | Some pasharp => save_stats self pasharp
  | None => wret tt
  end.

(** [save(path)] in a file system: the file holds what was written, also
    when the writing broke off. *)
Definition save (path : string) (fs : gmap string (list Byte.byte)) (self : PA)
  : gmap string (list Byte.byte) * result unit :=
  let '(bytes, r) := save_try self in
  (<[path := bytes]> fs, r).

End Methods.

(** ** A float interface to compute with

    [exact_ratio] keeps a float as the reduced fraction it stands for:
    eight bytes hold a 32-bit numerator and a 32-bit denominator, the
    square root is taken of numerator and denominator, and the text is the
    fraction.  Every rational whose reduced form fits round-trips through
    its codec. *)

Definition ratio_pack (q : Q) : list Byte.byte :=
  let r := Qred q in
  le_bytes4 (Qnum r mod 2 ^ 32) ++ le_bytes4 (Z.pos (Qden r) mod 2 ^ 32).

Definition ratio_unpack (b : list Byte.byte) : Q :=
  unpack_i (take 4 b) # Z.to_pos (le_value (take 4 (drop 4 b))).

Definition ratio_sqrt (q : Q) : Q :=
  let r := Qred q in Z.sqrt (Qnum r) # Pos.sqrt (Qden r).

Definition ratio_str (q : Q) : string :=
  let r := Qred q in str_int (Qnum r) +:+ "/" +:+ str_int (Z.pos (Qden r)).

#[export] Instance exact_ratio : PyFloat := {|
  str_float := ratio_str;
  sqrt := ratio_sqrt;
  pack_d := ratio_pack;
  unpack_d := ratio_unpack;
  pack_d_length := fun q => eq_refl
|}.

(** ** Notions the properties are stated with *)

(** [frame m]: whatever [m] does, it changes at most the last-error slot. *)
Definition frame {A} (m : M A) : Prop :=
  forall s, exists e, (m s).1 = set_error e s.

(** A point of the grid, as [inside] decides it. *)
Definition in_bounds (s : PA) (x y z : Z) : Prop :=
  0 <= x < _nx s /\ 0 <= y < _ny s /\ 0 <= z < _nz s.

Definition index (s : PA) (x y z : Z) : Z := (z * _ny s + y) * _nx s + x.

(** The store has one value per point. *)
Definition store_ok (s : PA) : Prop :=
  Z.of_nat (length (_points s)) = _nx s * _ny s * _nz s.

(** What [electrode(x, y, z, b)] leaves at a point that held [v]. *)
Definition toggled (m : Q) (b : bool) (v : Q) : Q :=
  if Qgtb v m then (if b then v else v - 2 * m)%Q
  else (if b then v + 2 * m else v)%Q.

(** What the loop of [max_voltage(m)] makes of a stored value. *)
Definition rescaled (old diff v : Q) : Q :=
  if Qgtb v old then (v + diff)%Q else v.

(** The words of a file as [load] slices them. *)
Definition file_mode (f : list Byte.byte) : Z := unpack_i (take 4 f).

Definition file_words (f : list Byte.byte) : list Byte.byte := take 28 (drop 4 f).

Definition file_symmetry (f : list Byte.byte) : Z := unpack_i (take 4 (file_words f)).
Definition file_nx (f : list Byte.byte) : Z := unpack_i (take 4 (drop 12 (file_words f))).
Definition file_ny (f : list Byte.byte) : Z := unpack_i (take 4 (drop 16 (file_words f))).
Definition file_nz (f : list Byte.byte) : Z := unpack_i (take 4 (drop 20 (file_words f))).
Definition file_raw_mirror (f : list Byte.byte) : Z :=
  unpack_i (take 4 (drop 24 (file_words f))).

Definition header_length (f : list Byte.byte) : Z :=
  if file_mode f <=? -2 then 56 else 32.

(** The length a file must have for its header and the points its
    dimensions announce. *)
Definition implied_length (f : list Byte.byte) : Z :=
  if Z.of_nat (length f) <? 4 then 4
  else if Z.of_nat (length f) <? header_length f then header_length f
  else header_length f + 8 * (file_nx f * file_ny f * file_nz f).

Definition short_file (f : list Byte.byte) : Prop :=
  Z.of_nat (length f) < implied_length f.

Definition valid_mode (m : Z) : Prop := m = -1 \/ m = -2.

(** The message [load] raises: the cause, wrapped with the path. *)
Definition failed_reading (path : string) (cause : exn) : exn :=
  PAError ("Failed reading file " +:+ dquote +:+ path +:+ dquote +:+ ": " +:+
           str_exn cause).

(** The arguments with which the class validates a configuration before it
    installs it ([size], [symmetry], [mirror_y], ...). *)
Definition config_kw (s : PA) : kwargs :=
  with_size (Some (_nx s)) (Some (_ny s)) (Some (_nz s))
    (with_symmetry (_symmetry s)
      (with_mirrors (Some (_mirror_x s)) (Some (_mirror_y s)) (Some (_mirror_z s))
                    no_kw)).

(** One axis of [inside_real], as the specification words it. *)
Definition axis_ok (mirrored : bool) (dim : Z) (c : Q) : Prop :=
  (0 <= c /\ c <= inject_Z (dim - 1))%Q \/
  (mirrored = true /\ (Qabs c <= inject_Z (dim - 1))%Q).

(** One axis of [inside_real], as the code tests it. *)
Definition axis_test (mirrored : bool) (dim : Z) (c : Q) : bool :=
  if Qgeb c 0 then Qleb c (inject_Z (dim - 1))
  else if mirrored then Qleb (- c) (inject_Z (dim - 1))
  else false.

(** The symmetry is one the checker accepts, with its constraint on [nz]. *)
Definition symmetry_ok (s : PA) : Prop :=
  _symmetry s = "planar" \/ (_symmetry s = "cylindrical" /\ _nz s = 1).

(** ** Arrays and files to evaluate on *)

(** A 3 x 3 planar array, zeroed. *)
Definition grid3 : PA :=
  mkPA (-1) "planar" 100000 3 3 1 false false false "electrostatic" 100 1 1 1
       false None None (list_times 0%Q 9).

(** A 5 x 3 planar array, zeroed. *)
Definition grid5x3 : PA :=
  mkPA (-1) "planar" 100000 5 3 1 false false false "electrostatic" 100 1 1 1
       false None None (list_times 0%Q 15).

(** The same array with a magnetic field type. *)
Definition magnetic5x3 : PA :=
  mkPA (-1) "planar" 100000 5 3 1 false false false "magnetic" 100 1 1 1
       false None None (list_times 0%Q 15).

(** A 3 x 3 array whose centre is an electrode at 5 V. *)
Definition plate3 : PA :=
  mkPA (-1) "planar" 100000 3 3 1 false true false "electrostatic" 100 1 1 1
       false None None [0; 1; 2; 3; 200005; 5; 6; 7; 8]%Q.

(** The same array with the centre electrode at 150000 V, above
    [max_voltage]. *)
Definition hot_plate3 : PA :=
  mkPA (-1) "planar" 100000 3 3 1 false true false "electrostatic" 100 1 1 1
       false None None [0; 1; 2; 3; 350000; 5; 6; 7; 8]%Q.

(** A valid magnetic array whose [ng] is beyond what the header encodes. *)
Definition wide_ng : PA :=
  mkPA (-1) "planar" 100000 3 3 1 false true false "magnetic" 90001 1 1 1
       false None None [0; 1; 2; 3; 200005; 5; 6; 7; 8]%Q.

(** A cylindrical array, which has one plane. *)
Definition tube3 : PA :=
  mkPA (-1) "cylindrical" 100000 3 3 1 false true false "electrostatic" 100 1 1 1
       false None None [0; 1; 2; 3; 200005; 5; 6; 7; 8]%Q.

Definition word (v : Z) : list Byte.byte := le_bytes4 (v mod 2 ^ 32).

(** A header in mode -1 with eight zero bytes for [max_voltage]. *)
Definition header_bytes (symmetry nx ny nz raw_mirror : Z) : list Byte.byte :=
  word (-1) ++ word symmetry ++ replicate 8 Byte.x00 ++
  word nx ++ word ny ++ word nz ++ word raw_mirror.

(** Eight zero bytes for each of [n] points. *)
Definition blank_points (n : nat) : list Byte.byte := replicate (8 * n) Byte.x00.

(** The header of a 3 x 3 array followed by eight of its nine points. *)
Definition truncated_file : list Byte.byte :=
  header_bytes 1 3 3 1 0 ++ blank_points 8.

(** A complete file whose header says [nx = 0]. *)
Definition zero_nx_file : list Byte.byte := header_bytes 1 0 3 1 0.

(** Complete files whose headers the checker would refuse: [nx = 1];
    cylindrical symmetry with [nz = 2]; z mirroring with [nz = 1]. *)
Definition narrow_file : list Byte.byte := header_bytes 1 1 3 1 0 ++ blank_points 3.
Definition thick_tube_file : list Byte.byte := header_bytes 0 3 3 2 2 ++ blank_points 18.
Definition flat_mirror_z_file : list Byte.byte :=
  header_bytes 1 3 3 1 4 ++ blank_points 9.

Section FloatNotions.
Context `{PyFloat}.

(** [math.sqrt] is exact on the square of an integer. *)
Definition sqrt_exact_on_squares : Prop :=
  forall (n : Z) (a : Q), 0 <= n -> (a == inject_Z (n * n))%Q -> (sqrt a == inject_Z n)%Q.

(** A float that survives [struct.pack] followed by [struct.unpack]. *)
Definition exact (q : Q) : Prop := (unpack_d (pack_d q) == q)%Q.

(** Every float of the instance that [save] writes survives the codec. *)
Definition exact_floats (s : PA) : Prop :=
  exact (_max_voltage s) /\ exact (_dx_mm s) /\ exact (_dy_mm s) /\ exact (_dz_mm s) /\
  Forall exact (_points s).

(** The instance the checker accepts, attribute by attribute. *)
Definition all_kw (s : PA) : kwargs :=
  mkKw (Some (_mode s)) (Some (_field_type s)) (Some (_symmetry s)) None
       (Some (_mirror_x s)) (Some (_mirror_y s)) (Some (_mirror_z s))
       (Some (_nx s)) (Some (_ny s)) (Some (_nz s))
       (Some (_max_voltage s)) (Some (_ng s))
       (Some (_dx_mm s)) (Some (_dy_mm s)) (Some (_dz_mm s)).

Definition valid (s : PA) : Prop :=
  (check (all_kw s) s).2 = Ok true /\ store_ok s.

(** The header that [load] installs from a file whose header is complete. *)
Definition decoded (path : string) (f : list Byte.byte) (self : PA) : PA :=
  let spacing := take 24 (drop 28 (drop 4 f)) in
  install_header path (file_mode f) (file_symmetry f)
    (unpack_d (take 8 (drop 4 (file_words f))))
    (file_nx f) (file_ny f) (file_nz f) (file_raw_mirror f)
    (if file_mode f <=? -2 then unpack_d (take 8 spacing) else 1%Q)
    (if file_mode f <=? -2 then unpack_d (take 8 (drop 8 spacing)) else 1%Q)
    (if file_mode f <=? -2 then unpack_d (take 8 (drop 16 spacing)) else 1%Q)
    self.

(** The bytes of a header, as [save] lays them out. *)
Definition header_of (s : PA) : list Byte.byte :=
  le_bytes4 (reported_mode s mod 2 ^ 32) ++
  le_bytes4 ((if String.eqb (_symmetry s) "planar" then 1 else 0) mod 2 ^ 32) ++
  pack_d (_max_voltage s) ++
  le_bytes4 (_nx s mod 2 ^ 32) ++ le_bytes4 (_ny s mod 2 ^ 32) ++
  le_bytes4 (_nz s mod 2 ^ 32) ++ le_bytes4 (save_raw_mirror s mod 2 ^ 32) ++
  (if reported_mode s <=? -2
   then pack_d (_dx_mm s) ++ pack_d (_dy_mm s) ++ pack_d (_dz_mm s) else []).

(** Two instances agree on what a file stores of an instance.  The mode is
    the reported one; [ng] and [fast_adjustable] are stated apart. *)
Definition same_array (a b : PA) : Prop :=
  reported_mode a = reported_mode b /\
  _symmetry a = _symmetry b /\
  (_max_voltage a == _max_voltage b)%Q /\
  _nx a = _nx b /\ _ny a = _ny b /\ _nz a = _nz b /\
  _mirror_x a = _mirror_x b /\ _mirror_y a = _mirror_y b /\
  _mirror_z a = _mirror_z b /\
  _field_type a = _field_type b /\
  (_dx_mm a == _dx_mm b)%Q /\ (_dy_mm a == _dy_mm b)%Q /\ (_dz_mm a == _dz_mm b)%Q /\
  Forall2 Qeq (_points a) (_points b).

End FloatNotions.

(** * The rest of the class, and the service functions that build on it *)

(** ** Attribute updates *)

Definition set_mode (v : Z) (s : PA) : PA :=
  mkPA v (_symmetry s) (_max_voltage s) (_nx s) (_ny s) (_nz s)
       (_mirror_x s) (_mirror_y s) (_mirror_z s) (_field_type s) (_ng s)
       (_dx_mm s) (_dy_mm s) (_dz_mm s) (_fast_adjustable s) (_error s)
       (_pasharp s) (_points s).

Definition set_symmetry (v : string) (s : PA) : PA :=
  mkPA (_mode s) v (_max_voltage s) (_nx s) (_ny s) (_nz s)
       (_mirror_x s) (_mirror_y s) (_mirror_z s) (_field_type s) (_ng s)
       (_dx_mm s) (_dy_mm s) (_dz_mm s) (_fast_adjustable s) (_error s)
       (_pasharp s) (_points s).

Definition set_mirror_x (v : bool) (s : PA) : PA :=
  mkPA (_mode s) (_symmetry s) (_max_voltage s) (_nx s) (_ny s) (_nz s)
       v (_mirror_y s) (_mirror_z s) (_field_type s) (_ng s)
       (_dx_mm s) (_dy_mm s) (_dz_mm s) (_fast_adjustable s) (_error s)
       (_pasharp s) (_points s).

Definition set_mirror_y (v : bool) (s : PA) : PA :=
  mkPA (_mode s) (_symmetry s) (_max_voltage s) (_nx s) (_ny s) (_nz s)
       (_mirror_x s) v (_mirror_z s) (_field_type s) (_ng s)
       (_dx_mm s) (_dy_mm s) (_dz_mm s) (_fast_adjustable s) (_error s)
       (_pasharp s) (_points s).

Definition set_mirror_z (v : bool) (s : PA) : PA :=
  mkPA (_mode s) (_symmetry s) (_max_voltage s) (_nx s) (_ny s) (_nz s)
       (_mirror_x s) (_mirror_y s) v (_field_type s) (_ng s)
       (_dx_mm s) (_dy_mm s) (_dz_mm s) (_fast_adjustable s) (_error s)
       (_pasharp s) (_points s).

Definition set_field_type (v : string) (s : PA) : PA :=
  mkPA (_mode s) (_symmetry s) (_max_voltage s) (_nx s) (_ny s) (_nz s)
       (_mirror_x s) (_mirror_y s) (_mirror_z s) v (_ng s)
       (_dx_mm s) (_dy_mm s) (_dz_mm s) (_fast_adjustable s) (_error s)
       (_pasharp s) (_points s).

Definition set_ng (v : Z) (s : PA) : PA :=
  mkPA (_mode s) (_symmetry s) (_max_voltage s) (_nx s) (_ny s) (_nz s)
       (_mirror_x s) (_mirror_y s) (_mirror_z s) (_field_type s) v
       (_dx_mm s) (_dy_mm s) (_dz_mm s) (_fast_adjustable s) (_error s)
       (_pasharp s) (_points s).

Definition set_dx_mm (v : Q) (s : PA) : PA :=
  mkPA (_mode s) (_symmetry s) (_max_voltage s) (_nx s) (_ny s) (_nz s)
       (_mirror_x s) (_mirror_y s) (_mirror_z s) (_field_type s) (_ng s)
       v (_dy_mm s) (_dz_mm s) (_fast_adjustable s) (_error s)
       (_pasharp s) (_points s).

Definition set_dy_mm (v : Q) (s : PA) : PA :=
  mkPA (_mode s) (_symmetry s) (_max_voltage s) (_nx s) (_ny s) (_nz s)
       (_mirror_x s) (_mirror_y s) (_mirror_z s) (_field_type s) (_ng s)
       (_dx_mm s) v (_dz_mm s) (_fast_adjustable s) (_error s)
       (_pasharp s) (_points s).

Definition set_dz_mm (v : Q) (s : PA) : PA :=
  mkPA (_mode s) (_symmetry s) (_max_voltage s) (_nx s) (_ny s) (_nz s)
       (_mirror_x s) (_mirror_y s) (_mirror_z s) (_field_type s) (_ng s)
       (_dx_mm s) (_dy_mm s) v (_fast_adjustable s) (_error s)
       (_pasharp s) (_points s).

Definition set_fast_adjustable (v : bool) (s : PA) : PA :=
  mkPA (_mode s) (_symmetry s) (_max_voltage s) (_nx s) (_ny s) (_nz s)
       (_mirror_x s) (_mirror_y s) (_mirror_z s) (_field_type s) (_ng s)
       (_dx_mm s) (_dy_mm s) (_dz_mm s) v (_error s)
       (_pasharp s) (_points s).

(** [s.endswith(suffix)]: some tail of [s] is [suffix]. *)
Fixpoint endswith (s suffix : string) : bool :=
  String.eqb s suffix ||
  match s with
  | EmptyString => false
  | String _ rest => endswith rest suffix
  end.

Section Accessors.
Context `{PyFloat}.

(** *** Group: Getters and Setters (continued) *)

(** The arguments of the [check] call that the setters of the dimensions,
    of the symmetry and of the y and z mirror flags make: the attributes of
    the instance, with the new value in its place. *)
Definition config_check (nx ny nz : Z) (symmetry : string)
    (mirror_x mirror_y mirror_z : bool) : M bool :=
  check (with_size (Some nx) (Some ny) (Some nz)
           (with_symmetry symmetry
              (with_mirrors (Some mirror_x) (Some mirror_y) (Some mirror_z) no_kw))).

Definition fast_adjustable : M bool := s <- get ;; ret (_fast_adjustable s).

(** [fast_adjustable(v)] stores [not not v]. *)
Definition fast_adjustable_set (fast_adjustable : bool) : M unit :=
  modify (set_fast_adjustable fast_adjustable).

Definition field_type_set (field_type : string) : M unit :=
  ok <- check_field_type field_type ;;
  assert_ ok error ;;;
  modify (set_field_type field_type).

Definition mode_set (mode : Z) : M unit :=
  ok <- check_mode mode ;;
  assert_ ok error ;;;
  modify (set_mode mode).

(** [mirror()]: the flags as a string. *)
Definition mirror : M string :=
  s <- get ;;
  let str := EmptyString in
  let str := if _mirror_x s then str +:+ "x" else str in
  let str := if _mirror_y s then str +:+ "y" else str in
  let str := if _mirror_z s then str +:+ "z" else str in
  ret str.

(** [mirror(mirror)]: the call of [check_mirror] is commented out in the
    source; the string is matched here. *)
Definition mirror_set (mirror : string) : M unit :=
  match match_xyz mirror with
  | None => raise (AssertionError (Some ("Mirror string (" +:+ mirror +:+ ") is invalid.")))
  | Some g =>
      modify (set_mirror_x g.1.1) ;;;
      modify (set_mirror_y g.1.2) ;;;
      modify (set_mirror_z g.2)
  end.

Definition mirror_x_set (mirror_x : bool) : M unit := modify (set_mirror_x mirror_x).

Definition mirror_y_set (mirror_y : bool) : M unit :=
  s <- get ;;
  ok <- config_check (_nx s) (_ny s) (_nz s) (_symmetry s)
                     (_mirror_x s) mirror_y (_mirror_z s) ;;
  assert_ ok error ;;;
  modify (set_mirror_y mirror_y).

Definition mirror_z_set (mirror_z : bool) : M unit :=
  s <- get ;;
  ok <- config_check (_nx s) (_ny s) (_nz s) (_symmetry s)
                     (_mirror_x s) (_mirror_y s) mirror_z ;;
  assert_ ok error ;;;
  modify (set_mirror_z mirror_z).

Definition ng_set (ng : Z) : M unit :=
  ok <- check_ng ng ;;
  assert_ ok error ;;;
  modify (set_ng ng).

Definition num_voxels : M Z :=
  s <- get ;;
  let num := (_nx s - 1) * (_ny s - 1) in
  ret (if negb (_nz s =? 1) then num * (_nz s - 1) else num).

Definition nx_set (nx : Z) : M unit :=
  s <- get ;;
  ok <- config_check nx (_ny s) (_nz s) (_symmetry s)
                     (_mirror_x s) (_mirror_y s) (_mirror_z s) ;;
  assert_ ok error ;;;
  s <- get ;;
  size nx (_ny s) (Some (_nz s)).

Definition ny_set (ny : Z) : M unit :=
  s <- get ;;
  ok <- config_check (_nx s) ny (_nz s) (_symmetry s)
                     (_mirror_x s) (_mirror_y s) (_mirror_z s) ;;
  assert_ ok error ;;;
  s <- get ;;
  size (_nx s) ny (Some (_nz s)).

Definition nz_set (nz : Z) : M unit :=
  s <- get ;;
  ok <- config_check (_nx s) (_ny s) nz (_symmetry s)
                     (_mirror_x s) (_mirror_y s) (_mirror_z s) ;;
  assert_ ok error ;;;
  s <- get ;;
  size (_nx s) (_ny s) (Some nz).

Definition symmetry : M string := s <- get ;; ret (_symmetry s).

Definition symmetry_set (symmetry : string) : M unit :=
  s <- get ;;
  ok <- config_check (_nx s) (_ny s) (_nz s) symmetry
                     (_mirror_x s) (_mirror_y s) (_mirror_z s) ;;
  assert_ ok error ;;;
  modify (set_symmetry symmetry).

Definition dx_mm : M Q := s <- get ;; ret (_dx_mm s).
Definition dy_mm : M Q := s <- get ;; ret (_dy_mm s).
Definition dz_mm : M Q := s <- get ;; ret (_dz_mm s).

Definition dx_mm_set (value : Q) : M unit :=
  ok <- check_dx_mm value ;;
  assert_ ok error ;;;
  modify (set_dx_mm value).

Definition dy_mm_set (value : Q) : M unit :=
  ok <- check_dy_mm value ;;
  assert_ ok error ;;;
  modify (set_dy_mm value).

Definition dz_mm_set (value : Q) : M unit :=
  ok <- check_dz_mm value ;;
  assert_ ok error ;;;
  modify (set_dz_mm value).

(** *** [set]: several attributes at once *)

(** [assert v == None or self.check_v(v), self.error()] *)
Definition assert_checked {A} (o : option A) (chk : A -> M bool) : M unit :=
  match o with
  | None => ret tt
  | Some v => ok <- chk v ;; assert_ ok error
  end.

(** [assert v == None, msg] *)
Definition assert_none {A} (o : option A) (msg : string) : M unit :=
  match o with
  | None => ret tt
  | Some _ => raise (AssertionError (Some msg))
  end.

Definition given {A} (o : option A) : bool :=
  match o with Some _ => true | None => false end.

(** [if v != None: self._v = v] *)
Definition assign {A} (o : option A) (update : A -> PA -> PA) : M unit :=
  match o with
  | Some v => modify (update v)
  | None => ret tt
  end.

(** The string that [set] builds from the flags to hand to [check_mirror]. *)
Definition mirror_str (mirror_x mirror_y mirror_z : bool) : string :=
  let str := EmptyString in
  let str := if mirror_x then str +:+ "x" else str in
  let str := if mirror_y then str +:+ "y" else str in
  let str := if mirror_z then str +:+ "z" else str in
  str.

(** [set(...)], block by block.  The argument [enable_points] is taken into
    account where the source reads it; the attribute it is stored in is
    never read, and the instance does not carry it. *)

(** [# aliases]: the flags that [mirror] stands for. *)
Definition set_aliases (k : kwargs) : M (option bool * option bool * option bool) :=
  match kw_mirror k with
  | Some mirror =>
      assert_none (kw_mirror_x k)
        "mirror and mirror_x named parameters cannot coexist." ;;;
      assert_none (kw_mirror_y k)
        "mirror and mirror_y named parameters cannot coexist." ;;;
      assert_none (kw_mirror_z k)
        "mirror and mirror_z named parameters cannot coexist." ;;;
      g <- _parse_mirror mirror ;;
      ret (Some g.1.1, Some g.1.2, Some g.2)
  | None => ret (kw_mirror_x k, kw_mirror_y k, kw_mirror_z k)
  end.

(** [# checks]: the attributes that are checked one by one. *)
Definition set_checks (k : kwargs) : M unit :=
  assert_checked (kw_mode k) check_mode ;;;
  assert_checked (kw_max_voltage k) check_max_voltage ;;;
  assert_checked (kw_field_type k) check_field_type ;;;
  assert_checked (kw_ng k) check_ng ;;;
  assert_checked (kw_symmetry k) check_symmetry ;;;
  assert_checked (kw_dx_mm k) check_dx_mm ;;;
  assert_checked (kw_dy_mm k) check_dy_mm ;;;
  assert_checked (kw_dz_mm k) check_dz_mm.

(** The flags completed from the instance, once one of them is given. *)
Definition set_mirror_flags (mirror_x mirror_y mirror_z : option bool)
  : M (option bool * option bool * option bool) :=
  if given mirror_x || given mirror_y || given mirror_z then
    s <- get ;;
    let mirror_x := default (_mirror_x s) mirror_x in
    let mirror_y := default (_mirror_y s) mirror_y in
    let mirror_z := default (_mirror_z s) mirror_z in
    ok <- check_mirror (mirror_str mirror_x mirror_y mirror_z) ;;
    assert_ ok error ;;;
    ret (Some mirror_x, Some mirror_y, Some mirror_z)
  else ret (mirror_x, mirror_y, mirror_z).

(** The dimensions completed from the instance, once one of them is
    given. *)
Definition set_dimensions (k : kwargs) : M (option Z * option Z * option Z) :=
  if given (kw_nx k) || given (kw_ny k) || given (kw_nz k) then
    s <- get ;;
    let nx := default (_nx s) (kw_nx k) in
    let ny := default (_ny s) (kw_ny k) in
    let nz := default (_nz s) (kw_nz k) in
    ok <- check_size (Some nx) (Some ny) (Some nz) ;;
    assert_ ok error ;;;
    ret (Some nx, Some ny, Some nz)
  else ret (kw_nx k, kw_ny k, kw_nz k).

(** [# set]: the assignments, and the resize when a dimension changes. *)
Definition set_assign (k : kwargs) (fast_adjustable : option bool)
    (nx ny nz : Z) (symmetry : string) (mirror_x mirror_y mirror_z : bool) : M unit :=
  assign (kw_mode k) set_mode ;;;
  assign (kw_max_voltage k) set_max_voltage ;;;
  assign (kw_field_type k) set_field_type ;;;
  assign (kw_ng k) set_ng ;;;
  assign fast_adjustable set_fast_adjustable ;;;
  modify (set_symmetry symmetry) ;;;
  modify (set_mirror_x mirror_x) ;;;
  modify (set_mirror_y mirror_y) ;;;
  modify (set_mirror_z mirror_z) ;;;
  assign (kw_dx_mm k) set_dx_mm ;;;
  assign (kw_dy_mm k) set_dy_mm ;;;
  assign (kw_dz_mm k) set_dz_mm ;;;
  s <- get ;;
  when_ (negb (nx =? _nx s) || negb (ny =? _ny s) || negb (nz =? _nz s))
    (size nx ny (Some nz)).

(** [# checks] and [# set], with the mirror flags as the aliases and the
    defaults leave them. *)
Definition set_checked (k : kwargs) (fast_adjustable : option bool)
    (mirror_x mirror_y mirror_z : option bool) : M unit :=
  set_checks k ;;;
  g <- set_mirror_flags mirror_x mirror_y mirror_z ;;
  d <- set_dimensions k ;;
  s <- get ;;
  let symmetry := default (_symmetry s) (kw_symmetry k) in
  let mirror_x := default (_mirror_x s) g.1.1 in
  let mirror_y := default (_mirror_y s) g.1.2 in
  let mirror_z := default (_mirror_z s) g.2 in
  let nx := default (_nx s) d.1.1 in
  let ny := default (_ny s) d.1.2 in
  let nz := default (_nz s) d.2 in
  ok <- config_check nx ny nz symmetry mirror_x mirror_y mirror_z ;;
  assert_ ok error ;;;
  set_assign k fast_adjustable nx ny nz symmetry mirror_x mirror_y mirror_z.

(** [set(...)], named [set_] here ([set] is a tactic), on an instance whose
    attributes are assigned. *)
Definition set_ (k : kwargs) (fast_adjustable enable_points : option bool)
    (file : option string) (fs : gmap string (list Byte.byte)) : M unit :=
  match file with
  | Some path =>
      assert_ (negb (given (kw_mode k)) && negb (given (kw_symmetry k)) &&
               negb (given (kw_max_voltage k)) &&
               negb (given (kw_nx k)) && negb (given (kw_ny k)) &&
               negb (given (kw_nz k)) && negb (given (kw_mirror k)) &&
               negb (given (kw_mirror_x k)) && negb (given (kw_mirror_y k)) &&
               negb (given (kw_mirror_z k)) &&
               negb (given (kw_field_type k)) && negb (given (kw_ng k)) &&
               negb (given fast_adjustable) &&
               negb (given enable_points) && negb (given (kw_dx_mm k)) &&
               negb (given (kw_dy_mm k)) && negb (given (kw_dz_mm k)))
        (ret (Some "Named parameter 'file' cannot coexist with other named parameters.")) ;;;
      load path fs
  | None =>
      g <- set_aliases k ;;
      (* defaults *)
      let mirror_y :=
        if bool_decide (kw_symmetry k = Some "cylindrical") && negb (given g.1.2)
        then Some true else g.1.2 in
      set_checked k fast_adjustable g.1.1 mirror_y g.2
  end.

(** *** Group: Boundary and Coordinates (continued) *)

Definition voxel_inside (x y z : Z) : M bool :=
  s <- get ;;
  let yes := (0 <=? x) && (x + 1 <? _nx s) && (0 <=? y) && (y + 1 <? _ny s) in
  if yes then
    if _nz s =? 1 then ret (z =? 0)
    else ret ((0 <=? z) && (z + 1 <? _nz s))
  else ret yes.

(** *** Group: Point Setters/Getters (continued) *)

(** [a and b], with [b] a call. *)
Definition and_then (a : M bool) (b : M bool) : M bool :=
  v <- a ;; if v : bool then b else ret false.

Definition assert_voxel_inside (x y z : Z) : M unit :=
  ok <- voxel_inside x y z ;;
  assert_ ok (ret (Some ("voxel (" +:+ str_int x +:+ "," +:+ str_int y +:+ "," +:+
                         str_int z +:+ ") out of bounds."))).

(** [solid(x, y, z)]: every corner of the voxel is an electrode. *)
Definition solid (x y z : Z) : M bool :=
  assert_voxel_inside x y z ;;;
  s <- get ;;
  if _nz s =? 1 then
    and_then (electrode x y z)
      (and_then (electrode (x + 1) y z)
         (and_then (electrode x (y + 1) z)
            (electrode (x + 1) (y + 1) z)))
  else
    and_then (electrode x y z)
      (and_then (electrode (x + 1) y z)
         (and_then (electrode x (y + 1) z)
            (and_then (electrode (x + 1) (y + 1) z)
               (and_then (electrode x y (z + 1))
                  (and_then (electrode (x + 1) y (z + 1))
                     (and_then (electrode x (y + 1) (z + 1))
                        (electrode (x + 1) (y + 1) (z + 1)))))))).

(** [solid(x, y, z, is_electrode)]: the flag of every corner is set. *)
Definition solid_set (x y z : Z) (is_electrode : bool) : M unit :=
  assert_voxel_inside x y z ;;;
  s <- get ;;
  if _nz s =? 1 then
    electrode_set x y z is_electrode ;;;
    electrode_set (x + 1) y z is_electrode ;;;
    electrode_set x (y + 1) z is_electrode ;;;
    electrode_set (x + 1) (y + 1) z is_electrode
  else
    electrode_set x y z is_electrode ;;;
    electrode_set (x + 1) y z is_electrode ;;;
    electrode_set x (y + 1) z is_electrode ;;;
    electrode_set (x + 1) (y + 1) z is_electrode ;;;
    electrode_set x y (z + 1) is_electrode ;;;
    electrode_set (x + 1) y (z + 1) is_electrode ;;;
    electrode_set x (y + 1) (z + 1) is_electrode ;;;
    electrode_set (x + 1) (y + 1) (z + 1) is_electrode.

(** [a / b] on floats. *)
Definition div_float (a b : Q) : M Q :=
  if Qeq_bool b 0 then raise ZeroDivisionError else ret (a / b)%Q.

(** [c and v or 0], where [v] is a number: [v] when [c] holds and [v] is
    not zero. *)
Definition and_or_int (c : bool) (v : Z) : Z :=
  if c && negb (v =? 0) then v else 0.

(** [field_real(x, y, z)]: the centred difference of [potential_real] over
    one grid unit, shortened at the border. *)
Definition field_real (x y z : Q) : M (Q * Q * Q) :=
  ok <- inside_real x y z ;;
  assert_ ok (_fail_point str_float x y z) ;;;
  s <- get ;;
  if String.eqb (_symmetry s) "cylindrical" then
    let r := sqrt (y * y + z * z)%Q in
    let xm := (x - (1 # 2))%Q in
    mx <- mirror_x ;;
    let min_x := inject_Z (and_or_int mx (- (_nx s - 1))) in
    let xm := if Qltb xm min_x then min_x else xm in
    let xp := (x + (1 # 2))%Q in
    let xp := if Qgtb xp (inject_Z (_nx s - 1)) then inject_Z (_nx s - 1) else xp in
    let rm := (r - (1 # 2))%Q in
    let min_r := inject_Z (- (_ny s - 1)) in
    let rm := if Qltb rm min_r then min_r else rm in
    let rp := (r + (1 # 2))%Q in
    let rp := if Qgtb rp (inject_Z (_ny s - 1)) then inject_Z (_ny s - 1) else rp in
    V2 <- potential_real xp r 0 ;;
    V1 <- potential_real xm r 0 ;;
    V4 <- potential_real x rp 0 ;;
    V3 <- potential_real x rm 0 ;;
    Ex <- div_float (V1 - V2) (xp - xm) ;;
    Er <- div_float (V3 - V4) (rp - rm) ;;
    yr <- (if Qeq_bool r 0 then ret 1%Q else div_float y r) ;;
    let Ey := (Er * yr)%Q in
    zr <- (if Qneb r 0 then
             q <- div_float z r ;; ret (if Qeq_bool q 0 then 0%Q else q)
           else ret 0%Q) ;;
    let Ez := (Er * zr)%Q in
    if String.eqb (_field_type s) "magnetic" then
      ret (Ex * inject_Z (_ng s), Ey * inject_Z (_ng s), Ez * inject_Z (_ng s))%Q
    else ret (Ex, Ey, Ez)
  else
    let xm := (x - (1 # 2))%Q in
    mx <- mirror_x ;;
    let min_x := inject_Z (and_or_int mx (- (_nx s - 1))) in
    let xm := if Qltb xm min_x then min_x else xm in
    let xp := (x + (1 # 2))%Q in
    let xp := if Qgtb xp (inject_Z (_nx s - 1)) then inject_Z (_nx s - 1) else xp in
    let ym := (y - (1 # 2))%Q in
    my <- mirror_y ;;
    let min_y := inject_Z (and_or_int my (- (_ny s - 1))) in
    let ym := if Qltb ym min_y then min_y else ym in
    let yp := (y + (1 # 2))%Q in
    let yp := if Qgtb yp (inject_Z (_ny s - 1)) then inject_Z (_ny s - 1) else yp in
    let zm := (z - (1 # 2))%Q in
    mz <- mirror_z ;;
    let min_z := inject_Z (and_or_int mz (- (_nz s - 1))) in
    let zm := if Qltb zm min_z then min_z else zm in
    let zp := (z + (1 # 2))%Q in
    let zp := if Qgtb zp (inject_Z (_nz s - 1)) then inject_Z (_nz s - 1) else zp in
    V2 <- potential_real xp y z ;;
    V1 <- potential_real xm y z ;;
    V4 <- potential_real x yp z ;;
    V3 <- potential_real x ym z ;;
    v56 <- (if negb (_nz s =? 1) then
              V6 <- potential_real x y zp ;;
              V5 <- potential_real x y zm ;;
              ret (V5, V6)
            else ret (0%Q, 0%Q)) ;;
    Ex <- div_float (V1 - V2) (xp - xm) ;;
    Ey <- div_float (V3 - V4) (yp - ym) ;;
    Ez <- (if negb (_nz s =? 1) then
             q <- div_float (v56.1 - v56.2) (zp - zm) ;;
             ret (if Qeq_bool q 0 then 0%Q else q)
           else ret 0%Q) ;;
    if String.eqb (_field_type s) "magnetic" then
      ret (Ex * inject_Z (_ng s), Ey * inject_Z (_ng s), Ez * inject_Z (_ng s))%Q
    else ret (Ex, Ey, Ez).

(** [field(x, y, z)]: the getter, at a grid point. *)
Definition field (x y z : Z) : M (Q * Q * Q) :=
  assert_inside x y z ;;;
  field_real (inject_Z x) (inject_Z y) (inject_Z z).

End Accessors.

(** ** The service functions ([numerical/pa/pa_service.py]) *)

Definition _PA_RAW_EXTENSION : string := ".pa#".
Definition _PA_REFINED_EXTENSION : string := ".pa0".

Definition add_raw_extension (filename : string) : string :=
  if endswith filename _PA_RAW_EXTENSION then filename
  else filename +:+ _PA_RAW_EXTENSION.

Definition add_refined_extension (filename : string) : string :=
  if endswith filename _PA_REFINED_EXTENSION then filename
  else filename +:+ _PA_REFINED_EXTENSION.

(** ** The grid ([numerical/grid.py]) *)

(** [c in s], for a string [c] of one character. *)
Fixpoint contains (c : Ascii.ascii) (s : string) : bool :=
  match s with
  | EmptyString => false
  | String d rest => Ascii.eqb d c || contains c rest
  end.

Module MirrorDirection.

Record t : Type := mk { x : bool; y : bool; z : bool }.

Definition create_from_str (str_mirror : string) : t :=
  mk (contains "x"%char str_mirror)
     (contains "y"%char str_mirror)
     (contains "z"%char str_mirror).

End MirrorDirection.

(** ** Notions for the rest of the class *)

Definition verdict (m : M bool) : Prop :=
  forall s, match m s with
            | (s', Ok true) => s' = s
            | (s', Ok false) => exists msg, s' = set_error (Some msg) s
            | (s', Raise _) => s' = s
            end.

(** The configurations the specification calls valid, attribute by
    attribute. *)
Definition size_ok (nx ny nz : Z) : Prop :=
  3 <= nx <= 90000 /\ 3 <= ny <= 90000 /\ 1 <= nz <= 90000 /\
  nx * ny * nz <= 200000000.

Definition spacing_ok (d : Q) : Prop := (1 # 1000000 <= d)%Q /\ (d <= 900)%Q.

Definition symmetry_rules_ok (symmetry : string) (mirror_y mirror_z : bool) (nz : Z)
  : Prop :=
  (symmetry = "planar" \/ symmetry = "cylindrical") /\
  (symmetry = "cylindrical" -> mirror_y = true /\ nz = 1) /\
  (mirror_z = true -> nz <> 1).

Definition well_formed (s : PA) : Prop :=
  valid_mode (_mode s) /\
  (0 <= _max_voltage s)%Q /\
  (_field_type s = "electrostatic" \/ _field_type s = "magnetic") /\
  0 <= _ng s /\
  size_ok (_nx s) (_ny s) (_nz s) /\
  spacing_ok (_dx_mm s) /\ spacing_ok (_dy_mm s) /\ spacing_ok (_dz_mm s) /\
  symmetry_rules_ok (_symmetry s) (_mirror_y s) (_mirror_z s) (_nz s).

(** The tests of the checker, as booleans. *)
Definition mode_test (v : Z) : bool := negb (negb (v =? -1) && negb (v =? -2)).
Definition name_test (a b v : string) : bool := String.eqb v a || String.eqb v b.
Definition dim_test (lo v : Z) : bool := negb (v <? lo) && negb (v >? 90000).
Definition spacing_test (d : Q) : bool := negb (Qltb d (1 # 1000000)) && negb (Qgtb d 900).
Definition size_test (nx ny nz : Z) : bool :=
  dim_test 3 nx && dim_test 3 ny && dim_test 1 nz && negb (nx * ny * nz >? 200000000).
Definition rules_test (symmetry : string) (my mz : bool) (nz : Z) : bool :=
  negb (String.eqb symmetry "cylindrical" && negb my) &&
  negb (String.eqb symmetry "cylindrical" && negb (nz =? 1)) &&
  negb (mz && (nz =? 1)).


(** [check(mirror = v)] *)
Definition with_mirror (v : string) (k : kwargs) : kwargs :=
  mkKw (kw_mode k) (kw_field_type k) (kw_symmetry k) (Some v) (kw_mirror_x k)
       (kw_mirror_y k) (kw_mirror_z k) (kw_nx k) (kw_ny k) (kw_nz k)
       (kw_max_voltage k) (kw_ng k) (kw_dx_mm k) (kw_dy_mm k) (kw_dz_mm k).

(** A call of one of the setters that validate their argument, or of one of
    the two flags that need no validation. *)
Inductive setter : Type :=
| Mode (v : Z)
| FieldType (v : string)
| Ng (v : Z)
| DxMm (v : Q)
| DyMm (v : Q)
| DzMm (v : Q)
| MaxVoltage (v : Q)
| MirrorX (v : bool)
| MirrorY (v : bool)
| MirrorZ (v : bool)
| Nx (v : Z)
| Ny (v : Z)
| Nz (v : Z)
| Size (nx ny : Z) (nz : option Z)
| Symmetry (v : string)
| FastAdjustable (v : bool).

Definition call `{PyFloat} (c : setter) : M unit :=
  match c with
  | Mode v => mode_set v
  | FieldType v => field_type_set v
  | Ng v => ng_set v
  | DxMm v => dx_mm_set v
  | DyMm v => dy_mm_set v
  | DzMm v => dz_mm_set v
  | MaxVoltage v => max_voltage_set v
  | MirrorX v => mirror_x_set v
  | MirrorY v => mirror_y_set v
  | MirrorZ v => mirror_z_set v
  | Nx v => nx_set v
  | Ny v => ny_set v
  | Nz v => nz_set v
  | Size nx ny nz => size nx ny nz
  | Symmetry v => symmetry_set v
  | FastAdjustable v => fast_adjustable_set v
  end.

(** The test of the [check] call that the setters of the configuration
    make. *)
Definition config_test (nx ny nz : Z) (symmetry : string) (mirror_y mirror_z : bool)
  : bool :=
  name_test "planar" "cylindrical" symmetry && size_test nx ny nz &&
  rules_test symmetry mirror_y mirror_z nz.

(** Whether a call passes its checker, and what it leaves when it does. *)
Definition accepts (c : setter) (s : PA) : bool :=
  match c with
  | Mode v => mode_test v
  | FieldType v => name_test "electrostatic" "magnetic" v
  | Ng v => negb (v <? 0)
  | DxMm v | DyMm v | DzMm v => spacing_test v
  | MaxVoltage v => negb (Qltb v 0)
  | MirrorX _ | FastAdjustable _ => true
  | MirrorY v => config_test (_nx s) (_ny s) (_nz s) (_symmetry s) v (_mirror_z s)
  | MirrorZ v => config_test (_nx s) (_ny s) (_nz s) (_symmetry s) (_mirror_y s) v
  | Nx v => config_test v (_ny s) (_nz s) (_symmetry s) (_mirror_y s) (_mirror_z s)
  | Ny v => config_test (_nx s) v (_nz s) (_symmetry s) (_mirror_y s) (_mirror_z s)
  | Nz v => config_test (_nx s) (_ny s) v (_symmetry s) (_mirror_y s) (_mirror_z s)
  | Size nx ny nz =>
      config_test nx ny (default 1 nz) (_symmetry s) (_mirror_y s) (_mirror_z s)
  | Symmetry v => config_test (_nx s) (_ny s) (_nz s) v (_mirror_y s) (_mirror_z s)
  end.

Definition resized (nx ny nz : Z) (s : PA) : PA :=
  set_points (list_times 0%Q (nx * ny * nz)) (set_dims nx ny nz s).

Definition effect (c : setter) (s : PA) : PA :=
  match c with
  | Mode v => set_mode v s
  | FieldType v => set_field_type v s
  | Ng v => set_ng v s
  | DxMm v => set_dx_mm v s
  | DyMm v => set_dy_mm v s
  | DzMm v => set_dz_mm v s
  | MaxVoltage v =>
      set_points (rescaled (_max_voltage s) ((-2) * _max_voltage s + 2 * v) <$> _points s)
                 (set_max_voltage v s)
  | MirrorX v => set_mirror_x v s
  | MirrorY v => set_mirror_y v s
  | MirrorZ v => set_mirror_z v s
  | Nx v => resized v (_ny s) (_nz s) s
  | Ny v => resized (_nx s) v (_nz s) s
  | Nz v => resized (_nx s) (_ny s) v s
  | Size nx ny nz => resized nx ny (default 1 nz) s
  | Symmetry v => set_symmetry v s
  | FastAdjustable v => set_fast_adjustable v s
  end.

(** What a setter returns, by the test its checker makes: the update, or
    the assertion with the checker's message, which is all it has
    recorded. *)
Definition outcome (r : PA * result unit) (test : bool) (s s' : PA) : Prop :=
  if test then r = (s', Ok tt)
  else exists msg, r = (set_error (Some msg) s, Raise (AssertionError (Some msg))).

(** *** What [set] makes of its arguments *)

(** The mirror flags after the alias [mirror] has been resolved and the
    default of a cylindrical array applied; [None] when the alias comes
    with a flag, or does not parse. *)
Definition set_mirrors (k : kwargs)
  : option (option bool * option bool * option bool) :=
  let cylindrical_default (my : option bool) :=
    if bool_decide (kw_symmetry k = Some "cylindrical") && negb (given my)
    then Some true else my in
  match kw_mirror k with
  | Some mirror =>
      if given (kw_mirror_x k) || given (kw_mirror_y k) || given (kw_mirror_z k)
      then None
      else match match_xyz mirror with
           | Some g => Some (Some g.1.1, cylindrical_default (Some g.1.2), Some g.2)
           | None => None
           end
  | None => Some (kw_mirror_x k, cylindrical_default (kw_mirror_y k), kw_mirror_z k)
  end.

(** The configuration [set] settles on. *)
Record plan : Type := mkPlan {
  p_nx : Z; p_ny : Z; p_nz : Z;
  p_symmetry : string;
  p_mirror_x : bool; p_mirror_y : bool; p_mirror_z : bool
}.

(** The tests of the attributes that [set] checks one by one. *)
Definition set_checks_test (k : kwargs) : bool :=
  from_option mode_test true (kw_mode k) &&
  from_option (fun v => negb (Qltb v 0)) true (kw_max_voltage k) &&
  from_option (name_test "electrostatic" "magnetic") true (kw_field_type k) &&
  from_option (fun v => negb (v <? 0)) true (kw_ng k) &&
  from_option (name_test "planar" "cylindrical") true (kw_symmetry k) &&
  from_option spacing_test true (kw_dx_mm k) &&
  from_option spacing_test true (kw_dy_mm k) &&
  from_option spacing_test true (kw_dz_mm k).

Definition set_plan_with (k : kwargs) (s : PA) (mirror_x mirror_y mirror_z : option bool)
  : option plan :=
  let p := mkPlan (default (_nx s) (kw_nx k)) (default (_ny s) (kw_ny k))
                  (default (_nz s) (kw_nz k))
                  (default (_symmetry s) (kw_symmetry k))
                  (default (_mirror_x s) mirror_x) (default (_mirror_y s) mirror_y)
                  (default (_mirror_z s) mirror_z) in
  if set_checks_test k &&
     (if given (kw_nx k) || given (kw_ny k) || given (kw_nz k)
      then size_test (p_nx p) (p_ny p) (p_nz p) else true) &&
     config_test (p_nx p) (p_ny p) (p_nz p) (p_symmetry p) (p_mirror_y p) (p_mirror_z p)
  then Some p else None.

Definition set_plan (k : kwargs) (s : PA) : option plan :=
  match set_mirrors k with
  | None => None
  | Some g => set_plan_with k s g.1.1 g.1.2 g.2
  end.

(** How a call of [set] ends when it does not go through: an assertion,
    and at most the last-error slot changed, into the message raised. *)
Definition set_failed (r : PA * result unit) (s : PA) : Prop :=
  exists msg, r = (s, Raise (AssertionError (Some msg))) \/
              r = (set_error (Some msg) s, Raise (AssertionError (Some msg))).

Definition update {A} (o : option A) (f : A -> PA -> PA) (s : PA) : PA :=
  match o with Some v => f v s | None => s end.

(** The instance [set] leaves when it goes through. *)
Definition set_effect (k : kwargs) (fast_adjustable : option bool) (p : plan) (s : PA)
  : PA :=
  let s1 :=
    update (kw_dz_mm k) set_dz_mm
      (update (kw_dy_mm k) set_dy_mm
         (update (kw_dx_mm k) set_dx_mm
            (set_mirror_z (p_mirror_z p)
               (set_mirror_y (p_mirror_y p)
                  (set_mirror_x (p_mirror_x p)
                     (set_symmetry (p_symmetry p)
                        (update fast_adjustable set_fast_adjustable
                           (update (kw_ng k) set_ng
                              (update (kw_field_type k) set_field_type
                                 (update (kw_max_voltage k) set_max_voltage
                                    (update (kw_mode k) set_mode s))))))))))) in
  if negb (p_nx p =? _nx s) || negb (p_ny p =? _ny s) || negb (p_nz p =? _nz s)
  then resized (p_nx p) (p_ny p) (p_nz p) s1 else s1.

(** [check(max_voltage = v)] and the like, for the statements below. *)
Definition with_max_voltage (v : Q) (k : kwargs) : kwargs :=
  mkKw (kw_mode k) (kw_field_type k) (kw_symmetry k) (kw_mirror k) (kw_mirror_x k)
       (kw_mirror_y k) (kw_mirror_z k) (kw_nx k) (kw_ny k) (kw_nz k)
       (Some v) (kw_ng k) (kw_dx_mm k) (kw_dy_mm k) (kw_dz_mm k).

(** The exception of an access out of bounds. *)
Definition out_of_bounds (s : PA) (x y z : Z) : exn :=
  AssertionError
    (Some ("point (" +:+ str_int x +:+ "," +:+ str_int y +:+ "," +:+ str_int z +:+
           ") out of bounds (" +:+
           str_int (_nx s) +:+ "," +:+ str_int (_ny s) +:+ "," +:+
           str_int (_nz s) +:+ ").")).

(** What writing the potential [p] does first: a potential above the
    maximum raises the maximum to twice the potential. *)
Definition raised (p : Q) (s : PA) : PA :=
  if Qgtb p (_max_voltage s) then
    set_points
      (rescaled (_max_voltage s) ((-2) * _max_voltage s + 2 * (p * 2)) <$> _points s)
      (set_max_voltage (p * 2) s)
  else s.

(** The instance after [p] is written at position [pos] with the flag [e]. *)
Definition wrote (pos : Z) (e : bool) (p : Q) (s : PA) : PA :=
  set_points
    (<[Z.to_nat pos := if e then (p + 2 * _max_voltage (raised p s))%Q else p]>
       (_points (raised p s)))
    (raised p s).

(** The refined array of [plate3], paired with it, and the same array
    paired with a raw array of another size. *)
Definition paired_plate3 : PA :=
  mkPA (-1) "planar" 100000 3 3 1 false true false "electrostatic" 100 1 1 1
       false None (Some plate3) [0; 1; 2; 3; 200005; 5; 6; 7; 8]%Q.

Definition mispaired_plate3 : PA :=
  mkPA (-1) "planar" 100000 3 3 1 false true false "electrostatic" 100 1 1 1
       false None (Some grid5x3) [0; 1; 2; 3; 200005; 5; 6; 7; 8]%Q.

Section Readings.
Context `{PyFloat}.

(** The potential that [potential] returns at a point, and 0 where it
    raises. *)
Definition reading (s : PA) (x y z : Z) : Q :=
  match (potential x y z s).2 with
  | Ok v => v
  | Raise _ => 0%Q
  end.

(** The blend of the four potentials around a point of a plane. *)
Definition blend (s : PA) (xi yi : Z) (wx wy : Q) : Q :=
  ((1 - wx) * (1 - wy) * reading s xi yi 0 +
   wx * (1 - wy) * reading s (xi + 1) yi 0 +
   (1 - wx) * wy * reading s xi (yi + 1) 0 +
   wx * wy * reading s (xi + 1) (yi + 1) 0)%Q.

End Readings.

(** The grid points at the corners of the voxel [(x, y, z)]: four on an
    array with one plane, eight otherwise. *)
Definition corners (s : PA) (x y z : Z) : list (Z * Z * Z) :=
  if _nz s =? 1 then
    [(x, y, z); (x + 1, y, z); (x, y + 1, z); (x + 1, y + 1, z)]
  else
    [(x, y, z); (x + 1, y, z); (x, y + 1, z); (x + 1, y + 1, z);
     (x, y, z + 1); (x + 1, y, z + 1); (x, y + 1, z + 1); (x + 1, y + 1, z + 1)].

(** The exception of a voxel out of bounds. *)
Definition voxel_out_of_bounds (x y z : Z) : exn :=
  AssertionError
    (Some ("voxel (" +:+ str_int x +:+ "," +:+ str_int y +:+ "," +:+ str_int z +:+
           ") out of bounds.")).

(** The voxels of an array: one plane of them on an array with one plane
    of points. *)
Definition voxels (s : PA) : list (Z * Z * Z) :=
  list_prod (list_prod (seqZ 0 (_nx s - 1)) (seqZ 0 (_ny s - 1)))
            (seqZ 0 (if _nz s =? 1 then 1 else _nz s - 1)).

(** * Properties *)

(** ** Reasoning about computations *)

Lemma set_error_same s : set_error (_error s) s = s.
Proof. by destruct s. Qed.

Lemma set_error_twice e e' s : set_error e (set_error e' s) = set_error e s.
Proof. by destruct s. Qed.

Lemma frame_ret {A} (a : A) : frame (ret a).
Proof. intros s. exists (_error s). by rewrite set_error_same. Qed.

Lemma frame_raise {A} e : frame (@raise A e).
Proof. intros s. exists (_error s). by rewrite set_error_same. Qed.

Lemma frame_get : frame get.
Proof. intros s. exists (_error s). by rewrite set_error_same. Qed.

Lemma frame_bind {A B} (m : M A) (k : A -> M B) :
  frame m -> (forall a, frame (k a)) -> frame (bind m k).
Proof.
  intros Hm Hk s. unfold bind. destruct (Hm s) as [e He].
  destruct (m s) as [s' [a|x]]; simpl in *; subst.
  - destruct (Hk a (set_error e s)) as [e' He']. exists e'.
    by rewrite He', set_error_twice.
  - by exists e.
Qed.

Lemma frame_fail_check msg : frame (fail_check msg).
Proof. intros s. by exists (Some msg). Qed.

Lemma frame_if {A} (c : bool) (m1 m2 : M A) :
  frame m1 -> frame m2 -> frame (if c then m1 else m2).
Proof. by destruct c. Qed.

Lemma frame_number {A} (o : option A) : frame (number o).
Proof. destruct o; [apply frame_ret | apply frame_raise]. Qed.

Create HintDb frame.
#[local] Hint Resolve @frame_ret @frame_raise frame_get @frame_bind frame_fail_check
  @frame_if @frame_number : frame.

Ltac frame_tac :=
  repeat first
    [ apply frame_ret | apply frame_raise | apply frame_get | apply frame_fail_check
    | apply frame_number
    | apply frame_bind; [| intros ?]
    | apply frame_if
    | match goal with
      | |- frame (match ?o with _ => _ end) => destruct o
      | |- frame (let '(_, _) := ?p in _) => destruct p
      end ].

Section Frames.
Context `{PyFloat}.

Lemma frame_check_mode v : frame (check_mode v).
Proof. unfold check_mode. frame_tac. Qed.
Lemma frame_check_symmetry v : frame (check_symmetry v).
Proof. unfold check_symmetry. frame_tac. Qed.
Lemma frame_check_max_voltage v : frame (check_max_voltage v).
Proof. unfold check_max_voltage. frame_tac. Qed.
Lemma frame_check_field_type v : frame (check_field_type v).
Proof. unfold check_field_type. frame_tac. Qed.
Lemma frame_check_ng v : frame (check_ng v).
Proof. unfold check_ng. frame_tac. Qed.
Lemma frame_check_nx v : frame (check_nx v).
Proof. unfold check_nx. frame_tac. Qed.
Lemma frame_check_ny v : frame (check_ny v).
Proof. unfold check_ny. frame_tac. Qed.
Lemma frame_check_nz v : frame (check_nz v).
Proof. unfold check_nz. frame_tac. Qed.
Lemma frame_check_dx_mm v : frame (check_dx_mm v).
Proof. unfold check_dx_mm. frame_tac. Qed.
Lemma frame_check_dy_mm v : frame (check_dy_mm v).
Proof. unfold check_dy_mm. frame_tac. Qed.
Lemma frame_check_dz_mm v : frame (check_dz_mm v).
Proof. unfold check_dz_mm. frame_tac. Qed.

Lemma frame_check_size a b c : frame (check_size a b c).
Proof.
  unfold check_size.
  repeat first [ apply frame_check_nx | apply frame_check_ny | apply frame_check_nz
               | progress frame_tac ].
Qed.

Lemma frame_rejects {A} (o : option A) (chk : A -> M bool) :
  (forall v, frame (chk v)) -> frame (rejects o chk).
Proof. intros Hc. unfold rejects. destruct o; frame_tac. apply Hc. Qed.

Lemma frame_parse_mirror m : frame (_parse_mirror m).
Proof. unfold _parse_mirror. frame_tac. Qed.

Lemma frame_check k : frame (check k).
Proof.
  unfold check, check_symmetry_rules.
  repeat first
    [ apply frame_rejects; intros ?
    | apply frame_check_mode | apply frame_check_symmetry
    | apply frame_check_max_voltage | apply frame_check_field_type
    | apply frame_check_ng | apply frame_check_nx | apply frame_check_ny
    | apply frame_check_nz | apply frame_check_size | apply frame_check_dx_mm
    | apply frame_check_dy_mm | apply frame_check_dz_mm | apply frame_parse_mirror
    | progress frame_tac ].
Qed.

End Frames.

Section Checker.
Context `{PyFloat}.

(** C7. The checker rejects cylindrical symmetry with [nz = 2], cylindrical
    symmetry with y mirroring off, and z mirroring with [nz = 1]; each time
    it returns false and leaves its message in the last-error slot. *)
Theorem check_symmetry_constraints (self : PA) :
  check (with_size None None (Some 2) (with_symmetry "cylindrical" no_kw)) self
    = (set_error (Some "nz (2) must be 1 under cylindrical symmetry.") self, Ok false)
  /\ check (with_mirrors None (Some false) None (with_symmetry "cylindrical" no_kw)) self
    = (set_error (Some "y mirroring must be enabled under cylindrical symmetry.") self,
       Ok false)
  /\ check (with_size None None (Some 1) (with_mirrors None None (Some true) no_kw)) self
    = (set_error (Some "nz (1) cannot be 1 under z mirroring.") self, Ok false).
Proof. repeat split. Qed.

End Checker.


Lemma index_bounds s x y z :
  in_bounds s x y z -> 0 <= index s x y z < _nx s * _ny s * _nz s.
Proof.
  unfold in_bounds, index. intros (Hx & Hy & Hz).
  assert (0 <= z * _ny s) by nia.
  assert (z * _ny s + y + 1 <= _nz s * _ny s) by nia.
  assert (0 <= (z * _ny s + y) * _nx s) by nia.
  assert ((z * _ny s + y + 1) * _nx s <= _nz s * _ny s * _nx s) by nia.
  nia.
Qed.

Lemma inside_true s x y z :
  inside x y z s = (s, Ok true) <-> in_bounds s x y z.
Proof.
  unfold inside, bind, get, ret, in_bounds. split.
  - intros [= Hb]. repeat (apply andb_prop in Hb as [Hb ?]). lia.
  - intros Hb. do 2 f_equal.
    repeat (apply andb_true_intro; split); lia.
Qed.

Lemma getitem_ok {A} (l : list A) i v :
  0 <= i -> l !! Z.to_nat i = Some v -> getitem l i = Ok v.
Proof.
  intros Hi Hl. unfold getitem, norm_index.
  apply lookup_lt_Some in Hl as Hlt.
  rewrite (proj2 (Z.leb_le _ _) Hi).
  replace (i <? Z.of_nat (length l)) with true by (symmetry; apply Z.ltb_lt; lia).
  by rewrite Hl.
Qed.

Lemma setitem_ok {A} (l : list A) i v :
  0 <= i < Z.of_nat (length l) -> setitem l i v = Ok (<[Z.to_nat i := v]> l).
Proof.
  intros Hi. unfold setitem, norm_index.
  rewrite (proj2 (Z.leb_le _ _) (proj1 Hi)).
  by replace (i <? Z.of_nat (length l)) with true by (symmetry; apply Z.ltb_lt; lia).
Qed.

Lemma bind_ok {A B} (m : M A) (k : A -> M B) s s' a :
  m s = (s', Ok a) -> bind m k s = k a s'.
Proof. intros Hm. unfold bind. by rewrite Hm. Qed.

Lemma bind_raise {A B} (m : M A) (k : A -> M B) s s' e :
  m s = (s', Raise e) -> bind m k s = (s', Raise e).
Proof. intros Hm. unfold bind. by rewrite Hm. Qed.

Section Store.
Context `{PyFloat}.

Lemma assert_inside_ok s x y z :
  in_bounds s x y z -> assert_inside x y z s = (s, Ok tt).
Proof.
  intros Hb. unfold assert_inside, bind. by rewrite (proj2 (inside_true s x y z) Hb).
Qed.

Lemma points_get_ok s pos v :
  0 <= pos -> _points s !! Z.to_nat pos = Some v -> points_get pos s = (s, Ok v).
Proof.
  intros ? Hl. unfold points_get, bind, get, lift. by rewrite (getitem_ok _ _ v).
Qed.

Lemma points_set_ok s pos v :
  0 <= pos < Z.of_nat (length (_points s)) ->
  points_set pos v s = (set_points (<[Z.to_nat pos := v]> (_points s)) s, Ok tt).
Proof.
  intros Hp. unfold points_set, bind, get, lift, modify. by rewrite setitem_ok.
Qed.

Lemma point_ok s x y z v :
  in_bounds s x y z -> _points s !! Z.to_nat (index s x y z) = Some v ->
  point x y z s =
    (s, Ok (Qgtb v (_max_voltage s),
            if Qgtb v (_max_voltage s) then (v - 2 * _max_voltage s)%Q else v)).
Proof.
  intros Hb Hv. unfold point.
  rewrite (bind_ok _ _ _ _ _ (assert_inside_ok s x y z Hb)).
  rewrite (bind_ok _ _ s s (index s x y z)) by done.
  rewrite (bind_ok _ _ _ _ _ (points_get_ok s _ v (proj1 (index_bounds _ _ _ _ Hb)) Hv)).
  done.
Qed.

Lemma Qgtb_false a b : (a <= b)%Q -> Qgtb a b = false.
Proof.
  intros Hab. unfold Qgtb, Qltb. apply negb_false_iff. by apply Qle_bool_iff.
Qed.

Lemma Qgtb_true a b : (b < a)%Q -> Qgtb a b = true.
Proof.
  intros Hab. unfold Qgtb, Qltb. apply negb_true_iff.
  destruct (Qle_bool a b) eqn:E; [|done]. apply Qle_bool_iff in E. lra.
Qed.


Lemma stored s x y z :
  store_ok s -> in_bounds s x y z ->
  exists v, _points s !! Z.to_nat (index s x y z) = Some v.
Proof.
  intros Hs Hb. apply lookup_lt_is_Some. unfold store_ok in Hs.
  apply index_bounds in Hb. lia.
Qed.

Lemma raw_ok s x y z v :
  in_bounds s x y z -> _points s !! Z.to_nat (index s x y z) = Some v ->
  raw x y z s = (s, Ok v).
Proof.
  intros Hb Hv. unfold raw.
  rewrite (bind_ok _ _ _ _ _ (assert_inside_ok s x y z Hb)).
  rewrite (bind_ok _ _ s s (index s x y z)) by done.
  by apply points_get_ok; [apply index_bounds|].
Qed.

Lemma electrode_ok s x y z v :
  in_bounds s x y z -> _points s !! Z.to_nat (index s x y z) = Some v ->
  electrode x y z s = (s, Ok (Qgtb v (_max_voltage s))).
Proof.
  intros Hb Hv. unfold electrode.
  rewrite (bind_ok _ _ _ _ _ (assert_inside_ok s x y z Hb)).
  rewrite (bind_ok _ _ s s (index s x y z)) by done.
  rewrite (bind_ok _ _ _ _ _ (points_get_ok s _ v (proj1 (index_bounds _ _ _ _ Hb)) Hv)).
  done.
Qed.

Lemma potential_ok s x y z v :
  in_bounds s x y z -> _points s !! Z.to_nat (index s x y z) = Some v ->
  potential x y z s =
    (s, Ok (if Qgtb v (_max_voltage s) then (v - 2 * _max_voltage s)%Q else v)).
Proof.
  intros Hb Hv. unfold potential.
  rewrite (bind_ok _ _ _ _ _ (assert_inside_ok s x y z Hb)).
  rewrite (bind_ok _ _ s s (index s x y z)) by done.
  rewrite (bind_ok _ _ _ _ _ (points_get_ok s _ v (proj1 (index_bounds _ _ _ _ Hb)) Hv)).
  rewrite (bind_ok _ _ s s s) by done.
  rewrite (bind_ok _ _ _ _ _ (points_get_ok s _ v (proj1 (index_bounds _ _ _ _ Hb)) Hv)).
  done.
Qed.

Lemma set_points_same s : set_points (_points s) s = s.
Proof. by destruct s. Qed.

Lemma electrode_set_ok s x y z b v :
  store_ok s -> in_bounds s x y z ->
  _points s !! Z.to_nat (index s x y z) = Some v ->
  electrode_set x y z b s =
    (set_points (<[Z.to_nat (index s x y z) := toggled (_max_voltage s) b v]> (_points s)) s,
     Ok tt).
Proof.
  intros Hs Hb Hv. unfold electrode_set.
  rewrite (bind_ok _ _ _ _ _ (assert_inside_ok s x y z Hb)).
  rewrite (bind_ok _ _ s s (index s x y z)) by done.
  rewrite (bind_ok _ _ _ _ _ (points_get_ok s _ v (proj1 (index_bounds _ _ _ _ Hb)) Hv)).
  rewrite (bind_ok _ _ s s s) by done.
  assert (0 <= index s x y z < Z.of_nat (length (_points s))) as Hi
    by (unfold store_ok in Hs; apply index_bounds in Hb; lia).
  unfold toggled.
  destruct (Qgtb v (_max_voltage s)), b; simpl;
    rewrite ?points_set_ok by done; try done;
    by rewrite list_insert_id, set_points_same.
Qed.



Lemma rescale_loop old diff (l0 : list Q) :
  forall (n k : nat) s,
    length l0 = (k + n)%nat ->
    _points s = (rescaled old diff <$> take k l0) ++ drop k l0 ->
    for_ (seqZ (Z.of_nat k) (Z.of_nat n))
         (fun n => v <- points_get n ;;
                   if Qgtb v old then points_set n (v + diff)%Q else ret tt) s
    = (set_points (rescaled old diff <$> l0) s, Ok tt).
Proof.
  induction n as [|n IH]; intros k s Hlen Hp.
  - simpl. rewrite take_ge, drop_ge, app_nil_r in Hp by lia.
    by rewrite <- Hp, set_points_same.
  - assert (seqZ (Z.of_nat k) (Z.of_nat (S n))
            = Z.of_nat k :: seqZ (Z.of_nat (S k)) (Z.of_nat n)) as ->.
    { clear IH. rewrite seqZ_cons by lia. do 2 f_equal; lia. }
    simpl for_.
    assert (k < length l0)%nat as Hk by (clear IH; lia).
    destruct (lookup_lt_is_Some_2 l0 k Hk) as [v Hv].
    assert (length (take k l0) = k) as Htk by (clear IH; rewrite length_take; lia).
    assert (_points s !! k = Some v) as Hsv.
    { rewrite Hp, lookup_app_r; rewrite length_fmap, Htk; [|done].
      by rewrite Nat.sub_diag, lookup_drop, Nat.add_0_r. }
    assert (<[k := rescaled old diff v]> (_points s)
            = (rescaled old diff <$> take (S k) l0) ++ drop (S k) l0) as Hnext.
    { rewrite Hp, (take_S_r _ _ _ Hv), fmap_app, <- app_assoc. simpl.
      rewrite insert_app_r_alt; rewrite length_fmap, Htk; [|done].
      rewrite Nat.sub_diag. by rewrite (drop_S _ _ _ Hv). }
    set (s1 := set_points (<[k := rescaled old diff v]> (_points s)) s).
    assert ((v <- points_get (Z.of_nat k) ;;
             if Qgtb v old then points_set (Z.of_nat k) (v + diff)%Q else ret tt) s
            = (s1, Ok tt)) as Hbody.
    { erewrite bind_ok;
        [| apply (points_get_ok s _ v); [clear IH; lia | by rewrite Nat2Z.id]].
      unfold s1, rescaled. destruct (Qgtb v old).
      - rewrite points_set_ok, Nat2Z.id; [done|].
        apply lookup_lt_Some in Hsv. clear IH. lia.
      - by rewrite list_insert_id, set_points_same. }
    rewrite (bind_ok _ _ _ _ _ Hbody).
    rewrite (IH (S k) s1); [by destruct s | by rewrite Hlen, Nat.add_succ_r | done].
Qed.

Lemma max_voltage_set_ok s m :
  store_ok s -> (0 <= m)%Q ->
  max_voltage_set m s =
    (set_points (rescaled (_max_voltage s) ((-2) * _max_voltage s + 2 * m) <$> _points s)
       (set_max_voltage m s), Ok tt).
Proof.
  intros Hs Hm. unfold max_voltage_set, check_max_voltage.
  replace (Qltb m 0) with false
    by (symmetry; apply negb_false_iff; by apply Qle_bool_iff).
  rewrite (bind_ok _ _ s s true) by done.
  rewrite (bind_ok _ _ s s tt) by done.
  rewrite (bind_ok _ _ s s s) by done.
  rewrite (bind_ok _ _ s (set_max_voltage m s) tt) by done.
  unfold range. unfold store_ok in Hs. rewrite <- Hs.
  apply (rescale_loop _ _ (_points s) (length (_points s)) 0%nat); [done|].
  by rewrite take_0, drop_0.
Qed.


End Store.


Lemma Qleb_le a b : Qleb a b = true <-> (a <= b)%Q.
Proof. apply Qle_bool_iff. Qed.

Lemma Qgeb_ge a b : Qgeb a b = true <-> (b <= a)%Q.
Proof. apply Qle_bool_iff. Qed.

Lemma Qgeb_lt a b : Qgeb a b = false <-> (a < b)%Q.
Proof.
  unfold Qgeb. split.
  - intros Hf. apply Qnot_le_lt. intros Hle. apply Qle_bool_iff in Hle. congruence.
  - intros Hlt. destruct (Qle_bool b a) eqn:E; [|done].
    apply Qle_bool_iff in E. lra.
Qed.

Lemma axis_test_ok mirrored dim c :
  axis_test mirrored dim c = true <-> axis_ok mirrored dim c.
Proof.
  unfold axis_test, axis_ok. rewrite Qabs_Qle_condition.
  destruct (Qgeb c 0) eqn:Hc.
  - apply Qgeb_ge in Hc. rewrite Qleb_le. split; [by left|].
    intros [[_ ?]|[_ [_ ?]]]; done.
  - apply Qgeb_lt in Hc. destruct mirrored.
    + rewrite Qleb_le. split.
      * intros Hle. right. split; [done|]. split; lra.
      * intros [[? _]|[_ [? _]]]; lra.
    + split; [done|]. intros [[? _]|[? _]]; [lra|done].
Qed.

Section Inside.
Context `{PyFloat}.

(** What [inside_real] computes under each symmetry. *)
Lemma inside_real_planar (self : PA) (x y z : Q) :
  _symmetry self = "planar" ->
  inside_real x y z self
  = (self, Ok (axis_test (_mirror_x self) (_nx self) x &&
               axis_test (_mirror_y self) (_ny self) y &&
               ((_nz self =? 1) || axis_test (_mirror_z self) (_nz self) z))).
Proof.
  intros Hsym. unfold inside_real, bind, get. rewrite Hsym, String.eqb_refl.
  fold (axis_test (_mirror_x self) (_nx self) x).
  fold (axis_test (_mirror_y self) (_ny self) y).
  fold (axis_test (_mirror_z self) (_nz self) z).
  destruct (axis_test (_mirror_x self) (_nx self) x); [|done].
  destruct (axis_test (_mirror_y self) (_ny self) y); [|done].
  by destruct (_nz self =? 1).
Qed.

Lemma inside_real_cylindrical (self : PA) (x y z : Q) :
  _symmetry self = "cylindrical" ->
  inside_real x y z self
  = (self, Ok (axis_test (_mirror_x self) (_nx self) x &&
               Qleb (sqrt (y * y + z * z)) (inject_Z (_ny self - 1)))).
Proof.
  intros Hsym. unfold inside_real, bind, get. rewrite Hsym, String.eqb_refl.
  change ("cylindrical" =? "planar")%string with false. cbv iota.
  unfold _inside_cylindrical_real, bind, get, ret.
  fold (axis_test (_mirror_x self) (_nx self) x).
  by destruct (axis_test (_mirror_x self) (_nx self) x).
Qed.

(** C6, as amended.  On a planar array [inside_real] holds exactly when x
    and y each lie in [0, dim-1], or are mirrored with absolute value at
    most [dim-1], and z does likewise unless [nz = 1], where z is not
    tested; on a cylindrical array exactly when x passes that test and
    [sqrt(y*y + z*z) <= ny-1]. *)
Theorem inside_real_cases (self : PA) (x y z : Q) :
  (_symmetry self = "planar" ->
     exists b, inside_real x y z self = (self, Ok b) /\
       (b = true <->
          axis_ok (_mirror_x self) (_nx self) x /\
          axis_ok (_mirror_y self) (_ny self) y /\
          (_nz self = 1 \/ axis_ok (_mirror_z self) (_nz self) z)))
  /\ (_symmetry self = "cylindrical" ->
     exists b, inside_real x y z self = (self, Ok b) /\
       (b = true <->
          axis_ok (_mirror_x self) (_nx self) x /\
          (sqrt (y * y + z * z) <= inject_Z (_ny self - 1))%Q)).
Proof.
  split; intros Hsym; eexists.
  - split; [by apply inside_real_planar|].
    rewrite !andb_true_iff, orb_true_iff, !axis_test_ok, Z.eqb_eq. tauto.
  - split; [by apply inside_real_cylindrical|].
    rewrite andb_true_iff, axis_test_ok, Qleb_le. tauto.
Qed.

End Inside.

(** C6, as stated, fails on a 2D planar array: the point (0, 0, 5) is
    inside although its z is outside [0, nz-1] and z is not mirrored. *)
Lemma inside_real_2d_ignores_z :
  inside_real 0 0 5 grid3 = (grid3, Ok true) /\
  ~ (axis_ok (_mirror_x grid3) (_nx grid3) 0 /\
     axis_ok (_mirror_y grid3) (_ny grid3) 0 /\
     axis_ok (_mirror_z grid3) (_nz grid3) 5).
Proof.
  split; [reflexivity|].
  intros (_ & _ & [[_ Hle]|[Hm _]]); [|discriminate]. vm_compute in Hle. by apply Hle.
Qed.

Lemma int_of_float_integer q n : (q == inject_Z n)%Q -> int_of_float q = n.
Proof.
  unfold Qeq, int_of_float. destruct q as [a b]. simpl. intros Hq.
  rewrite Z.mul_1_r in Hq. subst a. apply Z.quot_mul. lia.
Qed.

Lemma Qneb_zero q : (q == 0)%Q -> Qneb q 0 = false.
Proof. intros Hq. unfold Qneb. by rewrite (Qeq_eq_bool _ _ Hq). Qed.

Lemma Qabs_inject_Z n : 0 <= n -> (Qabs (inject_Z n) == inject_Z n)%Q.
Proof. intros Hn. apply Qabs_pos. unfold Qle. simpl. lia. Qed.

Lemma inject_Z_le a b : a <= b -> (inject_Z a <= inject_Z b)%Q.
Proof. intros. by rewrite <- Zle_Qle. Qed.

Section Interp.
Context `{PyFloat}.

Lemma and_or_skip (c : bool) (m : M Q) s : c = false -> and_or c m s = (s, Ok 0%Q).
Proof. by intros ->. Qed.

Lemma bilinear_exact s x y wx wy v :
  in_bounds s x y 0 -> _points s !! Z.to_nat (index s x y 0) = Some v ->
  (wx == 0)%Q -> (wy == 0)%Q ->
  exists p', bilinear x y wx wy s = (s, Ok p') /\
    (p' == if Qgtb v (_max_voltage s) then v - 2 * _max_voltage s else v)%Q.
Proof.
  intros Hb Hv Hx Hy. unfold bilinear.
  rewrite (bind_ok _ _ _ _ _ (potential_ok s x y 0 v Hb Hv)).
  rewrite (bind_ok _ _ s s 0%Q) by (apply and_or_skip; by apply Qneb_zero).
  rewrite (bind_ok _ _ s s 0%Q) by (apply and_or_skip; by apply Qneb_zero).
  rewrite (bind_ok _ _ s s 0%Q)
    by (apply and_or_skip; by rewrite (Qneb_zero _ Hx)).
  eexists. split; [done|]. rewrite Hx, Hy. ring.
Qed.

Lemma trilinear_exact s x y z wx wy wz v :
  in_bounds s x y z -> _points s !! Z.to_nat (index s x y z) = Some v ->
  (wx == 0)%Q -> (wy == 0)%Q -> (wz == 0)%Q ->
  exists p', trilinear x y z wx wy wz s = (s, Ok p') /\
    (p' == if Qgtb v (_max_voltage s) then v - 2 * _max_voltage s else v)%Q.
Proof.
  intros Hb Hv Hx Hy Hz. unfold trilinear.
  rewrite (bind_ok _ _ _ _ _ (potential_ok s x y z v Hb Hv)).
  do 7 (rewrite (bind_ok _ _ s s 0%Q)
          by (apply and_or_skip;
              rewrite ?(Qneb_zero _ Hx), ?(Qneb_zero _ Hy), ?(Qneb_zero _ Hz);
              by rewrite ?andb_false_r)).
  eexists. split; [done|]. rewrite Hx, Hy, Hz. ring.
Qed.


End Interp.


Lemma Qgtb_nonpos v m : Qle_bool v 0 = true -> (0 <= m)%Q -> Qgtb v m = false.
Proof.
  intros Hv Hm. apply Qgtb_false. apply Qle_bool_iff in Hv. lra.
Qed.

Lemma bind_run {A B} (m : M A) (k : A -> M B) s s1 a r :
  m s = (s1, Ok a) -> k a s1 = r -> bind m k s = r.
Proof. intros Hm <-. by apply bind_ok. Qed.

Lemma for_cons {A} (a : A) l (body : A -> M unit) s s' :
  body a s = (s', Ok tt) -> for_ (a :: l) body s = for_ l body s'.
Proof. intros Hb. simpl. by rewrite (bind_ok _ _ _ _ _ Hb). Qed.

Section Field.
Context `{PyFloat}.

Lemma potential_nonpos s x y z v :
  in_bounds s x y z -> _points s !! Z.to_nat (index s x y z) = Some v ->
  Qle_bool v 0 = true -> (0 <= _max_voltage s)%Q ->
  potential x y z s = (s, Ok v).
Proof.
  intros Hb Hv Hle Hm. rewrite (potential_ok _ _ _ _ _ Hb Hv).
  by rewrite Qgtb_nonpos.
Qed.

Lemma point_nonpos s x y z v :
  in_bounds s x y z -> _points s !! Z.to_nat (index s x y z) = Some v ->
  Qle_bool v 0 = true -> (0 <= _max_voltage s)%Q ->
  point x y z s = (s, Ok (false, v)).
Proof.
  intros Hb Hv Hle Hm. rewrite (point_ok _ _ _ _ _ Hb Hv).
  by rewrite Qgtb_nonpos.
Qed.

Lemma point_set_nonpos s x y z p :
  in_bounds s x y z ->
  (Z.to_nat (index s x y z) < length (_points s))%nat ->
  Qle_bool p 0 = true -> (0 <= _max_voltage s)%Q ->
  point_set x y z false (Some p) s
  = (set_points (<[Z.to_nat (index s x y z) := p]> (_points s)) s, Ok tt).
Proof.
  intros Hb Hlen Hle Hm. unfold point_set.
  rewrite (bind_ok _ _ _ _ _ (assert_inside_ok s x y z Hb)).
  rewrite (bind_ok _ _ s s (index s x y z)) by done.
  rewrite (bind_ok _ _ s s s) by done.
  rewrite Qgtb_nonpos by done. simpl when_.
  rewrite (bind_ok _ _ s s tt) by done.
  pose proof (index_bounds _ _ _ _ Hb) as Hi.
  assert (0 <= index s x y z < Z.of_nat (length (_points s))) as Hr by lia.
  rewrite (bind_ok _ _ _ _ _ (points_set_ok s _ p Hr)).
  done.
Qed.

Ltac bounds := unfold in_bounds, index; simpl; lia.

Ltac run Hm :=
  lazymatch goal with
  | |- bind ?m ?k ?s = _ =>
      eapply bind_run; [run Hm | cbv beta iota zeta; run Hm]
  | |- raw ?x ?y ?z ?s = _ => eapply raw_ok; [bounds | reflexivity]
  | |- potential ?x ?y ?z ?s = _ =>
      eapply potential_nonpos; [bounds | reflexivity | reflexivity | exact Hm]
  | |- point_set ?x ?y ?z false (Some ?p) ?s = _ =>
      eapply point_set_nonpos; [bounds | bounds | reflexivity | exact Hm]
  | |- when_ ?c ?m ?s = _ =>
      let b := eval vm_compute in c in
      change c with b; cbv beta iota delta [when_]; run Hm
  | |- (if ?c then _ else _) ?s = _ =>
      let b := eval vm_compute in c in
      change c with b; cbv beta iota; run Hm
  | |- (let '(_, _) := ?p in _) ?s = _ => cbv beta iota zeta; run Hm
  | |- _ => reflexivity
  end.

Ltac settle :=
  match goal with
  | |- context [set_points ?l ?s] =>
      let l' := eval vm_compute in l in
      change (set_points l s) with (set_points l' s)
  end.

(** C1, as amended.  On a zeroed 5 x 3 x 1 electrostatic array, the field
    setter driven over the grid in scan order with the field (1, 0, 0) leaves
    [potential(x, y, 0) = -x] at every point, exactly 0 at the origin, and
    no electrode flag. *)
Theorem constant_field_potential (self : PA) :
  _nx self = 5 -> _ny self = 3 -> _nz self = 1 ->
  _field_type self = "electrostatic" ->
  (0 <= _max_voltage self)%Q ->
  _points self = list_times 0%Q 15 ->
  exists self',
    set_constant_field 1 0 0 self = (self', Ok tt) /\
    point 0 0 0 self' = (self', Ok (false, 0%Q)) /\
    forall x y, 0 <= x <= 4 -> 0 <= y <= 2 ->
      exists p, point x y 0 self' = (self', Ok (false, p)) /\ (p == - inject_Z x)%Q.
Proof.
  destruct self as [md sy mv nx ny nz mx my mz ft ng dx dy dz fa er ps pts].
  simpl. intros -> -> -> -> Hm ->.
  eexists. split; [|split].
  - change (set_constant_field 1 0 0 ?s) with
      (for_ (scan_order 5 3 1) (fun p => field_set p.1.1 p.1.2 p.2 1 0 0) s).
    change (scan_order 5 3 1) with
      [(0,0,0); (1,0,0); (2,0,0); (3,0,0); (4,0,0);
       (0,1,0); (1,1,0); (2,1,0); (3,1,0); (4,1,0);
       (0,2,0); (1,2,0); (2,2,0); (3,2,0); (4,2,0)].
    change (list_times 0%Q 15) with (replicate 15 0%Q). simpl replicate.
    do 15 (erewrite for_cons;
             [| unfold field_set, _set_field; simpl fst; simpl snd; run Hm ];
           match goal with
           | |- for_ _ _ ?s = _ =>
               let pts := eval vm_compute in (_points s) in
               change s with
                 (mkPA md sy mv 5 3 1 mx my mz "electrostatic" ng dx dy dz fa er ps pts)
           end).
    reflexivity.
  - eapply point_nonpos; [bounds | reflexivity | reflexivity | exact Hm].
  - intros x y Hx Hy.
    assert (x = 0 \/ x = 1 \/ x = 2 \/ x = 3 \/ x = 4) as Hxs by lia.
    assert (y = 0 \/ y = 1 \/ y = 2) as Hys by lia.
    destruct Hxs as [->|[->|[->|[->| ->]]]], Hys as [->|[->| ->]];
      (eexists; split;
       [eapply point_nonpos; [bounds | reflexivity | reflexivity | exact Hm]
       | reflexivity]).
Qed.

End Field.

(** C1, as stated, fails on a magnetic array: the setter first divides the
    field by [ng], and the same drive leaves [-x / ng]. *)
Lemma magnetic_field_is_scaled :
  exists self' p,
    set_constant_field 1 0 0 magnetic5x3 = (self', Ok tt) /\
    point 1 0 0 self' = (self', Ok (false, p)) /\
    (p == -1 # 100)%Q /\ ~ (p == -1)%Q.
Proof. eexists _, _. split; [|split; [|split]]; by vm_compute. Qed.


Lemma Z_of_byte_of_Z z : Z_of_byte (byte_of_Z z) = z mod 256.
Proof.
  unfold Z_of_byte, byte_of_Z.
  assert (0 <= z mod 256 < 256) as Hr by (apply Z.mod_pos_bound; lia).
  destruct (Byte.of_N (Z.to_N (z mod 256))) as [b|] eqn:Hb.
  - apply Byte.to_of_N in Hb. simpl. rewrite Hb. lia.
  - apply Byte.of_N_None_iff in Hb. lia.
Qed.

Lemma le_bytes4_length u : length (le_bytes4 u) = 4%nat.
Proof. done. Qed.

Lemma le_value_bytes4 u : 0 <= u < 2 ^ 32 -> le_value (le_bytes4 u) = u.
Proof.
  intros Hu. unfold le_value, le_bytes4. simpl foldr.
  rewrite !Z_of_byte_of_Z.
  change (2 ^ 8) with 256. change (2 ^ 16) with 65536. change (2 ^ 24) with 16777216.
  change (2 ^ 32) with 4294967296 in Hu.
  Z.to_euclidean_division_equations. lia.
Qed.

Lemma unpack_pack_i v bs : pack_i v = Ok bs -> unpack_i bs = v /\ length bs = 4%nat.
Proof.
  unfold pack_i. destruct (_ && _) eqn:Hr; [|done]. intros [= <-].
  apply andb_prop in Hr as [Hlo Hhi]. apply Z.leb_le in Hlo. apply Z.ltb_lt in Hhi.
  split; [|done]. unfold unpack_i.
  assert (0 <= v mod 2 ^ 32 < 2 ^ 32) as Hm by (apply Z.mod_pos_bound; lia).
  rewrite le_value_bytes4 by done.
  change (2 ^ 31) with 2147483648 in *. change (2 ^ 32) with 4294967296 in *.
  destruct (Z.ltb_spec (v mod 4294967296) 2147483648);
    Z.to_euclidean_division_equations; lia.
Qed.

Lemma pack_i_ok v : - 2 ^ 31 <= v < 2 ^ 31 -> exists bs, pack_i v = Ok bs.
Proof.
  intros Hv. unfold pack_i.
  replace (_ && _) with true; [by eexists|].
  symmetry. apply andb_true_intro. split; [apply Z.leb_le | apply Z.ltb_lt]; lia.
Qed.

Lemma lor_shiftl_low c n :
  0 <= c < 16 -> 0 <= n -> Z.lor c (Z.shiftl n 4) = c + 16 * n.
Proof.
  intros Hc Hn.
  assert (Z.land c (Z.shiftl n 4) = 0) as Hdisj.
  { apply Z.bits_inj'. intros i Hi. rewrite Z.land_spec, Z.bits_0.
    destruct (Z.lt_ge_cases i 4) as [Hlt|Hge].
    - rewrite (Z.shiftl_spec_low n 4 i Hlt). apply andb_false_r.
    - replace (Z.testbit c i) with false; [done|].
      symmetry. destruct (Z.eq_dec c 0) as [->|Hc0]; [apply Z.bits_0|].
      apply Z.bits_above_log2; [lia|].
      assert (Z.log2 c < 4) by (apply Z.log2_lt_pow2; lia). lia. }
  rewrite <- Z.lxor_lor, <- Z.add_nocarry_lxor by done.
  rewrite Z.shiftl_mul_pow2 by lia. change (2 ^ 4) with 16. lia.
Qed.

Lemma land_1 a : Z.land a 1 = a mod 2.
Proof. change 1 with (Z.ones 1) at 1. rewrite Z.land_ones by lia. done. Qed.

Lemma land_17 a : Z.land a (Z.shiftl 1 17 - 1) = a mod 2 ^ 17.
Proof. change (Z.shiftl 1 17 - 1) with (Z.ones 17). by rewrite Z.land_ones by lia. Qed.

Section Bits.
Context `{PyFloat}.

Lemma raw_mirror_decode (self : PA) :
  let r := save_raw_mirror self in
  negb (Z.land r 1 =? 0) = _mirror_x self /\
  negb (Z.land (Z.shiftr r 1) 1 =? 0) = _mirror_y self /\
  negb (Z.land (Z.shiftr r 2) 1 =? 0) = _mirror_z self /\
  negb (Z.land (Z.shiftr r 3) 1 =? 0) = String.eqb (_field_type self) "magnetic" /\
  Z.land (Z.shiftr r 4) (Z.shiftl 1 17 - 1)
    = (if (1 <=? _ng self) && (_ng self <=? 90000) then _ng self else 0) /\
  0 <= r < 2 ^ 31.
Proof.
  unfold save_raw_mirror.
  rewrite !land_1, land_17, !Z.shiftr_div_pow2 by lia.
  change (2 ^ 1) with 2. change (2 ^ 2) with 4. change (2 ^ 3) with 8.
  change (2 ^ 4) with 16. change (2 ^ 17) with 131072. change (2 ^ 31) with 2147483648.
  destruct (_ && _) eqn:Hng.
  - apply andb_prop in Hng as [Hlo Hhi]. apply Z.leb_le in Hlo. apply Z.leb_le in Hhi.
    destruct (_mirror_x self), (_mirror_y self), (_mirror_z self),
      (String.eqb (_field_type self) "magnetic");
      match goal with
      | |- context [Z.lor ?a (Z.shiftl _ 4)] =>
          let a' := eval vm_compute in a in change a with a'
      end;
      rewrite lor_shiftl_low by lia;
      repeat split;
      try (apply negb_true_iff, Z.eqb_neq);
      try (apply negb_false_iff, Z.eqb_eq);
      Z.to_euclidean_division_equations; lia.
  - destruct (_mirror_x self), (_mirror_y self), (_mirror_z self),
      (String.eqb (_field_type self) "magnetic"); vm_compute; repeat split; congruence.
Qed.

End Bits.

Lemma range3_rows nx k :
  1 <= nx -> range3 0 (nx * k) nx = Ok ((fun j => 0 + j * nx) <$> seqZ 0 k).
Proof.
  intros Hnx. unfold range3.
  destruct (Z.eqb_spec nx 0) as [|_]; [lia|].
  destruct (Z.ltb_spec 0 nx) as [_|]; [|lia].
  do 3 f_equal. Z.to_euclidean_division_equations. nia.
Qed.

Lemma seqZ_succ (j k : nat) :
  seqZ (Z.of_nat j) (Z.of_nat (S k)) = Z.of_nat j :: seqZ (Z.of_nat (S j)) (Z.of_nat k).
Proof. rewrite seqZ_cons by lia. do 2 f_equal; lia. Qed.

Lemma slice_inside {A} (l : list A) (n w : nat) :
  (n + w <= length l)%nat ->
  slice l (Z.of_nat n) (Z.of_nat n + Z.of_nat w) = take w (drop n l).
Proof.
  intros Hl. unfold slice, slice_bound.
  destruct (Z.ltb_spec (Z.of_nat n) 0) as [|_]; [lia|].
  destruct (Z.ltb_spec (Z.of_nat n + Z.of_nat w) 0) as [|_]; [lia|].
  replace (Z.to_nat _) with n by lia.
  replace (Z.to_nat _) with (n + w)%nat by lia.
  f_equal. lia.
Qed.

Lemma slice_assign_inside {A} (l row : list A) (n w : nat) :
  (n + w <= length l)%nat ->
  slice_assign l (Z.of_nat n) (Z.of_nat n + Z.of_nat w) row
  = take n l ++ row ++ drop (n + w) l.
Proof.
  intros Hl. unfold slice_assign, slice_bound.
  destruct (Z.ltb_spec (Z.of_nat n) 0) as [|_]; [lia|].
  destruct (Z.ltb_spec (Z.of_nat n + Z.of_nat w) 0) as [|_]; [lia|].
  replace (Z.to_nat _) with n by lia.
  replace (Z.to_nat _) with (n + w)%nat by lia.
  do 3 f_equal. lia.
Qed.

Lemma take_plus {A} (a b : nat) (l : list A) :
  take (a + b) l = take a l ++ take b (drop a l).
Proof.
  revert l. induction a as [|a IH]; intros [|x l]; simpl; try done.
  - by rewrite take_nil.
  - by rewrite IH.
Qed.

Lemma wbind_ok {A B} (m : W A) (k : A -> W B) w a :
  m = (w, Ok a) -> wbind m k = (w ++ (k a).1, (k a).2).
Proof. intros ->. simpl. by destruct (k a). Qed.

Section Rows.
Context `{PyFloat}.

Lemma pack_ds_ok count (row : list Q) :
  Z.of_nat (length row) = count -> pack_ds count row = Ok (concat (pack_d <$> row)).
Proof.
  intros Hl. unfold pack_ds.
  by destruct (Z.eqb_spec (Z.of_nat (length row)) (Z.max count 0)) as [|Hne]; [|lia].
Qed.

Lemma concat_pack_length (row : list Q) :
  length (concat (pack_d <$> row)) = (8 * length row)%nat.
Proof.
  induction row as [|q row IH]; [done|].
  rewrite fmap_cons. simpl concat. rewrite length_app, pack_d_length, IH.
  simpl length. lia.
Qed.

Lemma unpack_chunks_app (a b : nat) (f : list Byte.byte) :
  unpack_chunks (a + b) f = unpack_chunks a f ++ unpack_chunks b (drop (8 * a) f).
Proof.
  revert f. induction a as [|a IH]; intros f; [done|].
  simpl unpack_chunks. rewrite IH. simpl. do 3 f_equal.
  rewrite drop_drop. f_equal. lia.
Qed.

Lemma unpack_chunks_take (n : nat) (f : list Byte.byte) (m : nat) :
  (8 * n <= m)%nat -> unpack_chunks n (take m f) = unpack_chunks n f.
Proof.
  revert f m. induction n as [|n IH]; intros f m Hm; [done|].
  simpl. rewrite take_take, Nat.min_l by lia.
  f_equal. rewrite <- (IH (drop 8 f) (m - 8)%nat) by lia.
  f_equal. by rewrite skipn_firstn_comm.
Qed.

Lemma unpack_chunks_length n f : length (unpack_chunks n f) = n.
Proof. revert f. induction n as [|n IH]; intros f; simpl; [done|]. by rewrite IH. Qed.

Lemma unpack_chunks_packed (row : list Q) (rest : list Byte.byte) :
  unpack_chunks (length row) (concat (pack_d <$> row) ++ rest)
  = (fun q => unpack_d (pack_d q)) <$> row.
Proof.
  induction row as [|q row IH]; [done|].
  rewrite fmap_cons. simpl concat. simpl length. simpl unpack_chunks.
  rewrite <- app_assoc.
  rewrite take_app_length' by (symmetry; apply pack_d_length).
  rewrite drop_app_length' by (symmetry; apply pack_d_length).
  by rewrite IH, fmap_cons.
Qed.

Lemma save_rows_cons (self : PA) n ns :
  save_rows self (n :: ns)
  = wbind (wlift (pack_ds (_nx self) (slice (_points self) n (n + _nx self))))
      (fun buf => wbind (write buf) (fun _ => save_rows self ns)).
Proof. done. Qed.

(** Writing the rows writes the points in order. *)
Lemma save_rows_ok (self : PA) (w : nat) :
  _nx self = Z.of_nat w ->
  forall (k j : nat),
    ((j + k) * w <= length (_points self))%nat ->
    save_rows self ((fun i => 0 + i * Z.of_nat w) <$> seqZ (Z.of_nat j) (Z.of_nat k))
    = (concat (pack_d <$> take (k * w) (drop (j * w) (_points self))), Ok tt).
Proof.
  intros Hw. induction k as [|k IH]; intros j Hlen; [done|].
  rewrite seqZ_succ, fmap_cons, save_rows_cons, !Hw.
  replace (0 + Z.of_nat j * Z.of_nat w) with (Z.of_nat (j * w)) by lia.
  rewrite slice_inside by lia.
  rewrite pack_ds_ok by (rewrite length_take, length_drop; lia).
  unfold wlift, wbind at 1, write, wbind at 1.
  rewrite (IH (S j)) by lia. simpl.
  f_equal. rewrite <- concat_app, <- fmap_app. do 2 f_equal.
  by rewrite take_plus, drop_drop, (Nat.add_comm (j * w) w).
Qed.


Lemma set_points_twice a b s : set_points a (set_points b s) = set_points a s.
Proof. by destruct s. Qed.

Lemma load_rows_cons n ns f s :
  load_rows (n :: ns) f s
  = (let '(buf, f') := file_read f (_nx s * 8) in
     row <- lift (unpack_ds (_nx s) buf) ;;
     modify (set_points (slice_assign (_points s) n (n + _nx s) row)) ;;;
     load_rows ns f') s.
Proof. done. Qed.

Lemma unpack_ds_ok (w : nat) (buf : list Byte.byte) :
  length buf = (8 * w)%nat -> unpack_ds (Z.of_nat w) buf = Ok (unpack_chunks w buf).
Proof.
  intros Hl. unfold unpack_ds.
  destruct (Z.eqb_spec (Z.of_nat (length buf)) (8 * Z.max (Z.of_nat w) 0)) as [_|]; [|lia].
  by rewrite Nat2Z.id.
Qed.

(** Reading the rows fills the store, in order, with what the bytes decode to. *)
Lemma load_rows_ok (w : nat) :
  forall (k j : nat) (f : list Byte.byte) (s : PA),
    _nx s = Z.of_nat w ->
    (8 * (k * w) <= length f)%nat ->
    ((j + k) * w <= length (_points s))%nat ->
    load_rows ((fun i => 0 + i * Z.of_nat w) <$> seqZ (Z.of_nat j) (Z.of_nat k)) f s
    = (set_points (take (j * w) (_points s) ++ unpack_chunks (k * w) f ++
                   drop ((j + k) * w) (_points s)) s, Ok tt).
Proof.
  induction k as [|k IH]; intros j f s Hw Hf Hp.
  - simpl. rewrite Nat.add_0_r, take_drop. by rewrite set_points_same.
  - rewrite seqZ_succ, fmap_cons, load_rows_cons, Hw.
    unfold file_read.
    destruct (Z.ltb_spec (Z.of_nat w * 8) 0) as [|_]; [lia|].
    replace (Z.to_nat (Z.of_nat w * 8)) with (8 * w)%nat by lia.
    rewrite unpack_ds_ok by (rewrite length_take; lia).
    rewrite unpack_chunks_take by lia.
    replace (0 + Z.of_nat j * Z.of_nat w) with (Z.of_nat (j * w)) by lia.
    rewrite (bind_ok _ _ s s (unpack_chunks w f)) by done.
    rewrite slice_assign_inside by lia.
    set (row := unpack_chunks w f).
    set (pts := _points s) in *.
    assert (length row = w) as Hrow by apply unpack_chunks_length.
    assert (length (take (j * w) pts) = (j * w)%nat) as Htk
      by (rewrite length_take; lia).
    set (s1 := set_points (take (j * w) pts ++ row ++ drop (j * w + w) pts) s).
    rewrite (bind_ok _ _ s s1 tt) by done.
    rewrite (IH (S j)).
    + unfold s1. simpl _points. rewrite set_points_twice. do 2 f_equal.
      replace (S j * w)%nat with (j * w + w)%nat by lia.
      rewrite take_plus.
      rewrite (take_app_length' (take (j * w) pts)) by done.
      rewrite (drop_app_length' (take (j * w) pts)) by done.
      rewrite (take_app_length' row) by done.
      rewrite <- app_assoc. f_equal.
      replace (S k * w)%nat with (w + k * w)%nat by lia.
      rewrite unpack_chunks_app. fold row. rewrite <- app_assoc. do 2 f_equal.
      rewrite app_assoc.
      rewrite drop_app_ge; rewrite length_app, Htk, Hrow; [|lia].
      rewrite drop_drop. f_equal. lia.
    + by destruct s.
    + rewrite length_drop. lia.
    + unfold s1. simpl _points. rewrite !length_app, Htk, Hrow, length_drop. lia.
Qed.


End Rows.

Lemma read_bytes_ok (f : list Byte.byte) (n : Z) :
  0 <= n <= Z.of_nat (length f) ->
  _read_bytes f n = Ok (take (Z.to_nat n) f, drop (Z.to_nat n) f).
Proof.
  intros Hn. unfold _read_bytes, file_read.
  destruct (Z.ltb_spec n 0) as [|_]; [lia|].
  rewrite length_take.
  by destruct (Z.eqb_spec (Z.of_nat (Z.to_nat n `min` length f)) n) as [_|]; [|lia].
Qed.

Lemma read_bytes_short (f : list Byte.byte) (n : Z) :
  Z.of_nat (length f) < n ->
  _read_bytes f n = Raise (IOError "Bytes missing from file.").
Proof.
  intros Hn. unfold _read_bytes, file_read.
  destruct (Z.ltb_spec n 0) as [|_]; [lia|].
  rewrite length_take.
  by destruct (Z.eqb_spec (Z.of_nat (Z.to_nat n `min` length f)) n) as [|_]; [lia|].
Qed.

Section Load.
Context `{PyFloat}.

Lemma valid_mode_test m :
  valid_mode m <-> negb (m =? -1) && negb (m =? -2) = false.
Proof.
  unfold valid_mode.
  destruct (Z.eqb_spec m (-1)), (Z.eqb_spec m (-2)); simpl; split; try done; lia.
Qed.

(** With a complete header and a valid mode, [load] installs the header
    and goes on to the points. *)
Lemma load_try_header (path : string) (f : list Byte.byte) (self : PA) :
  valid_mode (file_mode f) -> header_length f <= Z.of_nat (length f) ->
  load_try path f self
  = load_points (drop (Z.to_nat (header_length f)) f) (decoded path f self).
Proof.
  intros Hmode Hlen. unfold load_try.
  assert (32 <= header_length f) as H32
    by (unfold header_length; destruct (_ <=? _); lia).
  rewrite (bind_ok _ _ self self (take 4 f, drop 4 f))
    by (unfold lift; by rewrite (read_bytes_ok f 4) by lia).
  fold (file_mode f). rewrite (proj1 (valid_mode_test _) Hmode).
  rewrite (bind_ok _ _ self self (take 28 (drop 4 f), drop 28 (drop 4 f)))
    by (unfold lift; by rewrite (read_bytes_ok (drop 4 f) (4 + 8 + 4 * 4))
                          by (rewrite length_drop; lia)).
  unfold decoded, header_length in *.
  destruct (file_mode f <=? -2) eqn:Hm2.
  - set (f2 := drop 28 (drop 4 f)).
    rewrite (bind_ok _ _ self self
               (unpack_d (take 8 (take 24 f2)),
                unpack_d (take 8 (drop 8 (take 24 f2))),
                unpack_d (take 8 (drop 16 (take 24 f2))), drop 24 f2)).
    + rewrite (bind_ok _ _ self _ tt) by done. unfold f2. by rewrite !drop_drop.
    + rewrite (bind_ok _ _ self self (take 24 f2, drop 24 f2)); [done|].
      unfold lift. rewrite (read_bytes_ok f2 (8 * 3)); [done|].
      unfold f2. rewrite !length_drop. lia.
  - rewrite (bind_ok _ _ self self (1%Q, 1%Q, 1%Q, drop 28 (drop 4 f))) by done.
    rewrite (bind_ok _ _ self _ tt) by done.
    by rewrite !drop_drop.
Qed.

(** With a positive [nx] and enough bytes, the points are read. *)
Lemma load_points_ok (f : list Byte.byte) (s : PA) :
  1 <= _nx s -> 8 * (_nx s * _ny s * _nz s) <= Z.of_nat (length f) ->
  load_points f s
  = (set_points (unpack_chunks (Z.to_nat (_nx s * _ny s * _nz s)) f) s, Ok tt).
Proof.
  intros Hnx Hlen. unfold load_points.
  rewrite (bind_ok _ _ s s s) by done.
  set (s1 := set_points (list_times 0%Q (_nx s * _ny s * _nz s)) s).
  rewrite (bind_ok _ _ s s1 tt) by done.
  assert (lift (range3 0 (_nx s * _ny s * _nz s) (_nx s)) s1
          = (s1, Ok ((fun j => 0 + j * _nx s) <$> seqZ 0 (_ny s * _nz s)))) as Hr.
  { unfold lift. f_equal. rewrite <- (range3_rows _ _ Hnx). f_equal. lia. }
  rewrite (bind_ok _ _ _ _ _ Hr). clear Hr.
  set (w := Z.to_nat (_nx s)).
  set (k := Z.to_nat (_ny s * _nz s)).
  assert (_nx s = Z.of_nat w) as Hw by lia.
  assert (seqZ 0 (_ny s * _nz s) = seqZ (Z.of_nat 0) (Z.of_nat k)) as ->.
  { unfold k. destruct (Z.le_gt_cases 0 (_ny s * _nz s)).
    - by rewrite Z2Nat.id.
    - unfold seqZ. by replace (Z.to_nat (_ny s * _nz s)) with 0%nat by lia. }
  assert (Z.to_nat (_nx s * _ny s * _nz s) = (k * w)%nat) as Hkw by (unfold k, w; nia).
  rewrite Hkw, Hw. rewrite (load_rows_ok w k 0 f s1).
  - unfold s1. simpl _points. rewrite set_points_twice. do 2 f_equal.
    rewrite take_0, drop_ge, app_nil_r; [| unfold list_times; rewrite length_replicate; lia].
    done.
  - by destruct s.
  - nia.
  - unfold s1. simpl _points. unfold list_times. rewrite length_replicate. lia.
Qed.


Lemma load_rows_short (w : nat) :
  forall (k j : nat) (f : list Byte.byte) (s : PA),
    _nx s = Z.of_nat w -> (1 <= w)%nat ->
    (length f < 8 * (k * w))%nat ->
    ((j + k) * w <= length (_points s))%nat ->
    (load_rows ((fun i => 0 + i * Z.of_nat w) <$> seqZ (Z.of_nat j) (Z.of_nat k)) f s).2
    = Raise StructError.
Proof.
  induction k as [|k IH]; intros j f s Hw Hw1 Hf Hp; [lia|].
  rewrite seqZ_succ, fmap_cons, load_rows_cons, Hw.
  unfold file_read.
  destruct (Z.ltb_spec (Z.of_nat w * 8) 0) as [|_]; [lia|].
  replace (Z.to_nat (Z.of_nat w * 8)) with (8 * w)%nat by lia.
  destruct (Nat.lt_ge_cases (length f) (8 * w)) as [Hshort|Hlong].
  - unfold unpack_ds. rewrite length_take.
    by destruct (Z.eqb_spec (Z.of_nat ((8 * w) `min` length f))
                            (8 * Z.max (Z.of_nat w) 0)) as [|_]; [lia|].
  - rewrite unpack_ds_ok by (rewrite length_take; lia).
    rewrite (bind_ok _ _ s s (unpack_chunks w (take (8 * w) f))) by done.
    replace (0 + Z.of_nat j * Z.of_nat w) with (Z.of_nat (j * w)) by lia.
    rewrite slice_assign_inside by lia.
    match goal with
    | |- context [modify (set_points ?l)] => set (s1 := set_points l s)
    end.
    rewrite (bind_ok _ _ s s1 tt) by done.
    apply (IH (S j)); [by destruct s | done | rewrite length_drop; lia |].
    unfold s1. simpl _points.
    rewrite !length_app, length_take, unpack_chunks_length, length_drop. lia.
Qed.

Lemma load_points_short (f : list Byte.byte) (s : PA) :
  1 <= _nx s -> 0 <= _ny s * _nz s ->
  Z.of_nat (length f) < 8 * (_nx s * _ny s * _nz s) ->
  (load_points f s).2 = Raise StructError.
Proof.
  intros Hnx Hk Hlen. unfold load_points.
  rewrite (bind_ok _ _ s s s) by done.
  set (s1 := set_points (list_times 0%Q (_nx s * _ny s * _nz s)) s).
  rewrite (bind_ok _ _ s s1 tt) by done.
  assert (lift (range3 0 (_nx s * _ny s * _nz s) (_nx s)) s1
          = (s1, Ok ((fun j => 0 + j * _nx s) <$> seqZ 0 (_ny s * _nz s)))) as Hr.
  { unfold lift. f_equal. rewrite <- (range3_rows _ _ Hnx). f_equal. lia. }
  rewrite (bind_ok _ _ _ _ _ Hr). clear Hr.
  set (w := Z.to_nat (_nx s)).
  set (k := Z.to_nat (_ny s * _nz s)).
  assert (_nx s = Z.of_nat w) as Hw by lia.
  assert (_ny s * _nz s = Z.of_nat k) as Hk' by lia.
  rewrite Hk', Hw. apply (load_rows_short w k 0 f s1).
  - by destruct s.
  - lia.
  - nia.
  - unfold s1. simpl _points. unfold list_times. rewrite length_replicate. nia.
Qed.

Lemma load_found path fs f self :
  fs !! path = Some f ->
  load path fs self
  = match load_try path f self with
    | (s, Raise (PAError v)) => (s, Raise (failed_reading path (PAError v)))
    | (s, Raise (IOError m)) => (s, Raise (failed_reading path (IOError m)))
    | other => other
    end.
Proof.
  intros Hf. unfold load. rewrite Hf.
  by destruct (load_try path f self) as [s [a|[]]].
Qed.

(** A path that is not there: the failure of [open] is wrapped. *)
Lemma load_unreadable path fs self :
  fs !! path = None ->
  load path fs self
  = (self, Raise (failed_reading path
                    (IOError ("[Errno 2] No such file or directory: " +:+
                              repr_str path)))).
Proof. intros Hf. unfold load. by rewrite Hf. Qed.

(** A short read inside the header: an [IOError], wrapped. *)
Lemma load_short_header path fs f self :
  fs !! path = Some f ->
  Z.of_nat (length f) < 4 \/
  (valid_mode (file_mode f) /\ Z.of_nat (length f) < header_length f) ->
  load path fs self
  = (self, Raise (failed_reading path (IOError "Bytes missing from file."))).
Proof.
  intros Hf Hshort. rewrite (load_found _ _ _ _ Hf). unfold load_try.
  destruct (Z.lt_ge_cases (Z.of_nat (length f)) 4) as [H4|H4].
  { unfold lift, bind. by rewrite read_bytes_short. }
  destruct Hshort as [|[Hmode Hlen]]; [lia|].
  rewrite (bind_ok _ _ self self (take 4 f, drop 4 f))
    by (unfold lift; by rewrite (read_bytes_ok f 4) by lia).
  fold (file_mode f). rewrite (proj1 (valid_mode_test _) Hmode).
  destruct (Z.lt_ge_cases (Z.of_nat (length f)) 32) as [H32|H32].
  { unfold lift, bind. rewrite read_bytes_short; [done|]. rewrite length_drop. lia. }
  rewrite (bind_ok _ _ self self (take 28 (drop 4 f), drop 28 (drop 4 f)))
    by (unfold lift; by rewrite (read_bytes_ok (drop 4 f) (4 + 8 + 4 * 4))
                          by (rewrite length_drop; lia)).
  unfold header_length in Hlen.
  destruct (file_mode f <=? -2); [|lia].
  unfold lift, bind. rewrite read_bytes_short; [done|]. rewrite !length_drop. lia.
Qed.

(** A mode that is neither -1 nor -2: a [PAError], wrapped. *)
Lemma load_invalid_mode path fs f self :
  fs !! path = Some f -> 4 <= Z.of_nat (length f) -> ~ valid_mode (file_mode f) ->
  load path fs self
  = (self, Raise (failed_reading path
                    (PAError ("invalid mode (" +:+ str_int (file_mode f) +:+ ")")))).
Proof.
  intros Hf H4 Hmode. rewrite (load_found _ _ _ _ Hf). unfold load_try.
  rewrite (bind_ok _ _ self self (take 4 f, drop 4 f))
    by (unfold lift; by rewrite (read_bytes_ok f 4) by lia).
  fold (file_mode f).
  destruct (negb (file_mode f =? -1) && negb (file_mode f =? -2)) eqn:Hm; [done|].
  by apply valid_mode_test in Hm.
Qed.

Lemma decoded_dims path f self :
  _nx (decoded path f self) = file_nx f /\
  _ny (decoded path f self) = file_ny f /\
  _nz (decoded path f self) = file_nz f.
Proof. done. Qed.

(** A short read inside the points: [struct.error], as it is. *)
Lemma load_short_points path fs f self :
  fs !! path = Some f ->
  valid_mode (file_mode f) -> header_length f <= Z.of_nat (length f) ->
  1 <= file_nx f -> 0 <= file_ny f * file_nz f ->
  short_file f ->
  (load path fs self).2 = Raise StructError.
Proof.
  intros Hf Hmode Hh Hnx Hk Hshort. rewrite (load_found _ _ _ _ Hf).
  rewrite load_try_header by done.
  assert (32 <= header_length f) as H32
    by (unfold header_length; destruct (_ <=? _); lia).
  unfold short_file, implied_length in Hshort.
  destruct (Z.ltb_spec (Z.of_nat (length f)) 4) as [|_]; [lia|].
  destruct (Z.ltb_spec (Z.of_nat (length f)) (header_length f)) as [|_]; [lia|].
  assert (Z.of_nat (length (drop (Z.to_nat (header_length f)) f))
          < 8 * (file_nx f * file_ny f * file_nz f)) as Hlen
    by (rewrite length_drop; lia).
  pose proof (load_points_short (drop (Z.to_nat (header_length f)) f)
                (decoded path f self) Hnx Hk Hlen) as Hp.
  destruct (load_points _ _) as [s' r]. simpl in Hp. by rewrite Hp.
Qed.

(** With a complete header, a valid mode, a positive [nx] and all its
    points, a file loads. *)
Lemma load_complete path fs f self :
  fs !! path = Some f ->
  valid_mode (file_mode f) -> 1 <= file_nx f -> ~ short_file f ->
  load path fs self
  = (set_points
       (unpack_chunks (Z.to_nat (file_nx f * file_ny f * file_nz f))
                      (drop (Z.to_nat (header_length f)) f))
       (decoded path f self), Ok tt).
Proof.
  intros Hf Hmode Hnx Hlong. rewrite (load_found _ _ _ _ Hf).
  assert (32 <= header_length f) as H32
    by (unfold header_length; destruct (_ <=? _); lia).
  unfold short_file, implied_length in Hlong.
  destruct (Z.ltb_spec (Z.of_nat (length f)) 4) as [|_]; [lia|].
  destruct (Z.ltb_spec (Z.of_nat (length f)) (header_length f)) as [|?]; [lia|].
  rewrite load_try_header by done.
  assert (8 * (file_nx f * file_ny f * file_nz f)
          <= Z.of_nat (length (drop (Z.to_nat (header_length f)) f))) as Hlen
    by (rewrite length_drop; lia).
  by rewrite (load_points_ok _ (decoded path f self) Hnx Hlen).
Qed.

End Load.


Section Valid.
Context `{PyFloat}.

(** One line of [check] that lets the call go on: the attribute passed
    its checker. *)
Lemma check_line {A} (v : A) (chk : A -> M bool) (rest : M bool) s :
  (bind (rejects (Some v) chk) (fun r => if r : bool then ret false else rest) s).2
    = Ok true ->
  exists s', chk v s = (s', Ok true) /\ (rest s').2 = Ok true.
Proof.
  unfold rejects, bind, ret. destruct (chk v s) as [s' [[]|e]]; simpl; try done.
  intros Hr. by exists s'.
Qed.

Lemma check_mode_true v s s' : check_mode v s = (s', Ok true) -> valid_mode v.
Proof.
  unfold check_mode. destruct (negb _ && negb _) eqn:E; [done|].
  intros _. by apply valid_mode_test.
Qed.

Lemma check_symmetry_true v s s' :
  check_symmetry v s = (s', Ok true) -> v = "planar" \/ v = "cylindrical".
Proof.
  unfold check_symmetry. destruct (negb _) eqn:E; [done|]. intros _.
  apply negb_false_iff, orb_prop in E as [E|E]; apply String.eqb_eq in E; auto.
Qed.

Lemma check_field_type_true v s s' :
  check_field_type v s = (s', Ok true) -> v = "electrostatic" \/ v = "magnetic".
Proof.
  unfold check_field_type. destruct (negb _) eqn:E; [done|]. intros _.
  apply negb_false_iff, orb_prop in E as [E|E]; apply String.eqb_eq in E; auto.
Qed.

Lemma check_nx_true v s s' : check_nx v s = (s', Ok true) -> 3 <= v <= 90000.
Proof.
  unfold check_nx. destruct (Z.ltb_spec v 3); [done|].
  destruct (Z.gtb_spec v 90000); [done|]. lia.
Qed.

Lemma check_ny_true v s s' : check_ny v s = (s', Ok true) -> 3 <= v <= 90000.
Proof.
  unfold check_ny. destruct (Z.ltb_spec v 3); [done|].
  destruct (Z.gtb_spec v 90000); [done|]. lia.
Qed.

Lemma check_nz_true v s s' : check_nz v s = (s', Ok true) -> 1 <= v <= 90000.
Proof.
  unfold check_nz. destruct (Z.ltb_spec v 1); [done|].
  destruct (Z.gtb_spec v 90000); [done|]. lia.
Qed.

(** What the rest of the development needs of an instance the checker
    accepts. *)
Lemma valid_header (s : PA) :
  valid s ->
  valid_mode (_mode s) /\
  (_symmetry s = "planar" \/ _symmetry s = "cylindrical") /\
  (_field_type s = "electrostatic" \/ _field_type s = "magnetic") /\
  3 <= _nx s <= 90000 /\ 3 <= _ny s <= 90000 /\ 1 <= _nz s <= 90000.
Proof.
  intros [Hc _]. unfold check, all_kw in Hc. cbv beta iota delta [kw_mode kw_symmetry
    kw_max_voltage kw_field_type kw_ng kw_nx kw_ny kw_nz] in Hc.
  apply check_line in Hc as (s1 & Hmode & Hc).
  apply check_line in Hc as (s2 & Hsym & Hc).
  apply check_line in Hc as (s3 & _ & Hc).
  apply check_line in Hc as (s4 & Hft & Hc).
  apply check_line in Hc as (s5 & _ & Hc).
  apply check_line in Hc as (s6 & Hnx & Hc).
  apply check_line in Hc as (s7 & Hny & Hc).
  apply check_line in Hc as (s8 & Hnz & _).
  split; [exact (check_mode_true _ _ _ Hmode)|].
  split; [exact (check_symmetry_true _ _ _ Hsym)|].
  split; [exact (check_field_type_true _ _ _ Hft)|].
  split; [exact (check_nx_true _ _ _ Hnx)|].
  split; [exact (check_ny_true _ _ _ Hny)|].
  exact (check_nz_true _ _ _ Hnz).
Qed.

End Valid.


Tactic Notation "explode" ident(l) integer(n) :=
  do n (destruct l as [|? l]; [done|]); destruct l; [|done].

Lemma chunks32 (bm bs pd bx by_ bz br rest : list Byte.byte) :
  length bm = 4%nat -> length bs = 4%nat -> length pd = 8%nat ->
  length bx = 4%nat -> length by_ = 4%nat -> length bz = 4%nat ->
  length br = 4%nat ->
  let f := bm ++ bs ++ pd ++ bx ++ by_ ++ bz ++ br ++ rest in
  take 4 f = bm /\
  take 4 (file_words f) = bs /\
  take 8 (drop 4 (file_words f)) = pd /\
  take 4 (drop 12 (file_words f)) = bx /\
  take 4 (drop 16 (file_words f)) = by_ /\
  take 4 (drop 20 (file_words f)) = bz /\
  take 4 (drop 24 (file_words f)) = br /\
  drop 28 (drop 4 f) = rest.
Proof.
  intros Hm Hs Hd Hx Hy Hz Hr.
  explode bm 4. explode bs 4. explode pd 8. explode bx 4.
  explode by_ 4. explode bz 4. explode br 4.
  repeat split.
Qed.

Lemma chunks24 (px py pz rest : list Byte.byte) :
  length px = 8%nat -> length py = 8%nat -> length pz = 8%nat ->
  let f := px ++ py ++ pz ++ rest in
  take 8 (take 24 f) = px /\
  take 8 (drop 8 (take 24 f)) = py /\
  take 8 (drop 16 (take 24 f)) = pz /\
  drop 24 f = rest.
Proof.
  intros Hx Hy Hz. explode px 8. explode py 8. explode pz 8.
  repeat split.
Qed.

Lemma wbind_lift {A B} (a : A) (k : A -> W B) : wbind (wlift (Ok a)) k = k a.
Proof. unfold wbind, wlift. by destruct (k a). Qed.

Lemma wbind_write {B} (b : list Byte.byte) (k : unit -> W B) :
  wbind (write b) k = (b ++ (k tt).1, (k tt).2).
Proof. unfold wbind, write. by destruct (k tt). Qed.

Lemma pack_i_word v :
  - 2 ^ 31 <= v < 2 ^ 31 -> pack_i v = Ok (le_bytes4 (v mod 2 ^ 32)).
Proof.
  intros Hv. unfold pack_i.
  by replace (_ && _) with true
    by (symmetry; apply andb_true_intro; split; [apply Z.leb_le | apply Z.ltb_lt]; lia).
Qed.

Lemma unpack_word v : - 2 ^ 31 <= v < 2 ^ 31 -> unpack_i (le_bytes4 (v mod 2 ^ 32)) = v.
Proof. intros Hv. by apply (unpack_pack_i v), pack_i_word. Qed.

Lemma not_short (f : list Byte.byte) :
  4 <= Z.of_nat (length f) -> header_length f <= Z.of_nat (length f) ->
  header_length f + 8 * (file_nx f * file_ny f * file_nz f) <= Z.of_nat (length f) ->
  ~ short_file f.
Proof.
  intros H4 Hh Hlen. unfold short_file, implied_length.
  destruct (Z.ltb_spec (Z.of_nat (length f)) 4); [lia|].
  destruct (Z.ltb_spec (Z.of_nat (length f)) (header_length f)); lia.
Qed.

Section RoundTrip.
Context `{PyFloat}.

Lemma reported_mode_eq (s : PA) :
  reported_mode s
  = if (_mode s =? -1) &&
       (Qneb (_dx_mm s) 1 || Qneb (_dy_mm s) 1 || Qneb (_dz_mm s) 1)
    then -2 else _mode s.
Proof. unfold reported_mode, mode, bind, get. by destruct (_ && _). Qed.

Lemma save_try_shape (s : PA) :
  valid s ->
  exists trailer r,
    save_try s = (header_of s ++ concat (pack_d <$> _points s) ++ trailer, r) /\
    (_pasharp s = None -> trailer = [] /\ r = Ok tt).
Proof.
  intros Hv. pose proof (valid_header s Hv) as (Hm & Hs & Hf & Hx & Hy & Hz).
  destruct Hv as [_ Hst]. unfold store_ok in Hst.
  assert (valid_mode (reported_mode s)) as Hrm.
  { rewrite reported_mode_eq. destruct (_ && _); [by right | done]. }
  pose proof (raw_mirror_decode s) as (_ & _ & _ & _ & _ & Hr).
  unfold save_try.
  rewrite (pack_i_word (reported_mode s)) by (destruct Hrm as [-> | ->]; lia).
  rewrite wbind_lift.
  rewrite pack_i_word by (destruct (String.eqb (_symmetry s) "planar"); lia).
  rewrite wbind_lift.
  rewrite (pack_i_word (_nx s)) by lia. rewrite wbind_lift.
  rewrite (pack_i_word (_ny s)) by lia. rewrite wbind_lift.
  rewrite (pack_i_word (_nz s)) by lia. rewrite wbind_lift.
  rewrite (pack_i_word (save_raw_mirror s)) by lia. rewrite wbind_lift.
  rewrite wbind_write.
  set (w := Z.to_nat (_nx s)). set (k := Z.to_nat (_ny s * _nz s)).
  assert (_nx s = Z.of_nat w) as Hw by lia.
  assert (length (_points s) = (k * w)%nat) as Hlen by (unfold k, w; nia).
  assert (range3 0 (Z.of_nat (length (_points s))) (_nx s)
          = Ok ((fun i => 0 + i * Z.of_nat w) <$> seqZ (Z.of_nat 0) (Z.of_nat k))) as ->.
  { rewrite <- Hw. change (Z.of_nat 0) with 0.
    rewrite <- (range3_rows (_nx s) (Z.of_nat k)) by lia.
    f_equal. unfold k. nia. }
  rewrite wbind_lift.
  rewrite (save_rows_ok s w Hw k 0) by lia.
  simpl drop. rewrite <- Hlen, firstn_all.
  set (tail := match _pasharp s with
               | Some pasharp => save_stats s pasharp
               | None => wret tt
               end).
  exists tail.1, tail.2. split.
  - unfold wbind. destruct tail as [t r]. simpl fst. simpl snd. f_equal.
    unfold header_of. destruct (reported_mode s <=? -2).
    + by rewrite <- !app_assoc.
    + by rewrite !app_nil_r, <- !app_assoc.
  - intros Hp. unfold tail. by rewrite Hp.
Qed.


Lemma Forall2_exact (l : list Q) :
  Forall exact l -> Forall2 Qeq l ((fun q => unpack_d (pack_d q)) <$> l).
Proof.
  induction 1 as [|q l Hq _ IH]; [constructor|].
  rewrite fmap_cons. constructor; [by symmetry | done].
Qed.

(** What [load] finds in the bytes that [save] wrote. *)
Lemma saved_file (s : PA) (f trailer : list Byte.byte) :
  valid s -> f = header_of s ++ concat (pack_d <$> _points s) ++ trailer ->
  file_mode f = reported_mode s /\
  file_symmetry f = (if String.eqb (_symmetry s) "planar" then 1 else 0) /\
  take 8 (drop 4 (file_words f)) = pack_d (_max_voltage s) /\
  file_nx f = _nx s /\ file_ny f = _ny s /\ file_nz f = _nz s /\
  file_raw_mirror f = save_raw_mirror s /\
  ((reported_mode s <=? -2) = true ->
     let spacing := take 24 (drop 28 (drop 4 f)) in
     take 8 spacing = pack_d (_dx_mm s) /\
     take 8 (drop 8 spacing) = pack_d (_dy_mm s) /\
     take 8 (drop 16 spacing) = pack_d (_dz_mm s)) /\
  drop (Z.to_nat (header_length f)) f = concat (pack_d <$> _points s) ++ trailer /\
  8 * Z.of_nat (length (_points s)) <= Z.of_nat (length f) - header_length f.
Proof.
  intros Hv ->. pose proof (valid_header s Hv) as (Hm & Hs & Hf & Hx & Hy & Hz).
  pose proof (raw_mirror_decode s) as (_ & _ & _ & _ & _ & Hr).
  assert (valid_mode (reported_mode s)) as Hrm.
  { rewrite reported_mode_eq. destruct (_ && _); [by right | done]. }
  set (rows := concat (pack_d <$> _points s) ++ trailer).
  remember ((if reported_mode s <=? -2
              then pack_d (_dx_mm s) ++ pack_d (_dy_mm s) ++ pack_d (_dz_mm s)
              else []) ++ rows) as rest eqn:Hrest.
  assert (header_of s ++ rows
          = le_bytes4 (reported_mode s mod 2 ^ 32) ++
            le_bytes4 ((if String.eqb (_symmetry s) "planar" then 1 else 0) mod 2 ^ 32) ++
            pack_d (_max_voltage s) ++
            le_bytes4 (_nx s mod 2 ^ 32) ++ le_bytes4 (_ny s mod 2 ^ 32) ++
            le_bytes4 (_nz s mod 2 ^ 32) ++ le_bytes4 (save_raw_mirror s mod 2 ^ 32) ++
            rest) as Hshape
    by (unfold header_of; by rewrite Hrest, <- !app_assoc).
  destruct (chunks32 _ _ _ _ _ _ _ rest
              (le_bytes4_length (reported_mode s mod 2 ^ 32))
              (le_bytes4_length ((if String.eqb (_symmetry s) "planar"
                                  then 1 else 0) mod 2 ^ 32))
              (pack_d_length (_max_voltage s))
              (le_bytes4_length (_nx s mod 2 ^ 32))
              (le_bytes4_length (_ny s mod 2 ^ 32))
              (le_bytes4_length (_nz s mod 2 ^ 32))
              (le_bytes4_length (save_raw_mirror s mod 2 ^ 32)))
    as (C1 & C2 & C3 & C4 & C5 & C6 & C7 & C8).
  rewrite <- Hshape in C1, C2, C3, C4, C5, C6, C7, C8.
  assert (file_mode (header_of s ++ rows) = reported_mode s) as Hfm.
  { unfold file_mode. rewrite C1. apply unpack_word. destruct Hrm as [-> | ->]; lia. }
  assert (header_length (header_of s ++ rows)
          = if reported_mode s <=? -2 then 56 else 32) as Hhl
    by (unfold header_length; by rewrite Hfm).
  assert (length rows = (8 * length (_points s) + length trailer)%nat) as Hrows
    by (unfold rows; by rewrite length_app, concat_pack_length).
  split; [done|].
  split; [unfold file_symmetry; rewrite C2; apply unpack_word;
          destruct (String.eqb _ _); lia|].
  split; [done|].
  split; [unfold file_nx; rewrite C4; apply unpack_word; lia|].
  split; [unfold file_ny; rewrite C5; apply unpack_word; lia|].
  split; [unfold file_nz; rewrite C6; apply unpack_word; lia|].
  split; [unfold file_raw_mirror; rewrite C7; apply unpack_word; lia|].
  rewrite Hhl, C8.
  destruct (reported_mode s <=? -2) eqn:Hm2.
  - destruct (chunks24 _ _ _ rows (pack_d_length (_dx_mm s))
                (pack_d_length (_dy_mm s)) (pack_d_length (_dz_mm s)))
      as (D1 & D2 & D3 & D4).
    rewrite <- !app_assoc in Hrest. rewrite <- Hrest in D1, D2, D3, D4.
    split; [done|]. split.
    + change (Z.to_nat 56) with (4 + 28 + 24)%nat.
      by rewrite <- !drop_drop, C8.
    + rewrite Hshape, !length_app, !le_bytes4_length, !pack_d_length.
      rewrite Hrest, !length_app, !pack_d_length, Hrows. lia.
  - simpl in Hrest. split; [done|]. split.
    + change (Z.to_nat 32) with (4 + 28)%nat.
      by rewrite <- !drop_drop, C8.
    + rewrite Hshape, !length_app, !le_bytes4_length, !pack_d_length.
      rewrite Hrest, Hrows. lia.
Qed.



End RoundTrip.

Section LoadClaims.
Context `{PyFloat}.

(** C5.  A file whose header is complete and valid and whose points stop
    short makes [load] raise [struct.error] as it is: not the error of the
    class, and without the path. *)
Theorem load_truncated_points_escape (self : PA) :
  valid_mode (file_mode truncated_file) /\ short_file truncated_file /\
  exists s,
    load "t.pa" {[ "t.pa" := truncated_file ]} self = (s, Raise StructError).
Proof.
  split; [by left|]. split; [by vm_compute|].
  pose proof (load_short_points "t.pa" {[ "t.pa" := truncated_file ]}
                truncated_file self) as Hl.
  destruct (load _ _ _) as [s r]. exists s. f_equal. apply Hl; try done.
  by left.
Qed.

(** A file whose header is complete and valid and whose [nx] is positive
    loads: what it installs is what its words say. *)
Lemma load_installs (f : list Byte.byte) (self : PA) :
  valid_mode (file_mode f) -> 1 <= file_nx f -> ~ short_file f ->
  exists s,
    load "x.pa" {[ "x.pa" := f ]} self = (s, Ok tt) /\
    (_nx s, _ny s, _nz s) = (file_nx f, file_ny f, file_nz f) /\
    _symmetry s = (if negb (file_symmetry f =? 0) then "planar" else "cylindrical") /\
    _mirror_y s = negb (Z.land (Z.shiftr (file_raw_mirror f) 1) 1 =? 0) /\
    _mirror_z s = negb (Z.land (Z.shiftr (file_raw_mirror f) 2) 1 =? 0).
Proof.
  intros Hm Hnx Hlong. eexists. split; [by apply load_complete|]. done.
Qed.

Ltac installs f self :=
  destruct (load_installs f self) as (s & Hl & Hd & Hs & Hy & Hz);
    [by left | by vm_compute | by vm_compute |];
  exists s; split; [exact Hl|]; clear Hl; destruct s;
  vm_compute in Hd, Hs, Hy, Hz; injection Hd as -> -> ->; subst;
  by vm_compute.


End LoadClaims.

(** * The properties at work *)

(** ** The float interface [exact_ratio] *)

Lemma Qred_inject_Z (m : Z) : Qred (inject_Z m) = inject_Z m.
Proof.
  unfold Qred, inject_Z.
  pose proof (Z.ggcd_gcd m 1) as Hg. pose proof (Z.ggcd_correct_divisors m 1) as Hd.
  destruct (Z.ggcd m 1) as [g [aa bb]]. simpl in Hg, Hd.
  rewrite Z.gcd_1_r in Hg. subst g. destruct Hd as [-> Hb].
  replace bb with 1 by lia. by rewrite Z.mul_1_l.
Qed.

Lemma ratio_sqrt_exact : sqrt_exact_on_squares.
Proof.
  intros n a Hn Ha. simpl. unfold ratio_sqrt.
  rewrite (Qred_complete _ _ Ha), Qred_inject_Z. simpl.
  by rewrite Z.sqrt_square.
Qed.

(** ** Instances of the properties *)

Lemma constant_field_potential_witness :
  (0 <= _max_voltage grid5x3)%Q /\
  exists self',
    set_constant_field 1 0 0 grid5x3 = (self', Ok tt) /\
    point 0 0 0 self' = (self', Ok (false, 0%Q)) /\
    forall x y, 0 <= x <= 4 -> 0 <= y <= 2 ->
      exists p, point x y 0 self' = (self', Ok (false, p)) /\ (p == - inject_Z x)%Q.
Proof.
  split; [by vm_compute|].
  apply (constant_field_potential grid5x3); try reflexivity. by vm_compute.
Defined.






Lemma exact_floats_plate3 : exact_floats plate3.
Proof.
  unfold exact_floats. split_and!; [by vm_compute.. |].
  repeat (apply Forall_cons_2; [by vm_compute|]). apply Forall_nil_2.
Qed.



(** The flag [fast_adjustable] follows the regular expression, which also
    accepts a newline after the [#]. *)
Remark fast_adjustable_after_newline :
  search_hash_end ("a.pa#" +:+ newline) = true /\ search_hash_end "a.pa#" = true /\
  search_hash_end "a.pa0" = false.
Proof. done. Qed.


Lemma inside_real_cases_witness :
  _symmetry grid3 = "planar" /\
  exists b, inside_real 0 0 5 grid3 = (grid3, Ok b) /\
    (b = true <->
       axis_ok (_mirror_x grid3) (_nx grid3) 0 /\
       axis_ok (_mirror_y grid3) (_ny grid3) 0 /\
       (_nz grid3 = 1 \/ axis_ok (_mirror_z grid3) (_nz grid3) 5)).
Proof.
  split; [reflexivity|]. exact (proj1 (inside_real_cases grid3 0 0 5) eq_refl).
Defined.


(** ** The checker *)

Lemma verdict_ret_true : verdict (ret true).
Proof. by intros s. Qed.

Lemma verdict_fail_check msg : verdict (fail_check msg).
Proof. intros s. by exists msg. Qed.

Lemma verdict_if (c : bool) (m1 m2 : M bool) :
  verdict m1 -> verdict m2 -> verdict (if c then m1 else m2).
Proof. by destruct c. Qed.

Lemma verdict_raise e : verdict (raise e).
Proof. by intros s. Qed.

(** One line [if v != None and not self.check_v(v): return 0]. *)
Lemma verdict_line {A} (o : option A) (chk : A -> M bool) (rest : M bool) :
  (forall v, verdict (chk v)) -> verdict rest ->
  verdict (bind (rejects o chk) (fun r => if r : bool then ret false else rest)).
Proof.
  intros Hc Hr s. unfold bind, rejects. destruct o as [v|]; [|apply Hr].
  specialize (Hc v s). unfold bind. destruct (chk v s) as [s' [[|]|e]]; simpl; try done.
  subst s'. apply Hr.
Qed.

(** One line [if not self.check_v(v): return 0] of [check_size]. *)
Lemma verdict_step (chk : M bool) (rest : M bool) :
  verdict chk -> verdict rest ->
  verdict (bind chk (fun ok => if negb ok then ret false else rest)).
Proof.
  intros Hc Hr s. unfold bind. specialize (Hc s).
  destruct (chk s) as [s' [[|]|e]]; simpl; try done. subst s'. apply Hr.
Qed.

Lemma verdict_number {A} (o : option A) (rest : A -> M bool) :
  (forall v, verdict (rest v)) -> verdict (bind (number o) rest).
Proof. intros Hr s. destruct o as [v|]; [apply Hr | done]. Qed.

Section CheckerVerdict.
Context `{PyFloat}.

Ltac verdict_tac :=
  repeat first [ apply verdict_ret_true | apply verdict_fail_check | apply verdict_raise
               | apply verdict_if ].

Lemma verdict_check_mode v : verdict (check_mode v).
Proof. unfold check_mode. verdict_tac. Qed.
Lemma verdict_check_symmetry v : verdict (check_symmetry v).
Proof. unfold check_symmetry. verdict_tac. Qed.
Lemma verdict_check_max_voltage v : verdict (check_max_voltage v).
Proof. unfold check_max_voltage. verdict_tac. Qed.
Lemma verdict_check_field_type v : verdict (check_field_type v).
Proof. unfold check_field_type. verdict_tac. Qed.
Lemma verdict_check_ng v : verdict (check_ng v).
Proof. unfold check_ng. verdict_tac. Qed.
Lemma verdict_check_nx v : verdict (check_nx v).
Proof. unfold check_nx. verdict_tac. Qed.
Lemma verdict_check_ny v : verdict (check_ny v).
Proof. unfold check_ny. verdict_tac. Qed.
Lemma verdict_check_nz v : verdict (check_nz v).
Proof. unfold check_nz. verdict_tac. Qed.
Lemma verdict_check_dx_mm v : verdict (check_dx_mm v).
Proof. unfold check_dx_mm. verdict_tac. Qed.
Lemma verdict_check_dy_mm v : verdict (check_dy_mm v).
Proof. unfold check_dy_mm. verdict_tac. Qed.
Lemma verdict_check_dz_mm v : verdict (check_dz_mm v).
Proof. unfold check_dz_mm. verdict_tac. Qed.
Lemma verdict_check_mirror v : verdict (check_mirror v).
Proof. unfold check_mirror. destruct (match_xyz v); verdict_tac. Qed.

Lemma verdict_check_size a b c : verdict (check_size a b c).
Proof.
  unfold check_size.
  apply verdict_number; intros vx. apply verdict_step; [apply verdict_check_nx|].
  apply verdict_number; intros vy. apply verdict_step; [apply verdict_check_ny|].
  apply verdict_number; intros vz. apply verdict_step; [apply verdict_check_nz|].
  verdict_tac.
Qed.

Lemma verdict_symmetry_rules k mx my mz : verdict (check_symmetry_rules k mx my mz).
Proof.
  unfold check_symmetry_rules. apply verdict_if; [verdict_tac|].
  destruct (kw_nz k); verdict_tac.
Qed.

Lemma verdict_check k : verdict (check k).
Proof.
  unfold check.
  apply verdict_line; [apply verdict_check_mode|].
  apply verdict_line; [apply verdict_check_symmetry|].
  apply verdict_line; [apply verdict_check_max_voltage|].
  apply verdict_line; [apply verdict_check_field_type|].
  apply verdict_line; [apply verdict_check_ng|].
  apply verdict_line; [apply verdict_check_nx|].
  apply verdict_line; [apply verdict_check_ny|].
  apply verdict_line; [apply verdict_check_nz|].
  apply verdict_line; [intros v; apply verdict_check_size|].
  apply verdict_line; [apply verdict_check_dx_mm|].
  apply verdict_line; [apply verdict_check_dy_mm|].
  apply verdict_line; [apply verdict_check_dz_mm|].
  destruct (kw_mirror k) as [m|]; [|apply verdict_symmetry_rules].
  verdict_tac.
  intros s. unfold bind, _parse_mirror. destruct (match_xyz m) as [g|]; [|done].
  apply verdict_symmetry_rules.
Qed.

(** X1.  [check] and the last-error slot: a call that returns true, or that
    raises, leaves the instance as it is; a call that returns false has
    changed the last-error slot, into a message, and nothing else. *)
Theorem check_touches_only_the_error (k : kwargs) (s : PA) :
  match check k s with
  | (s', Ok true) => s' = s
  | (s', Ok false) => exists msg, s' = set_error (Some msg) s
  | (s', Raise _) => s' = s
  end.
Proof. apply verdict_check. Qed.

End CheckerVerdict.
(** *** What the checker accepts *)

Lemma line_result {A} (v : A) (chk : A -> M bool) (rest : M bool) s b :
  verdict (chk v) -> (chk v s).2 = Ok b ->
  (bind (rejects (Some v) chk) (fun r => if r : bool then ret false else rest) s).2
  = if b then (rest s).2 else Ok false.
Proof.
  intros Hv Hb. specialize (Hv s). unfold rejects, bind, ret.
  destruct (chk v s) as [s' [[|]|e]]; simpl in *; simplify_eq; simpl; try done.
Qed.

Lemma line_skip {A} (chk : A -> M bool) (rest : M bool) s :
  (bind (rejects None chk) (fun r => if r : bool then ret false else rest) s).2
  = (rest s).2.
Proof. done. Qed.

Lemma Qltb_lt a b : Qltb a b = true <-> (a < b)%Q.
Proof.
  unfold Qltb. rewrite negb_true_iff. split.
  - intros Hb. apply Qnot_le_lt. intros Hle. apply Qle_bool_iff in Hle. congruence.
  - intros Hlt. destruct (Qle_bool b a) eqn:E; [|done].
    apply Qle_bool_iff in E. lra.
Qed.

Lemma Qgtb_gt a b : Qgtb a b = true <-> (b < a)%Q.
Proof. apply Qltb_lt. Qed.

Section CheckerAccepts.
Context `{PyFloat}.

Lemma check_mode_result v s : (check_mode v s).2 = Ok (mode_test v).
Proof. unfold check_mode, mode_test. by destruct (_ && _). Qed.
Lemma check_symmetry_result v s :
  (check_symmetry v s).2 = Ok (name_test "planar" "cylindrical" v).
Proof. unfold check_symmetry, name_test. by destruct (_ || _). Qed.
Lemma check_field_type_result v s :
  (check_field_type v s).2 = Ok (name_test "electrostatic" "magnetic" v).
Proof. unfold check_field_type, name_test. by destruct (_ || _). Qed.
Lemma check_max_voltage_result v s : (check_max_voltage v s).2 = Ok (negb (Qltb v 0)).
Proof. unfold check_max_voltage. by destruct (Qltb v 0). Qed.
Lemma check_ng_result v s : (check_ng v s).2 = Ok (negb (v <? 0)).
Proof. unfold check_ng. by destruct (v <? 0). Qed.
Lemma check_nx_result v s : (check_nx v s).2 = Ok (dim_test 3 v).
Proof. unfold check_nx, dim_test. destruct (v <? 3); [done|]. by destruct (v >? 90000). Qed.
Lemma check_ny_result v s : (check_ny v s).2 = Ok (dim_test 3 v).
Proof. unfold check_ny, dim_test. destruct (v <? 3); [done|]. by destruct (v >? 90000). Qed.
Lemma check_nz_result v s : (check_nz v s).2 = Ok (dim_test 1 v).
Proof. unfold check_nz, dim_test. destruct (v <? 1); [done|]. by destruct (v >? 90000). Qed.
Lemma check_dx_mm_result v s : (check_dx_mm v s).2 = Ok (spacing_test v).
Proof.
  unfold check_dx_mm, spacing_test. destruct (Qltb v _); [done|]. by destruct (Qgtb v _).
Qed.
Lemma check_dy_mm_result v s : (check_dy_mm v s).2 = Ok (spacing_test v).
Proof.
  unfold check_dy_mm, spacing_test. destruct (Qltb v _); [done|]. by destruct (Qgtb v _).
Qed.
Lemma check_dz_mm_result v s : (check_dz_mm v s).2 = Ok (spacing_test v).
Proof.
  unfold check_dz_mm, spacing_test. destruct (Qltb v _); [done|]. by destruct (Qgtb v _).
Qed.

Lemma step_result (chk rest : M bool) s b :
  verdict chk -> (chk s).2 = Ok b ->
  (bind chk (fun ok => if negb ok then ret false else rest) s).2
  = if b then (rest s).2 else Ok false.
Proof.
  intros Hv Hb. specialize (Hv s). unfold bind.
  destruct (chk s) as [s' [[|]|e]]; simpl in *; simplify_eq; simpl; done.
Qed.

Lemma check_size_result nx ny nz s :
  (check_size (Some nx) (Some ny) (Some nz) s).2 = Ok (size_test nx ny nz).
Proof.
  unfold check_size, size_test. unfold number at 1. unfold bind at 1. unfold ret at 1.
  rewrite (step_result _ _ _ _ (verdict_check_nx nx) (check_nx_result nx s)).
  destruct (dim_test 3 nx); [|done].
  unfold number at 1. unfold bind at 1. unfold ret at 1.
  rewrite (step_result _ _ _ _ (verdict_check_ny ny) (check_ny_result ny s)).
  destruct (dim_test 3 ny); [|done].
  unfold number at 1. unfold bind at 1. unfold ret at 1.
  rewrite (step_result _ _ _ _ (verdict_check_nz nz) (check_nz_result nz s)).
  destruct (dim_test 1 nz); [|done].
  by destruct (_ >? _).
Qed.

Lemma symmetry_rules_result k mx (my mz : bool) sym nz s :
  kw_symmetry k = Some sym -> kw_nz k = Some nz ->
  (check_symmetry_rules k mx (Some my) (Some mz) s).2 = Ok (rules_test sym my mz nz).
Proof.
  intros Hs Hn. unfold check_symmetry_rules, rules_test. rewrite Hs, Hn.
  assert (bool_decide (Some sym = Some "cylindrical") = String.eqb sym "cylindrical") as ->.
  { destruct (String.eqb_spec sym "cylindrical") as [->|Hne].
    - by apply bool_decide_eq_true.
    - apply bool_decide_eq_false. congruence. }
  destruct (String.eqb sym "cylindrical"), my, mz, (nz =? 1); done.
Qed.

(** The result of the call that the setters make. *)
Lemma config_check_result nx ny nz sym mx my mz s :
  (config_check nx ny nz sym mx my mz s).2
  = Ok (name_test "planar" "cylindrical" sym && size_test nx ny nz &&
        rules_test sym my mz nz).
Proof.
  unfold config_check, check. cbn [kw_mode kw_symmetry kw_max_voltage kw_field_type
    kw_ng kw_nx kw_ny kw_nz kw_dx_mm kw_dy_mm kw_dz_mm kw_mirror kw_mirror_x kw_mirror_y
    kw_mirror_z with_size with_symmetry with_mirrors no_kw].
  rewrite line_skip.
  rewrite (line_result _ _ _ _ _ (verdict_check_symmetry sym) (check_symmetry_result sym s)).
  destruct (name_test "planar" "cylindrical" sym); [|done].
  rewrite !line_skip.
  rewrite (line_result _ _ _ _ _ (verdict_check_nx nx) (check_nx_result nx s)).
  unfold size_test. destruct (dim_test 3 nx) eqn:Ex; [|done].
  rewrite (line_result _ _ _ _ _ (verdict_check_ny ny) (check_ny_result ny s)).
  destruct (dim_test 3 ny) eqn:Ey; [|done].
  rewrite (line_result _ _ _ _ _ (verdict_check_nz nz) (check_nz_result nz s)).
  destruct (dim_test 1 nz) eqn:Ez; [|done].
  rewrite (line_result nx (fun nx => check_size (Some nx) (Some ny) (Some nz)) _ _ _
             (verdict_check_size _ _ _) (check_size_result nx ny nz s)).
  unfold size_test. rewrite Ex, Ey, Ez. simpl andb.
  destruct (negb (nx * ny * nz >? 200000000)); [|done].
  rewrite !line_skip. by erewrite symmetry_rules_result.
Qed.

End CheckerAccepts.

(** *** The tests, as the specification words them *)

Lemma mode_test_ok v : mode_test v = true <-> valid_mode v.
Proof. unfold mode_test, valid_mode. lia. Qed.

Lemma name_test_ok a b v : name_test a b v = true <-> v = a \/ v = b.
Proof. unfold name_test. by rewrite orb_true_iff, !String.eqb_eq. Qed.

Lemma dim_test_ok lo v : dim_test lo v = true <-> lo <= v <= 90000.
Proof. unfold dim_test. lia. Qed.

Lemma size_test_ok nx ny nz : size_test nx ny nz = true <-> size_ok nx ny nz.
Proof.
  unfold size_test, size_ok. rewrite !andb_true_iff, !dim_test_ok. lia.
Qed.

Lemma spacing_test_ok d : spacing_test d = true <-> spacing_ok d.
Proof.
  unfold spacing_test, spacing_ok.
  rewrite andb_true_iff, !negb_true_iff.
  split.
  - intros [Hlo Hhi]. split.
    + apply Qnot_lt_le. intros Hlt. apply Qltb_lt in Hlt. congruence.
    + apply Qnot_lt_le. intros Hlt. apply Qgtb_gt in Hlt. congruence.
  - intros [Hlo Hhi]. split.
    + destruct (Qltb d (1 # 1000000)) eqn:E; [|done]. apply Qltb_lt in E. lra.
    + destruct (Qgtb d 900) eqn:E; [|done]. apply Qgtb_gt in E. lra.
Qed.

Lemma rules_test_ok sym my mz nz :
  name_test "planar" "cylindrical" sym && rules_test sym my mz nz = true <->
  symmetry_rules_ok sym my mz nz.
Proof.
  unfold rules_test, symmetry_rules_ok.
  rewrite !andb_true_iff, name_test_ok, !negb_true_iff, !andb_false_iff,
    !negb_false_iff, Z.eqb_eq, Z.eqb_neq.
  destruct (String.eqb_spec sym "cylindrical") as [->|Hne].
  - destruct my, mz; intuition (try done).
  - destruct my, mz; intuition (try done).
Qed.

Section CheckerAcceptsAll.
Context `{PyFloat}.

Lemma check_all_result (s : PA) :
  (check (all_kw s) s).2
  = Ok (mode_test (_mode s) && name_test "planar" "cylindrical" (_symmetry s) &&
        negb (Qltb (_max_voltage s) 0) &&
        name_test "electrostatic" "magnetic" (_field_type s) &&
        negb (_ng s <? 0) && size_test (_nx s) (_ny s) (_nz s) &&
        spacing_test (_dx_mm s) && spacing_test (_dy_mm s) && spacing_test (_dz_mm s) &&
        rules_test (_symmetry s) (_mirror_y s) (_mirror_z s) (_nz s)).
Proof.
  unfold all_kw, check. cbn [kw_mode kw_symmetry kw_max_voltage kw_field_type
    kw_ng kw_nx kw_ny kw_nz kw_dx_mm kw_dy_mm kw_dz_mm kw_mirror kw_mirror_x kw_mirror_y
    kw_mirror_z].
  rewrite (line_result _ _ _ _ _ (verdict_check_mode _) (check_mode_result _ s)).
  destruct (mode_test _); [|done].
  rewrite (line_result _ _ _ _ _ (verdict_check_symmetry _) (check_symmetry_result _ s)).
  destruct (name_test "planar" _ _); [|done].
  rewrite (line_result _ _ _ _ _ (verdict_check_max_voltage _)
             (check_max_voltage_result _ s)).
  destruct (negb (Qltb _ _)); [|done].
  rewrite (line_result _ _ _ _ _ (verdict_check_field_type _)
             (check_field_type_result _ s)).
  destruct (name_test "electrostatic" _ _); [|done].
  rewrite (line_result _ _ _ _ _ (verdict_check_ng _) (check_ng_result _ s)).
  destruct (negb (_ <? 0)); [|done].
  rewrite (line_result _ _ _ _ _ (verdict_check_nx _) (check_nx_result _ s)).
  unfold size_test. destruct (dim_test 3 (_nx s)) eqn:Ex; [|done].
  rewrite (line_result _ _ _ _ _ (verdict_check_ny _) (check_ny_result _ s)).
  destruct (dim_test 3 (_ny s)) eqn:Ey; [|done].
  rewrite (line_result _ _ _ _ _ (verdict_check_nz _) (check_nz_result _ s)).
  destruct (dim_test 1 (_nz s)) eqn:Ez; [|done].
  rewrite (line_result (_nx s)
             (fun nx => check_size (Some nx) (Some (_ny s)) (Some (_nz s))) _ _ _
             (verdict_check_size _ _ _) (check_size_result _ _ _ s)).
  unfold size_test. rewrite Ex, Ey, Ez. simpl andb.
  destruct (negb (_ >? 200000000)); [|done].
  rewrite (line_result _ _ _ _ _ (verdict_check_dx_mm _) (check_dx_mm_result _ s)).
  destruct (spacing_test (_dx_mm s)); [|done].
  rewrite (line_result _ _ _ _ _ (verdict_check_dy_mm _) (check_dy_mm_result _ s)).
  destruct (spacing_test (_dy_mm s)); [|done].
  rewrite (line_result _ _ _ _ _ (verdict_check_dz_mm _) (check_dz_mm_result _ s)).
  destruct (spacing_test (_dz_mm s)); [|done].
  by erewrite symmetry_rules_result.
Qed.

Lemma check_all_well_formed (s : PA) :
  (check (all_kw s) s).2 = Ok true <-> well_formed s.
Proof.
  rewrite check_all_result. unfold well_formed.
  rewrite <- mode_test_ok, <- (name_test_ok "electrostatic" "magnetic"), <- size_test_ok,
    <- !spacing_test_ok, <- rules_test_ok.
  split.
  - intros [= Hb]. repeat (apply andb_prop in Hb as [Hb ?]).
    assert (0 <= _max_voltage s)%Q.
    { apply Qnot_lt_le. intros Hlt. apply Qltb_lt in Hlt.
      by destruct (Qltb (_max_voltage s) 0). }
    split_and!; try done; try lia. by apply andb_true_intro.
  - intros (H0 & Hm & H1 & H2 & H3 & H4 & H5 & H6 & Hr).
    apply andb_prop in Hr as [H7 H8].
    assert (Qltb (_max_voltage s) 0 = false) as Hv.
    { destruct (Qltb (_max_voltage s) 0) eqn:E; [|done]. apply Qltb_lt in E. lra. }
    assert ((_ng s <? 0) = false) as Hg by lia.
    by rewrite H0, H1, H3, H4, H5, H6, H7, H8, Hv, Hg.
Qed.


End CheckerAcceptsAll.

Section CheckerRaises.
Context `{PyFloat}.

(** X3.  [check] given [nx] alone: once [nx] is in range, the size is
    checked with [ny = None], and the comparison of [None] with a number
    raises [TypeError]; nothing is recorded. *)
Theorem check_size_needs_every_dimension (nx : Z) (s : PA) :
  3 <= nx <= 90000 ->
  check (with_size (Some nx) None None no_kw) s = (s, Raise TypeError).
Proof.
  intros Hnx. unfold check, rejects, check_size, number, check_nx, bind, ret, raise. simpl.
  destruct (Z.ltb_spec nx 3); [lia|]. destruct (Z.gtb_spec nx 90000); [lia|]. simpl.
  destruct (Z.ltb_spec nx 3); [lia|]. destruct (Z.gtb_spec nx 90000); [lia|]. done.
Qed.

(** X4.  [check] given a mirror string that is no ordered subset of "xyz":
    the string is parsed, not checked, and the parser's assertion is what
    the caller gets. *)
Theorem check_raises_on_a_bad_mirror (mirror : string) (s : PA) :
  match_xyz mirror = None ->
  check (with_mirror mirror no_kw) s
  = (s, Raise (AssertionError (Some ("Invalid mirroring (" +:+ mirror +:+ ").")))).
Proof.
  intros Hm. unfold check, rejects, _parse_mirror, bind, ret, raise. simpl.
  by rewrite Hm.
Qed.

End CheckerRaises.

Lemma check_size_needs_every_dimension_witness :
  3 <= 5 <= 90000 /\
  check (with_size (Some 5) None None no_kw) grid3 = (grid3, Raise TypeError).
Proof.
  split; [lia|]. apply (check_size_needs_every_dimension 5 grid3). lia.
Defined.

Lemma check_raises_on_a_bad_mirror_witness :
  match_xyz "zx" = None /\
  check (with_mirror "zx" no_kw) grid3
  = (grid3, Raise (AssertionError (Some "Invalid mirroring (zx)."))).
Proof.
  split; [reflexivity|]. apply (check_raises_on_a_bad_mirror "zx" grid3). reflexivity.
Defined.


(** ** The setters *)

Lemma verdict_true (chk : M bool) s :
  verdict chk -> (chk s).2 = Ok true -> chk s = (s, Ok true).
Proof.
  intros Hv Hr. specialize (Hv s). destruct (chk s) as [s' [[|]|e]]; simpl in *;
    by simplify_eq.
Qed.

Lemma verdict_false (chk : M bool) s :
  verdict chk -> (chk s).2 = Ok false ->
  exists msg, chk s = (set_error (Some msg) s, Ok false).
Proof.
  intros Hv Hr. specialize (Hv s). destruct (chk s) as [s' [[|]|e]]; simpl in *;
    simplify_eq. destruct Hv as [msg ->]. by exists msg.
Qed.

Section Setters.
Context `{PyFloat}.

(** [assert self.check_v(v), self.error()], then an assignment. *)
Lemma checked_assignment (chk : M bool) (rest : M unit) (b : bool) s s' :
  verdict chk -> (chk s).2 = Ok b -> (b = true -> rest s = (s', Ok tt)) ->
  outcome ((ok <- chk ;; assert_ ok error ;;; rest) s) b s s'.
Proof.
  intros Hv Hb Hr. unfold outcome. destruct b.
  - rewrite (bind_ok _ _ _ _ _ (verdict_true _ _ Hv Hb)). by apply Hr.
  - destruct (verdict_false _ _ Hv Hb) as [msg Hm]. exists msg.
    by rewrite (bind_ok _ _ _ _ _ Hm).
Qed.

Lemma config_check_test nx ny nz sym mx my mz s :
  (config_check nx ny nz sym mx my mz s).2 = Ok (config_test nx ny nz sym my mz).
Proof. apply config_check_result. Qed.

Lemma verdict_config_check nx ny nz sym mx my mz :
  verdict (config_check nx ny nz sym mx my mz).
Proof. apply verdict_check. Qed.

Lemma config_assignment nx ny nz sym mx my mz (rest : M unit) s s' :
  (config_test nx ny nz sym my mz = true -> rest s = (s', Ok tt)) ->
  outcome ((ok <- config_check nx ny nz sym mx my mz ;; assert_ ok error ;;; rest) s)
          (config_test nx ny nz sym my mz) s s'.
Proof.
  exact (checked_assignment (config_check nx ny nz sym mx my mz) rest
           (config_test nx ny nz sym my mz) s s'
           (verdict_config_check nx ny nz sym mx my mz)
           (config_check_test nx ny nz sym mx my mz s)).
Qed.

Lemma size_outcome nx ny nz s :
  outcome (size nx ny nz s)
          (config_test nx ny (default 1 nz) (_symmetry s) (_mirror_y s) (_mirror_z s))
          s (resized nx ny (default 1 nz) s).
Proof.
  unfold size. unfold bind at 1, get at 1.
  apply config_assignment.
  intros _. destruct nz; reflexivity.
Qed.

Lemma call_outcome (c : setter) (s : PA) :
  store_ok s -> outcome (call c s) (accepts c s) s (effect c s).
Proof.
  intros Hs. destruct c as [v|v|v|v|v|v|v|v|v|v|v|v|v|nx ny nz|v|v];
    cbn [call accepts effect].
  - exact (checked_assignment (check_mode v) _ (mode_test v) s _ (verdict_check_mode v)
             (check_mode_result v s) (fun _ => eq_refl)).
  - exact (checked_assignment (check_field_type v) _ _ s _ (verdict_check_field_type v)
             (check_field_type_result v s) (fun _ => eq_refl)).
  - exact (checked_assignment (check_ng v) _ _ s _ (verdict_check_ng v)
             (check_ng_result v s) (fun _ => eq_refl)).
  - exact (checked_assignment (check_dx_mm v) _ _ s _ (verdict_check_dx_mm v)
             (check_dx_mm_result v s) (fun _ => eq_refl)).
  - exact (checked_assignment (check_dy_mm v) _ _ s _ (verdict_check_dy_mm v)
             (check_dy_mm_result v s) (fun _ => eq_refl)).
  - exact (checked_assignment (check_dz_mm v) _ _ s _ (verdict_check_dz_mm v)
             (check_dz_mm_result v s) (fun _ => eq_refl)).
  - unfold outcome. destruct (Qltb v 0) eqn:E; cbn [negb].
    + unfold max_voltage_set.
      destruct (verdict_false _ s (verdict_check_max_voltage v)) as [msg Hm].
      { by rewrite check_max_voltage_result, E. }
      exists msg. by rewrite (bind_ok _ _ _ _ _ Hm).
    + apply max_voltage_set_ok; [done|].
      apply Qnot_lt_le. intros Hlt. apply Qltb_lt in Hlt. congruence.
  - reflexivity.
  - unfold mirror_y_set. unfold bind at 1, get at 1.
    apply config_assignment.
    intros _; reflexivity.
  - unfold mirror_z_set. unfold bind at 1, get at 1.
    apply config_assignment.
    intros _; reflexivity.
  - unfold nx_set. unfold bind at 1, get at 1.
    apply config_assignment.
    intros Ht. pose proof (size_outcome v (_ny s) (Some (_nz s)) s) as Hz.
    unfold outcome in Hz. simpl default in Hz. rewrite Ht in Hz. exact Hz.
  - unfold ny_set. unfold bind at 1, get at 1.
    apply config_assignment.
    intros Ht. pose proof (size_outcome (_nx s) v (Some (_nz s)) s) as Hz.
    unfold outcome in Hz. simpl default in Hz. rewrite Ht in Hz. exact Hz.
  - unfold nz_set. unfold bind at 1, get at 1.
    apply config_assignment.
    intros Ht. pose proof (size_outcome (_nx s) (_ny s) (Some v) s) as Hz.
    unfold outcome in Hz. simpl default in Hz. rewrite Ht in Hz. exact Hz.
  - apply size_outcome.
  - unfold symmetry_set. unfold bind at 1, get at 1.
    apply config_assignment.
    intros _; reflexivity.
  - reflexivity.
Qed.


Lemma config_test_ok nx ny nz sym my mz :
  config_test nx ny nz sym my mz = true <->
  size_ok nx ny nz /\ symmetry_rules_ok sym my mz nz.
Proof.
  unfold config_test. rewrite <- size_test_ok, <- rules_test_ok, !andb_true_iff. tauto.
Qed.

Lemma well_formed_config s :
  well_formed s <->
  valid_mode (_mode s) /\ (0 <= _max_voltage s)%Q /\
  (_field_type s = "electrostatic" \/ _field_type s = "magnetic") /\ 0 <= _ng s /\
  spacing_ok (_dx_mm s) /\ spacing_ok (_dy_mm s) /\ spacing_ok (_dz_mm s) /\
  config_test (_nx s) (_ny s) (_nz s) (_symmetry s) (_mirror_y s) (_mirror_z s) = true.
Proof. unfold well_formed. rewrite config_test_ok. tauto. Qed.

Lemma call_accepted (c : setter) (s s' : PA) :
  store_ok s -> call c s = (s', Ok tt) -> accepts c s = true /\ s' = effect c s.
Proof.
  intros Hs Hc. pose proof (call_outcome c s Hs) as Ho. unfold outcome in Ho.
  destruct (accepts c s).
  - split; [done|]. congruence.
  - destruct Ho as [msg Hm]. congruence.
Qed.

(** X5.  The setters that validate what they are given keep the class
    invariant: called on an instance that the checker accepts and whose
    store has one value per point, each of them, when it returns, leaves
    such an instance. *)
Theorem setters_keep_the_instance_valid (c : setter) (s s' : PA) :
  well_formed s -> store_ok s -> call c s = (s', Ok tt) ->
  well_formed s' /\ store_ok s'.
Proof.
  intros Hw Hs Hc. destruct (call_accepted c s s' Hs Hc) as [Ha ->]. clear Hc.
  apply well_formed_config in Hw as (Hmode & Hmv & Hft & Hng & Hdx & Hdy & Hdz & Hcfg).
  rewrite well_formed_config.
  destruct c as [v|v|v|v|v|v|v|v|v|v|v|v|v|nx ny nz|v|v]; cbn [accepts effect] in *.
  - apply mode_test_ok in Ha. by split_and!.
  - apply name_test_ok in Ha. by split_and!.
  - apply negb_true_iff, Z.ltb_ge in Ha. by split_and!.
  - apply spacing_test_ok in Ha. by split_and!.
  - apply spacing_test_ok in Ha. by split_and!.
  - apply spacing_test_ok in Ha. by split_and!.
  - split.
    + split_and!; try done. simpl. apply Qnot_lt_le. intros Hlt. apply Qltb_lt in Hlt.
      by rewrite Hlt in Ha.
    + unfold store_ok in *. simpl. by rewrite length_fmap.
  - by split_and!.
  - by split_and!.
  - by split_and!.
  - split; [by split_and!|]. unfold store_ok, resized, list_times. simpl.
    rewrite length_replicate. apply config_test_ok in Ha as [(? & ? & ? & _) _]. lia.
  - split; [by split_and!|]. unfold store_ok, resized, list_times. simpl.
    rewrite length_replicate. apply config_test_ok in Ha as [(? & ? & ? & _) _]. lia.
  - split; [by split_and!|]. unfold store_ok, resized, list_times. simpl.
    rewrite length_replicate. apply config_test_ok in Ha as [(? & ? & ? & _) _]. lia.
  - split; [by split_and!|]. unfold store_ok, resized, list_times. simpl.
    rewrite length_replicate. apply config_test_ok in Ha as [(? & ? & ? & _) _]. lia.
  - by split_and!.
  - by split_and!.
Qed.

(** X6.  A setter that fails has changed nothing but the last-error slot:
    it raises [AssertionError] with the message its checker recorded, and
    every attribute and every point is as before. *)
Theorem failed_setter_changes_only_the_error (c : setter) (s s' : PA) (e : exn) :
  store_ok s -> call c s = (s', Raise e) ->
  exists msg, e = AssertionError (Some msg) /\ s' = set_error (Some msg) s.
Proof.
  intros Hs Hc. pose proof (call_outcome c s Hs) as Ho. unfold outcome in Ho.
  destruct (accepts c s); [congruence|].
  destruct Ho as [msg Hm]. exists msg. split; congruence.
Qed.

End Setters.

Lemma well_formed_plate3 : well_formed plate3.
Proof. apply check_all_well_formed. by vm_compute. Qed.

Lemma setters_keep_the_instance_valid_witness :
  well_formed plate3 /\ store_ok plate3 /\
  call (Nx 4) plate3 = (resized 4 3 1 plate3, Ok tt) /\
  well_formed (resized 4 3 1 plate3) /\ store_ok (resized 4 3 1 plate3).
Proof.
  assert (store_ok plate3) as Hs by (by vm_compute).
  assert (call (Nx 4) plate3 = (resized 4 3 1 plate3, Ok tt)) as Hc by (by vm_compute).
  split; [exact well_formed_plate3|]. split; [exact Hs|]. split; [exact Hc|].
  exact (setters_keep_the_instance_valid (Nx 4) plate3 _ well_formed_plate3 Hs Hc).
Defined.

Lemma failed_setter_changes_only_the_error_witness :
  store_ok plate3 /\
  call (Ng (-1)) plate3
  = (set_error (Some "Magnetic scaling factor (-1) must be no less than 0.") plate3,
     Raise (AssertionError (Some "Magnetic scaling factor (-1) must be no less than 0."))) /\
  exists msg,
    AssertionError (Some "Magnetic scaling factor (-1) must be no less than 0.")
    = AssertionError (Some msg) /\
    set_error (Some "Magnetic scaling factor (-1) must be no less than 0.") plate3
    = set_error (Some msg) plate3.
Proof.
  assert (store_ok plate3) as Hs by (by vm_compute).
  assert (call (Ng (-1)) plate3
          = (set_error (Some "Magnetic scaling factor (-1) must be no less than 0.") plate3,
             Raise (AssertionError
                      (Some "Magnetic scaling factor (-1) must be no less than 0."))))
    as Hc by (by vm_compute).
  split; [exact Hs|]. split; [exact Hc|].
  exact (failed_setter_changes_only_the_error (Ng (-1)) plate3 _ _ Hs Hc).
Defined.


(** *** The mirror string *)

Lemma strip_prefix_char_inv c s b r :
  strip_prefix_char c s = (b, r) ->
  s = (if b then String c EmptyString else EmptyString) +:+ r.
Proof.
  unfold strip_prefix_char. destruct s as [|d rest]; [by intros [= <- <-]|].
  destruct (Ascii.eqb_spec c d) as [->|_]; by intros [= <- <-].
Qed.

Lemma match_xyz_inv str gx gy gz :
  match_xyz str = Some (gx, gy, gz) ->
  str = mirror_str gx gy gz \/ str = mirror_str gx gy gz +:+ newline.
Proof.
  unfold match_xyz.
  destruct (strip_prefix_char "x" str) as [bx s1] eqn:E1.
  destruct (strip_prefix_char "y" s1) as [by_ s2] eqn:E2.
  destruct (strip_prefix_char "z" s2) as [bz s3] eqn:E3.
  apply strip_prefix_char_inv in E1, E2, E3. subst str s1 s2.
  destruct (String.eqb_spec s3 EmptyString) as [->|_]; simpl.
  - intros [= <- <- <-]. left. by destruct bx, by_, bz.
  - destruct (String.eqb_spec s3 newline) as [->|_]; [|done].
    intros [= <- <- <-]. right. by destruct bx, by_, bz.
Qed.

Lemma match_xyz_mirror_str gx gy gz :
  match_xyz (mirror_str gx gy gz) = Some (gx, gy, gz).
Proof. by destruct gx, gy, gz. Qed.

Lemma set_mirrors_same s :
  set_mirror_z (_mirror_z s) (set_mirror_y (_mirror_y s) (set_mirror_x (_mirror_x s) s)) = s.
Proof. by destruct s. Qed.

Section MirrorString.
Context `{PyFloat}.

Lemma mirror_ok s : mirror s = (s, Ok (mirror_str (_mirror_x s) (_mirror_y s) (_mirror_z s))).
Proof. done. Qed.

Lemma mirror_set_ok str gx gy gz s :
  match_xyz str = Some (gx, gy, gz) ->
  mirror_set str s = (set_mirror_z gz (set_mirror_y gy (set_mirror_x gx s)), Ok tt).
Proof. intros Hm. unfold mirror_set. by rewrite Hm. Qed.

(** X7.  The mirror string round-trips: the string that [mirror()] returns
    is accepted by [mirror(str)] and leaves the instance as it is; and after
    a successful [mirror(str)], [mirror()] returns [str], up to a newline
    that ended it. *)
Theorem mirror_string_round_trip :
  (forall s, exists str, mirror s = (s, Ok str) /\ mirror_set str s = (s, Ok tt)) /\
  (forall s str s', mirror_set str s = (s', Ok tt) ->
     exists str', mirror s' = (s', Ok str') /\ (str = str' \/ str = str' +:+ newline)).
Proof.
  split.
  - intros s. eexists. split; [apply mirror_ok|].
    rewrite (mirror_set_ok _ _ _ _ _ (match_xyz_mirror_str _ _ _)).
    by rewrite set_mirrors_same.
  - intros s str s' Hs. unfold mirror_set in Hs.
    destruct (match_xyz str) as [[[gx gy] gz]|] eqn:Hm; [|done].
    injection Hs as <-. eexists. split; [apply mirror_ok|].
    simpl. by apply match_xyz_inv.
Qed.

(** X8.  [mirror(str)] does not call the checker.  On a cylindrical array
    that the checker accepts, [mirror_y(False)] is refused and changes
    nothing but the last-error slot, whereas [mirror("x")] goes through and
    leaves a configuration without y mirroring, which the checker refuses. *)
Theorem mirror_string_bypasses_the_checker (s : PA) :
  well_formed s -> _symmetry s = "cylindrical" ->
  (exists msg, mirror_y_set false s
               = (set_error (Some msg) s, Raise (AssertionError (Some msg)))) /\
  exists s', mirror_set "x" s = (s', Ok tt) /\ _mirror_y s' = false /\ ~ well_formed s'.
Proof.
  intros Hw Hsym. split.
  - pose proof (call_outcome (MirrorY false) s) as Ho.
    assert (accepts (MirrorY false) s = false) as Ha.
    { cbn [accepts]. unfold config_test, rules_test. rewrite Hsym. simpl.
      by rewrite andb_false_r. }
    unfold outcome in Ho. rewrite Ha in Ho. cbn [call] in Ho.
    unfold mirror_y_set in *. unfold bind at 1, get at 1.
    destruct (verdict_false _ s (verdict_config_check (_nx s) (_ny s) (_nz s) (_symmetry s)
                                   (_mirror_x s) false (_mirror_z s))) as [msg Hm].
    { rewrite config_check_test. f_equal. exact Ha. }
    exists msg. by rewrite (bind_ok _ _ _ _ _ Hm).
  - eexists. split; [by apply mirror_set_ok|]. split; [done|].
    intros (_ & _ & _ & _ & _ & _ & _ & _ & _ & Hc & _). simpl in Hc.
    by destruct (Hc Hsym).
Qed.

End MirrorString.

Lemma well_formed_tube3 : well_formed tube3.
Proof. apply check_all_well_formed. by vm_compute. Qed.

Lemma mirror_string_round_trip_witness :
  mirror_set ("xz" +:+ newline) plate3 = (set_mirror_z true (set_mirror_y false (set_mirror_x true plate3)), Ok tt) /\
  exists str', mirror (set_mirror_z true (set_mirror_y false (set_mirror_x true plate3)))
               = (set_mirror_z true (set_mirror_y false (set_mirror_x true plate3)), Ok str') /\
    ("xz" +:+ newline = str' \/ "xz" +:+ newline = str' +:+ newline).
Proof.
  assert (mirror_set ("xz" +:+ newline) plate3
          = (set_mirror_z true (set_mirror_y false (set_mirror_x true plate3)), Ok tt))
    as Hs by reflexivity.
  split; [exact Hs|].
  exact (proj2 mirror_string_round_trip plate3 ("xz" +:+ newline) _ Hs).
Defined.

Lemma mirror_string_bypasses_the_checker_witness :
  well_formed tube3 /\ _symmetry tube3 = "cylindrical" /\
  (exists msg, mirror_y_set false tube3
               = (set_error (Some msg) tube3, Raise (AssertionError (Some msg)))) /\
  exists s', mirror_set "x" tube3 = (s', Ok tt) /\ _mirror_y s' = false /\ ~ well_formed s'.
Proof.
  split; [exact well_formed_tube3|]. split; [reflexivity|].
  exact (mirror_string_bypasses_the_checker tube3 well_formed_tube3 eq_refl).
Defined.


(** *** [set] *)

Section SetMany.
Context `{PyFloat}.

Lemma assert_checked_pass {A} (o : option A) (chk : A -> M bool) (test : A -> bool) s :
  (forall v, verdict (chk v)) -> (forall v, (chk v s).2 = Ok (test v)) ->
  from_option test true o = true ->
  assert_checked o chk s = (s, Ok tt).
Proof.
  intros Hv Hr Ht. destruct o as [v|]; [|done]. simpl in Ht.
  unfold assert_checked.
  assert (chk v s = (s, Ok true)) as Hc
    by (apply verdict_true; [apply Hv | by rewrite Hr, Ht]).
  by rewrite (bind_ok _ _ _ _ _ Hc).
Qed.

Lemma assert_checked_fail {A} (o : option A) (chk : A -> M bool) (test : A -> bool) s :
  (forall v, verdict (chk v)) -> (forall v, (chk v s).2 = Ok (test v)) ->
  from_option test true o = false ->
  exists msg, assert_checked o chk s
              = (set_error (Some msg) s, Raise (AssertionError (Some msg))).
Proof.
  intros Hv Hr Ht. destruct o as [v|]; [|done]. simpl in Ht.
  destruct (verdict_false (chk v) s (Hv v)) as [msg Hm]; [by rewrite Hr, Ht|].
  exists msg. unfold assert_checked. by rewrite (bind_ok _ _ _ _ _ Hm).
Qed.

(** One checked attribute of [set], and the ones after it. *)
Lemma checks_step {A} (o : option A) (chk : A -> M bool) (test : A -> bool)
    (rest : M unit) (b : bool) s :
  (forall v, verdict (chk v)) -> (forall v, (chk v s).2 = Ok (test v)) ->
  (if b then rest s = (s, Ok tt)
   else exists msg, rest s = (set_error (Some msg) s, Raise (AssertionError (Some msg)))) ->
  if from_option test true o && b then (assert_checked o chk ;;; rest) s = (s, Ok tt)
  else exists msg, (assert_checked o chk ;;; rest) s
                   = (set_error (Some msg) s, Raise (AssertionError (Some msg))).
Proof.
  intros Hv Hr Hrest. destruct (from_option test true o) eqn:Ht; simpl.
  - rewrite (bind_ok _ _ _ _ _ (assert_checked_pass o chk test s Hv Hr Ht)). exact Hrest.
  - destruct (assert_checked_fail o chk test s Hv Hr Ht) as [msg Hm]. exists msg.
    by rewrite (bind_raise _ _ _ _ _ Hm).
Qed.

Lemma set_checks_run k s :
  if set_checks_test k then set_checks k s = (s, Ok tt)
  else exists msg, set_checks k s
                   = (set_error (Some msg) s, Raise (AssertionError (Some msg))).
Proof.
  unfold set_checks_test, set_checks. rewrite <- !andb_assoc.
  apply checks_step; [apply verdict_check_mode | intros; apply check_mode_result |].
  apply checks_step;
    [apply verdict_check_max_voltage | intros; apply check_max_voltage_result |].
  apply checks_step;
    [apply verdict_check_field_type | intros; apply check_field_type_result |].
  apply checks_step; [apply verdict_check_ng | intros; apply check_ng_result |].
  apply checks_step; [apply verdict_check_symmetry | intros; apply check_symmetry_result |].
  apply checks_step; [apply verdict_check_dx_mm | intros; apply check_dx_mm_result |].
  apply checks_step; [apply verdict_check_dy_mm | intros; apply check_dy_mm_result |].
  destruct (from_option spacing_test true (kw_dz_mm k)) eqn:Ht.
  - by apply (assert_checked_pass _ _ spacing_test);
      [apply verdict_check_dz_mm | intros; apply check_dz_mm_result |].
  - by apply (assert_checked_fail _ _ spacing_test);
      [apply verdict_check_dz_mm | intros; apply check_dz_mm_result |].
Qed.


Lemma set_aliases_run k s :
  match kw_mirror k with
  | Some mirror =>
      if given (kw_mirror_x k) || given (kw_mirror_y k) || given (kw_mirror_z k)
      then exists msg, set_aliases k s = (s, Raise (AssertionError (Some msg)))
      else match match_xyz mirror with
           | Some g => set_aliases k s = (s, Ok (Some g.1.1, Some g.1.2, Some g.2))
           | None => exists msg, set_aliases k s = (s, Raise (AssertionError (Some msg)))
           end
  | None => set_aliases k s = (s, Ok (kw_mirror_x k, kw_mirror_y k, kw_mirror_z k))
  end.
Proof.
  unfold set_aliases. destruct (kw_mirror k) as [mirror|]; [|done].
  destruct (kw_mirror_x k); [by eexists|]. destruct (kw_mirror_y k); [by eexists|].
  destruct (kw_mirror_z k); [by eexists|]. simpl.
  unfold _parse_mirror, bind, assert_none, ret.
  destruct (match_xyz mirror); [done | by eexists].
Qed.

Lemma check_mirror_flags mx my mz s : check_mirror (mirror_str mx my mz) s = (s, Ok true).
Proof. unfold check_mirror. by rewrite match_xyz_mirror_str. Qed.

Lemma set_mirror_flags_run mx my mz s :
  exists g, set_mirror_flags mx my mz s = (s, Ok g) /\
    default (_mirror_x s) g.1.1 = default (_mirror_x s) mx /\
    default (_mirror_y s) g.1.2 = default (_mirror_y s) my /\
    default (_mirror_z s) g.2 = default (_mirror_z s) mz.
Proof.
  unfold set_mirror_flags. destruct (given mx || given my || given mz).
  - exists (Some (default (_mirror_x s) mx), Some (default (_mirror_y s) my),
            Some (default (_mirror_z s) mz)).
    split; [|done].
    transitivity ((ok <- check_mirror (mirror_str (default (_mirror_x s) mx)
                                         (default (_mirror_y s) my)
                                         (default (_mirror_z s) mz)) ;;
                   assert_ ok error ;;;
                   ret (Some (default (_mirror_x s) mx), Some (default (_mirror_y s) my),
                        Some (default (_mirror_z s) mz))) s); [done|].
    by rewrite (bind_ok _ _ _ _ _ (check_mirror_flags _ _ _ s)).
  - by eexists.
Qed.

Lemma set_dimensions_run k s :
  if (if given (kw_nx k) || given (kw_ny k) || given (kw_nz k)
      then size_test (default (_nx s) (kw_nx k)) (default (_ny s) (kw_ny k))
                     (default (_nz s) (kw_nz k))
      else true)
  then exists d, set_dimensions k s = (s, Ok d) /\
         default (_nx s) d.1.1 = default (_nx s) (kw_nx k) /\
         default (_ny s) d.1.2 = default (_ny s) (kw_ny k) /\
         default (_nz s) d.2 = default (_nz s) (kw_nz k)
  else exists msg, set_dimensions k s
                   = (set_error (Some msg) s, Raise (AssertionError (Some msg))).
Proof.
  unfold set_dimensions. destruct (given (kw_nx k) || given (kw_ny k) || given (kw_nz k)).
  - set (nx := default (_nx s) (kw_nx k)). set (ny := default (_ny s) (kw_ny k)).
    set (nz := default (_nz s) (kw_nz k)).
    pose proof (check_size_result nx ny nz s) as Hr.
    assert (forall rest : bool -> M (option Z * option Z * option Z),
              (s0 <- get ;;
               let nx := default (_nx s0) (kw_nx k) in
               let ny := default (_ny s0) (kw_ny k) in
               let nz := default (_nz s0) (kw_nz k) in
               ok <- check_size (Some nx) (Some ny) (Some nz) ;; rest ok) s
              = (ok <- check_size (Some nx) (Some ny) (Some nz) ;; rest ok) s) as Hget
      by done.
    destruct (size_test nx ny nz).
    + exists (Some nx, Some ny, Some nz). split; [|done].
      transitivity ((ok <- check_size (Some nx) (Some ny) (Some nz) ;;
                     assert_ ok error ;;; ret (Some nx, Some ny, Some nz)) s); [done|].
      by rewrite (bind_ok _ _ _ _ _ (verdict_true _ _ (verdict_check_size _ _ _) Hr)).
    + destruct (verdict_false _ _ (verdict_check_size _ _ _) Hr) as [msg Hm].
      exists msg.
      transitivity ((ok <- check_size (Some nx) (Some ny) (Some nz) ;;
                     assert_ ok error ;;; ret (Some nx, Some ny, Some nz)) s); [done|].
      by rewrite (bind_ok _ _ _ _ _ Hm).
  - by eexists.
Qed.

Lemma assign_run {A} (o : option A) (f : A -> PA -> PA) s :
  assign o f s = (update o f s, Ok tt).
Proof. by destruct o. Qed.

Lemma update_dims {A} (o : option A) (f : A -> PA -> PA) s :
  (forall v s, (_nx (f v s), _ny (f v s), _nz (f v s)) = (_nx s, _ny s, _nz s)) ->
  (_nx (update o f s), _ny (update o f s), _nz (update o f s)) = (_nx s, _ny s, _nz s).
Proof. intros Hf. destruct o; [apply Hf | done]. Qed.

Lemma set_assign_run k fa nx ny nz sym mx my mz s :
  config_test nx ny nz sym my mz = true ->
  set_assign k fa nx ny nz sym mx my mz s
  = (set_effect k fa (mkPlan nx ny nz sym mx my mz) s, Ok tt).
Proof.
  intros Hc. unfold set_assign, set_effect. cbn [p_nx p_ny p_nz p_symmetry p_mirror_x
    p_mirror_y p_mirror_z].
  do 5 (erewrite bind_ok; [|apply assign_run]).
  do 4 (erewrite bind_ok; [|reflexivity]).
  do 3 (erewrite bind_ok; [|apply assign_run]).
  unfold bind at 1, get at 1.
  match goal with |- when_ _ _ ?t = _ => set (s1 := t) end.
  assert ((_nx s1, _ny s1, _nz s1) = (_nx s, _ny s, _nz s)) as [= -> -> ->].
  { unfold s1. destruct (kw_dz_mm k), (kw_dy_mm k), (kw_dx_mm k), fa, (kw_ng k),
      (kw_field_type k), (kw_max_voltage k), (kw_mode k); reflexivity. }
  destruct (negb (nx =? _nx s) || negb (ny =? _ny s) || negb (nz =? _nz s)); [|done].
  simpl when_. pose proof (size_outcome nx ny (Some nz) s1) as Ho. unfold outcome in Ho.
  assert ((_symmetry s1, _mirror_y s1, _mirror_z s1) = (sym, my, mz)) as [= E1 E2 E3].
  { unfold s1. destruct (kw_dz_mm k), (kw_dy_mm k), (kw_dx_mm k); reflexivity. }
  rewrite E1, E2, E3 in Ho. simpl default in Ho. by rewrite Hc in Ho.
Qed.

Lemma set_checked_run k fa mx my mz s :
  match set_plan_with k s mx my mz with
  | Some p => set_checked k fa mx my mz s = (set_effect k fa p s, Ok tt)
  | None => set_failed (set_checked k fa mx my mz s) s
  end.
Proof.
  remember (set_checked k fa mx my mz s) as r eqn:Hr.
  unfold set_plan_with, set_checked in *.
  cbn [p_nx p_ny p_nz p_symmetry p_mirror_x p_mirror_y p_mirror_z].
  pose proof (set_checks_run k s) as Hc. destruct (set_checks_test k).
  2:{ destruct Hc as [msg Hm]. exists msg. right. by rewrite (bind_raise _ _ _ _ _ Hm) in Hr. }
  rewrite (bind_ok _ _ _ _ _ Hc) in Hr. clear Hc.
  destruct (set_mirror_flags_run mx my mz s) as (g & Hg & Hgx & Hgy & Hgz).
  rewrite (bind_ok _ _ _ _ _ Hg) in Hr. clear Hg.
  pose proof (set_dimensions_run k s) as Hd.
  destruct (if given (kw_nx k) || given (kw_ny k) || given (kw_nz k) then _ else true).
  2:{ destruct Hd as [msg Hm]. exists msg. right. by rewrite (bind_raise _ _ _ _ _ Hm) in Hr. }
  destruct Hd as (d & Hd & Hdx & Hdy & Hdz).
  rewrite (bind_ok _ _ _ _ _ Hd) in Hr. clear Hd.
  unfold bind at 1, get at 1 in Hr. cbv zeta in Hr.
  rewrite Hgx, Hgy, Hgz, Hdx, Hdy, Hdz in Hr.
  simpl andb.
  match type of Hr with context [config_check ?a ?b ?c ?d ?e ?f ?g] =>
    pose proof (config_check_test a b c d e f g s) as Hc;
    pose proof (verdict_config_check a b c d e f g) as Hv end.
  destruct (config_test _ _ _ _ _ _) eqn:Ht.
  - rewrite (bind_ok _ _ _ _ _ (verdict_true _ _ Hv Hc)) in Hr.
    unfold assert_ in Hr. rewrite (bind_ok _ _ s s tt) in Hr by done.
    rewrite Hr. by apply set_assign_run.
  - destruct (verdict_false _ _ Hv Hc) as [msg Hm]. exists msg. right.
    by rewrite (bind_ok _ _ _ _ _ Hm) in Hr.
Qed.

Lemma set_outcome k fa ep fs s :
  match set_plan k s with
  | Some p => set_ k fa ep None fs s = (set_effect k fa p s, Ok tt)
  | None => set_failed (set_ k fa ep None fs s) s
  end.
Proof.
  remember (set_ k fa ep None fs s) as r eqn:Hr.
  unfold set_plan, set_mirrors, set_ in *.
  pose proof (set_aliases_run k s) as Ha.
  destruct (kw_mirror k) as [mirror|].
  - destruct (given (kw_mirror_x k) || given (kw_mirror_y k) || given (kw_mirror_z k)).
    { destruct Ha as [msg Hm]. exists msg. left. by rewrite (bind_raise _ _ _ _ _ Hm) in Hr. }
    destruct (match_xyz mirror) as [g|].
    2:{ destruct Ha as [msg Hm]. exists msg. left.
        by rewrite (bind_raise _ _ _ _ _ Hm) in Hr. }
    rewrite (bind_ok _ _ _ _ _ Ha) in Hr. rewrite Hr. apply set_checked_run.
  - rewrite (bind_ok _ _ _ _ _ Ha) in Hr. rewrite Hr. apply set_checked_run.
Qed.

End SetMany.

(** *** What [set] guarantees *)

Lemma proj_update {A B} (proj : PA -> B) (o : option A) (f : A -> PA -> PA) s :
  (forall v s, proj (f v s) = proj s) -> proj (update o f s) = proj s.
Proof. intros Hf. destruct o; [apply Hf | done]. Qed.

Lemma proj_updated {A} (proj : PA -> A) (o : option A) (f : A -> PA -> PA) s :
  (forall v s, proj (f v s) = v) -> proj (update o f s) = default (proj s) o.
Proof. intros Hf. destruct o; [apply Hf | done]. Qed.

Section SetGuarantees.
Context `{PyFloat}.

(** The attributes of the instance that [set] leaves, before a resize. *)
Lemma set_effect_attributes k fa p s :
  let s' := set_effect k fa p s in
  _mode s' = default (_mode s) (kw_mode k) /\
  _max_voltage s' = default (_max_voltage s) (kw_max_voltage k) /\
  _field_type s' = default (_field_type s) (kw_field_type k) /\
  _ng s' = default (_ng s) (kw_ng k) /\
  _dx_mm s' = default (_dx_mm s) (kw_dx_mm k) /\
  _dy_mm s' = default (_dy_mm s) (kw_dy_mm k) /\
  _dz_mm s' = default (_dz_mm s) (kw_dz_mm k) /\
  _symmetry s' = p_symmetry p /\
  _mirror_y s' = p_mirror_y p /\ _mirror_z s' = p_mirror_z p.
Proof.
  unfold set_effect.
  destruct (negb (p_nx p =? _nx s) || negb (p_ny p =? _ny s) || negb (p_nz p =? _nz s));
    cbv zeta; unfold resized; cbn [_mode _max_voltage _field_type _ng _dx_mm _dy_mm _dz_mm
      _symmetry _mirror_y _mirror_z set_points set_dims];
    (split_and!;
     repeat first
       [ reflexivity
       | rewrite (proj_updated _mode) by done
       | rewrite (proj_updated _max_voltage) by done
       | rewrite (proj_updated _field_type) by done
       | rewrite (proj_updated _ng) by done
       | rewrite (proj_updated _dx_mm) by done
       | rewrite (proj_updated _dy_mm) by done
       | rewrite (proj_updated _dz_mm) by done
       | rewrite (proj_update _mode) by done
       | rewrite (proj_update _max_voltage) by done
       | rewrite (proj_update _field_type) by done
       | rewrite (proj_update _ng) by done
       | rewrite (proj_update _dx_mm) by done
       | rewrite (proj_update _dy_mm) by done
       | rewrite (proj_update _dz_mm) by done
       | rewrite (proj_update _symmetry) by done
       | rewrite (proj_update _mirror_y) by done
       | rewrite (proj_update _mirror_z) by done
       | progress cbn [_mode _max_voltage _field_type _ng _dx_mm _dy_mm _dz_mm
                       _symmetry _mirror_y _mirror_z set_mirror_x set_mirror_y
                       set_mirror_z set_symmetry] ]).
Qed.

Lemma set_effect_store k fa p s :
  let s' := set_effect k fa p s in
  let changed :=
    negb (p_nx p =? _nx s) || negb (p_ny p =? _ny s) || negb (p_nz p =? _nz s) in
  (_nx s', _ny s', _nz s') = (p_nx p, p_ny p, p_nz p) /\
  _points s' = if changed then list_times 0%Q (p_nx p * p_ny p * p_nz p) else _points s.
Proof.
  unfold set_effect. cbv zeta.
  destruct (negb (p_nx p =? _nx s) || negb (p_ny p =? _ny s) || negb (p_nz p =? _nz s))
    eqn:E.
  - done.
  - apply orb_false_elim in E as [E Ez]. apply orb_false_elim in E as [Ex Ey].
    apply negb_false_iff, Z.eqb_eq in Ex, Ey, Ez. rewrite Ex, Ey, Ez.
    split.
    + rewrite !(proj_update (fun s => (_nx s, _ny s, _nz s))) by done. simpl.
      by rewrite !(proj_update (fun s => (_nx s, _ny s, _nz s))) by done.
    + rewrite !(proj_update _points) by done. simpl.
      by rewrite !(proj_update _points) by done.
Qed.


Lemma set_plan_inv k s p :
  set_plan k s = Some p ->
  set_checks_test k = true /\
  config_test (p_nx p) (p_ny p) (p_nz p) (p_symmetry p) (p_mirror_y p) (p_mirror_z p)
  = true /\
  (p_nx p, p_ny p, p_nz p)
  = (default (_nx s) (kw_nx k), default (_ny s) (kw_ny k), default (_nz s) (kw_nz k)).
Proof.
  unfold set_plan. destruct (set_mirrors k) as [g|]; [|done]. unfold set_plan_with.
  cbn [p_nx p_ny p_nz p_symmetry p_mirror_x p_mirror_y p_mirror_z].
  destruct (set_checks_test k); [|done]. simpl andb.
  destruct (if given (kw_nx k) || given (kw_ny k) || given (kw_nz k) then _ else true);
    [|done]. simpl andb.
  destruct (config_test _ _ _ _ _ _) eqn:Ht; [|done]. by intros [= <-].
Qed.

Lemma set_went_through k fa ep fs s s' :
  set_ k fa ep None fs s = (s', Ok tt) ->
  exists p, set_plan k s = Some p /\ s' = set_effect k fa p s.
Proof.
  intros Hs. pose proof (set_outcome k fa ep fs s) as Ho.
  destruct (set_plan k s) as [p|].
  - exists p. split; [done|]. congruence.
  - destruct Ho as [msg [Hm|Hm]]; congruence.
Qed.

(** X9.  [set] is all or nothing: when it raises, it raises
    [AssertionError], and the instance is as it was but for the last-error
    slot, which holds the message raised when a checker refused an
    argument.  (The comment of the source, "no throws below this point",
    holds: once the checks are through, the resize cannot fail.) *)
Theorem set_is_all_or_nothing (k : kwargs) (fa ep : option bool)
    (fs : gmap string (list Byte.byte)) (s s' : PA) (e : exn) :
  set_ k fa ep None fs s = (s', Raise e) ->
  exists msg, e = AssertionError (Some msg) /\
              (s' = s \/ s' = set_error (Some msg) s).
Proof.
  intros Hs. pose proof (set_outcome k fa ep fs s) as Ho.
  destruct (set_plan k s) as [p|]; [congruence|].
  destruct Ho as [msg [Hm|Hm]]; exists msg; rewrite Hm in Hs;
    injection Hs as <- <-; auto.
Qed.

(** X10.  [set] keeps the class invariant: called on an instance that the
    checker accepts and whose store has one value per point, it leaves such
    an instance when it returns. *)
Theorem set_keeps_the_instance_valid (k : kwargs) (fa ep : option bool)
    (fs : gmap string (list Byte.byte)) (s s' : PA) :
  well_formed s -> store_ok s ->
  set_ k fa ep None fs s = (s', Ok tt) ->
  well_formed s' /\ store_ok s'.
Proof.
  intros Hw Hst Hs. destruct (set_went_through _ _ _ _ _ _ Hs) as (p & Hp & ->).
  apply set_plan_inv in Hp as (Hc & Hcfg & Hdims).
  pose proof (set_effect_attributes k fa p s) as Ha. cbv zeta in Ha.
  destruct Ha as (Hmode & Hmv & Hft & Hng & Hdx & Hdy & Hdz & Hsym & Hmy & Hmz).
  pose proof (set_effect_store k fa p s) as Hb. cbv zeta in Hb.
  destruct Hb as [Hd Hpts]. injection Hd as Hnx Hny Hnz.
  apply well_formed_config in Hw as (Wmode & Wmv & Wft & Wng & Wdx & Wdy & Wdz & Wcfg).
  unfold set_checks_test in Hc. repeat (apply andb_prop in Hc as [Hc ?]).
  split.
  - apply well_formed_config.
    rewrite Hmode, Hmv, Hft, Hng, Hdx, Hdy, Hdz, Hsym, Hmy, Hmz, Hnx, Hny, Hnz.
    split_and!; try done.
    + destruct (kw_mode k); [by apply mode_test_ok | done].
    + destruct (kw_max_voltage k) as [v|]; [|done]. simpl in *.
      apply Qnot_lt_le. intros Hlt. apply Qltb_lt in Hlt.
      by destruct (Qltb v 0).
    + destruct (kw_field_type k); [by apply name_test_ok | done].
    + destruct (kw_ng k); [simpl in *; lia | done].
    + destruct (kw_dx_mm k); [by apply spacing_test_ok | done].
    + destruct (kw_dy_mm k); [by apply spacing_test_ok | done].
    + destruct (kw_dz_mm k); [by apply spacing_test_ok | done].
  - unfold store_ok in *. rewrite Hpts, Hnx, Hny, Hnz.
    destruct (negb (p_nx p =? _nx s) || negb (p_ny p =? _ny s) || negb (p_nz p =? _nz s))
      eqn:E.
    + unfold list_times. rewrite length_replicate.
      apply config_test_ok in Hcfg as [(? & ? & ? & _) _]. lia.
    + apply orb_false_elim in E as [E Ez]. apply orb_false_elim in E as [Ex Ey].
      apply negb_false_iff, Z.eqb_eq in Ex, Ey, Ez. by rewrite Ex, Ey, Ez.
Qed.

Lemma set_same_attributes s :
  set_mirror_z (_mirror_z s)
    (set_mirror_y (_mirror_y s) (set_mirror_x (_mirror_x s) (set_symmetry (_symmetry s) s)))
  = s.
Proof. by destruct s. Qed.

(** X11.  Writing a dimension back: [nx(nx())] goes through [size] and
    zeroes the array, whereas [set(nx = nx())] sees that no dimension has
    changed and leaves the instance, points included, as it is. *)
Theorem nx_setter_clears_where_set_keeps (s : PA) (fs : gmap string (list Byte.byte)) :
  well_formed s ->
  nx_set (_nx s) s = (resized (_nx s) (_ny s) (_nz s) s, Ok tt) /\
  set_ (with_size (Some (_nx s)) None None no_kw) None None None fs s = (s, Ok tt).
Proof.
  intros Hw. apply well_formed_config in Hw as (_ & _ & _ & _ & _ & _ & _ & Hcfg).
  split.
  - unfold nx_set. unfold bind at 1, get at 1.
    pose proof (config_assignment (_nx s) (_ny s) (_nz s) (_symmetry s) (_mirror_x s)
                  (_mirror_y s) (_mirror_z s)
                  (s0 <- get ;; size (_nx s) (_ny s0) (Some (_nz s0))) s
                  (resized (_nx s) (_ny s) (_nz s) s)) as Ho.
    unfold outcome in Ho. rewrite Hcfg in Ho. apply Ho. intros _.
    pose proof (size_outcome (_nx s) (_ny s) (Some (_nz s)) s) as Hz.
    unfold outcome in Hz. simpl default in Hz. by rewrite Hcfg in Hz.
  - pose proof (set_outcome (with_size (Some (_nx s)) None None no_kw) None None fs s) as Ho.
    unfold set_plan, set_mirrors, set_plan_with, set_checks_test in Ho.
    cbn [kw_mode kw_field_type kw_symmetry kw_mirror kw_mirror_x kw_mirror_y kw_mirror_z
         kw_nx kw_ny kw_nz kw_max_voltage kw_ng kw_dx_mm kw_dy_mm kw_dz_mm with_size no_kw
         from_option id given p_nx p_ny p_nz p_symmetry p_mirror_x p_mirror_y p_mirror_z
         fst snd andb orb negb] in Ho.
    change (bool_decide (None = Some "cylindrical")) with false in Ho.
    cbn [andb fst snd from_option id] in Ho.
    assert (size_test (_nx s) (_ny s) (_nz s) = true) as Hsz.
    { unfold config_test in Hcfg. by repeat (apply andb_prop in Hcfg as [Hcfg ?]). }
    rewrite Hsz, Hcfg in Ho. cbn [andb] in Ho. rewrite Ho. f_equal.
    unfold set_effect. cbn [kw_mode kw_field_type kw_max_voltage kw_ng kw_dx_mm kw_dy_mm
      kw_dz_mm with_size no_kw update p_nx p_ny p_nz p_symmetry p_mirror_x p_mirror_y
      p_mirror_z].
    rewrite !Z.eqb_refl. cbn [negb orb]. apply set_same_attributes.
Qed.

End SetGuarantees.

Lemma set_is_all_or_nothing_witness :
  set_ (with_size (Some 2) None None no_kw) None None None ∅ plate3
  = (set_error (Some "nx value (2) must be no less than 3.") plate3,
     Raise (AssertionError (Some "nx value (2) must be no less than 3."))) /\
  exists msg,
    AssertionError (Some "nx value (2) must be no less than 3.") = AssertionError (Some msg) /\
    (set_error (Some "nx value (2) must be no less than 3.") plate3 = plate3 \/
     set_error (Some "nx value (2) must be no less than 3.") plate3
     = set_error (Some msg) plate3).
Proof.
  assert (set_ (with_size (Some 2) None None no_kw) None None None ∅ plate3
          = (set_error (Some "nx value (2) must be no less than 3.") plate3,
             Raise (AssertionError (Some "nx value (2) must be no less than 3."))))
    as Hs by (by vm_compute).
  split; [exact Hs|].
  exact (set_is_all_or_nothing _ None None ∅ plate3 _ _ Hs).
Defined.

Lemma set_keeps_the_instance_valid_witness :
  well_formed plate3 /\ store_ok plate3 /\
  set_ (with_symmetry "cylindrical" (with_size (Some 4) None None no_kw))
       (Some true) None None ∅ plate3
  = (set_fast_adjustable true (resized 4 3 1 (set_symmetry "cylindrical" plate3)), Ok tt) /\
  well_formed (set_fast_adjustable true (resized 4 3 1 (set_symmetry "cylindrical" plate3))) /\
  store_ok (set_fast_adjustable true (resized 4 3 1 (set_symmetry "cylindrical" plate3))).
Proof.
  assert (store_ok plate3) as Hst by (by vm_compute).
  assert (set_ (with_symmetry "cylindrical" (with_size (Some 4) None None no_kw))
               (Some true) None None ∅ plate3
          = (set_fast_adjustable true (resized 4 3 1 (set_symmetry "cylindrical" plate3)),
             Ok tt)) as Hs by (by vm_compute).
  split; [exact well_formed_plate3|]. split; [exact Hst|]. split; [exact Hs|].
  exact (set_keeps_the_instance_valid _ (Some true) None ∅ plate3 _
           well_formed_plate3 Hst Hs).
Defined.

Lemma nx_setter_clears_where_set_keeps_witness :
  well_formed plate3 /\
  nx_set (_nx plate3) plate3 = (resized 3 3 1 plate3, Ok tt) /\
  set_ (with_size (Some (_nx plate3)) None None no_kw) None None None ∅ plate3
  = (plate3, Ok tt).
Proof.
  split; [exact well_formed_plate3|].
  exact (nx_setter_clears_where_set_keeps plate3 ∅ well_formed_plate3).
Defined.


(** ** The point store *)

Lemma index_inj s x y z x' y' z' :
  in_bounds s x y z -> in_bounds s x' y' z' ->
  index s x y z = index s x' y' z' -> x = x' /\ y = y' /\ z = z'.
Proof.
  unfold in_bounds, index. intros (Hx & Hy & Hz) (Hx' & Hy' & Hz') He.
  assert (z * _ny s + y = z' * _ny s + y') as Ha.
  { destruct (Z.lt_trichotomy (z * _ny s + y) (z' * _ny s + y')) as [Hlt|[Heq|Hgt]];
      [exfalso | done | exfalso]; nia. }
  assert (x = x') as -> by nia.
  assert (z = z') as ->.
  { destruct (Z.lt_trichotomy z z') as [Hlt|[Heq|Hgt]]; [exfalso | done | exfalso]; nia. }
  split; [done|]. split; [lia | done].
Qed.

Lemma inside_false s x y z :
  inside x y z s = (s, Ok false) <-> ~ in_bounds s x y z.
Proof.
  rewrite <- inside_true. unfold inside, bind, get, ret.
  destruct (_ && _); split; try done; intros Hn; by destruct Hn.
Qed.

Lemma Qgtb_le a b : Qgtb a b = false <-> (a <= b)%Q.
Proof.
  unfold Qgtb, Qltb. rewrite negb_false_iff. apply Qle_bool_iff.
Qed.

Lemma rescaled_reads m m' v :
  (m <= m')%Q ->
  Qgtb (rescaled m ((-2) * m + 2 * m') v) m' = Qgtb v m /\
  ((if Qgtb v m then rescaled m ((-2) * m + 2 * m') v - 2 * m'
    else rescaled m ((-2) * m + 2 * m') v) ==
   (if Qgtb v m then v - 2 * m else v))%Q.
Proof.
  intros Hm. unfold rescaled. destruct (Qgtb v m) eqn:E.
  - apply Qgtb_gt in E. split; [apply Qgtb_true; lra | lra].
  - apply Qgtb_le in E. split; [apply Qgtb_false; lra | lra].
Qed.

Section PointStore.
Context `{PyFloat}.

Lemma assert_inside_fails s x y z :
  ~ in_bounds s x y z -> assert_inside x y z s = (s, Raise (out_of_bounds s x y z)).
Proof.
  intros Hb. apply inside_false in Hb. unfold assert_inside.
  by rewrite (bind_ok _ _ _ _ _ Hb).
Qed.

(** X12.  Every accessor of a point refuses coordinates outside the grid:
    it raises [AssertionError] with the message of [_fail_point], which
    names the point and the dimensions, and leaves the instance as it is. *)
Theorem access_out_of_bounds_is_refused (s : PA) (x y z : Z) (b : bool) (v : Q)
    (o : option Q) :
  inside x y z s = (s, Ok false) ->
  raw x y z s = (s, Raise (out_of_bounds s x y z)) /\
  raw_set x y z v s = (s, Raise (out_of_bounds s x y z)) /\
  electrode x y z s = (s, Raise (out_of_bounds s x y z)) /\
  electrode_set x y z b s = (s, Raise (out_of_bounds s x y z)) /\
  potential x y z s = (s, Raise (out_of_bounds s x y z)) /\
  potential_set x y z v s = (s, Raise (out_of_bounds s x y z)) /\
  point x y z s = (s, Raise (out_of_bounds s x y z)) /\
  point_set x y z b o s = (s, Raise (out_of_bounds s x y z)).
Proof.
  intros Hb. apply inside_false, assert_inside_fails in Hb.
  unfold raw, raw_set, electrode, electrode_set, potential, potential_set, point,
    point_set.
  by rewrite !(bind_raise _ _ _ _ _ Hb).
Qed.

Lemma raised_ok s p :
  store_ok s -> (0 <= _max_voltage s)%Q ->
  when_ (Qgtb p (_max_voltage s)) (max_voltage_set (p * 2)%Q) s = (raised p s, Ok tt).
Proof.
  intros Hs Hm. unfold raised. destruct (Qgtb p (_max_voltage s)) eqn:E; [|done].
  simpl when_. apply Qgtb_gt in E. apply max_voltage_set_ok; [done | lra].
Qed.

Lemma raised_dims s p :
  _nx (raised p s) = _nx s /\ _ny (raised p s) = _ny s /\ _nz (raised p s) = _nz s /\
  length (_points (raised p s)) = length (_points s).
Proof.
  unfold raised. destruct (Qgtb _ _); simpl; [|done].
  by rewrite length_fmap.
Qed.

Lemma raised_max s p :
  (0 <= _max_voltage s)%Q ->
  (_max_voltage s <= _max_voltage (raised p s))%Q /\ (p <= _max_voltage (raised p s))%Q.
Proof.
  intros Hm. unfold raised. destruct (Qgtb _ _) eqn:E; simpl.
  - apply Qgtb_gt in E. lra.
  - apply Qgtb_le in E. lra.
Qed.

Lemma write_ok s pos (e : bool) p :
  store_ok s -> (0 <= _max_voltage s)%Q ->
  0 <= pos < Z.of_nat (length (_points s)) ->
  ((when_ (Qgtb p (_max_voltage s)) (max_voltage_set (p * 2)%Q) ;;;
    points_set pos p ;;;
    if e then
      v <- points_get pos ;;
      s <- get ;;
      points_set pos (v + 2 * _max_voltage s)%Q
    else ret tt) : M unit) s = (wrote pos e p s, Ok tt).
Proof.
  intros Hs Hm Hp. rewrite (bind_ok _ _ _ _ _ (raised_ok s p Hs Hm)).
  destruct (raised_dims s p) as (_ & _ & _ & Hl).
  rewrite (bind_ok _ _ _ _ _ (points_set_ok (raised p s) pos p ltac:(lia))).
  unfold wrote. destruct e; [|done].
  set (s1 := set_points _ (raised p s)).
  assert (_points s1 !! Z.to_nat pos = Some p) as Hv.
  { unfold s1. simpl. apply list_lookup_insert_eq. lia. }
  rewrite (bind_ok _ _ _ _ _ (points_get_ok s1 pos p (proj1 Hp) Hv)).
  rewrite (bind_ok _ _ s1 s1 s1) by done.
  rewrite points_set_ok by (unfold s1; simpl; rewrite length_insert; lia).
  unfold s1. simpl. by rewrite list_insert_insert_eq.
Qed.

Lemma in_bounds_dec s x y z : in_bounds s x y z \/ ~ in_bounds s x y z.
Proof. unfold in_bounds. lia. Qed.

Lemma point_inv s x y z s' r : point x y z s = (s', Ok r) -> in_bounds s x y z.
Proof.
  intros Hp. destruct (in_bounds_dec s x y z) as [|Hn]; [done|].
  apply assert_inside_fails in Hn. unfold point in Hp.
  by rewrite (bind_raise _ _ _ _ _ Hn) in Hp.
Qed.

Lemma point_read s x y z e q :
  store_ok s -> point x y z s = (s, Ok (e, q)) ->
  exists v, in_bounds s x y z /\ _points s !! Z.to_nat (index s x y z) = Some v /\
    e = Qgtb v (_max_voltage s) /\
    q = if Qgtb v (_max_voltage s) then (v - 2 * _max_voltage s)%Q else v.
Proof.
  intros Hs Hp. pose proof (point_inv _ _ _ _ _ _ Hp) as Hb.
  destruct (stored _ _ _ _ Hs Hb) as [v Hv]. exists v.
  rewrite (point_ok _ _ _ _ _ Hb Hv) in Hp. by simplify_eq.
Qed.

Lemma wrote_reads s x y z (e : bool) p :
  store_ok s -> (0 <= _max_voltage s)%Q -> in_bounds s x y z ->
  (e = true -> (- _max_voltage s < p)%Q) ->
  exists p',
    point x y z (wrote (index s x y z) e p s) = (wrote (index s x y z) e p s, Ok (e, p')) /\
    (p' == p)%Q /\
    forall x' y' z' e' q,
      (x', y', z') <> (x, y, z) -> point x' y' z' s = (s, Ok (e', q)) ->
      exists q',
        point x' y' z' (wrote (index s x y z) e p s)
        = (wrote (index s x y z) e p s, Ok (e', q')) /\ (q' == q)%Q.
Proof.
  intros Hs Hm Hb He.
  destruct (raised_dims s p) as (Hx & Hy & Hz & Hl).
  destruct (raised_max s p Hm) as [Hmm Hpm].
  set (s' := wrote (index s x y z) e p s).
  assert (forall a b c, in_bounds s a b c -> in_bounds s' a b c) as Hin.
  { intros a b c. unfold in_bounds, s', wrote. simpl. by rewrite Hx, Hy, Hz. }
  assert (forall a b c, index s' a b c = index s a b c) as Hidx.
  { intros a b c. unfold index, s', wrote. simpl. by rewrite Hx, Hy. }
  pose proof (index_bounds _ _ _ _ Hb) as Hi. unfold store_ok in Hs.
  assert (_max_voltage s' = _max_voltage (raised p s)) as HM by done.
  set (w := if e then (p + 2 * _max_voltage (raised p s))%Q else p).
  assert (_points s' !! Z.to_nat (index s' x y z) = Some w) as Hw.
  { rewrite Hidx. unfold s', wrote. simpl. apply list_lookup_insert_eq. lia. }
  assert (Qgtb w (_max_voltage s') = e) as Hflag.
  { rewrite HM. unfold w. destruct e.
    - apply Qgtb_true. specialize (He eq_refl). lra.
    - by apply Qgtb_false. }
  exists (if e then (w - 2 * _max_voltage s')%Q else w). split; [|split].
  - rewrite (point_ok _ _ _ _ _ (Hin _ _ _ Hb) Hw). by rewrite Hflag.
  - rewrite HM. unfold w. destruct e; lra.
  - intros x' y' z' e' q Hne Hp.
    destruct (point_read _ _ _ _ _ _ Hs Hp) as (v & Hb' & Hv & -> & ->).
    assert (Z.to_nat (index s x y z) <> Z.to_nat (index s x' y' z')) as Hni.
    { intros Heq. apply Hne.
      pose proof (index_bounds _ _ _ _ Hb').
      destruct (index_inj s x y z x' y' z' Hb Hb') as (-> & -> & ->); [lia | done]. }
    assert (exists v', _points s' !! Z.to_nat (index s' x' y' z') = Some v' /\
              Qgtb v' (_max_voltage s') = Qgtb v (_max_voltage s) /\
              ((if Qgtb v (_max_voltage s) then v' - 2 * _max_voltage s' else v') ==
               (if Qgtb v (_max_voltage s) then v - 2 * _max_voltage s else v))%Q)
      as (v' & Hv' & Hf & Hq).
    { rewrite Hidx, HM. unfold s', wrote. simpl.
      rewrite list_lookup_insert_ne by done.
      unfold raised. destruct (Qgtb p (_max_voltage s)) eqn:E; simpl.
      - rewrite list_lookup_fmap, Hv. simpl. eexists. split; [done|].
        apply rescaled_reads. apply Qgtb_gt in E. lra.
      - exists v. split; [done|]. split; [done|]. reflexivity. }
    eexists. split.
    + rewrite (point_ok _ _ _ _ _ (Hin _ _ _ Hb') Hv'). by rewrite Hf.
    + exact Hq.
Qed.

Lemma point_set_ok s x y z e p :
  store_ok s -> (0 <= _max_voltage s)%Q -> in_bounds s x y z ->
  point_set x y z e (Some p) s = (wrote (index s x y z) e p s, Ok tt).
Proof.
  intros Hs Hm Hb. unfold point_set.
  rewrite (bind_ok _ _ _ _ _ (assert_inside_ok s x y z Hb)).
  rewrite (bind_ok _ _ s s (index s x y z)) by done.
  rewrite (bind_ok _ _ s s s) by done.
  apply write_ok; [done | done |].
  apply index_bounds in Hb. unfold store_ok in Hs. lia.
Qed.

Lemma potential_set_ok s x y z v p :
  store_ok s -> (0 <= _max_voltage s)%Q -> in_bounds s x y z ->
  _points s !! Z.to_nat (index s x y z) = Some v ->
  potential_set x y z p s
  = (wrote (index s x y z) (Qgtb v (_max_voltage s)) p s, Ok tt).
Proof.
  intros Hs Hm Hb Hv. unfold potential_set.
  rewrite (bind_ok _ _ _ _ _ (assert_inside_ok s x y z Hb)).
  rewrite (bind_ok _ _ s s (index s x y z)) by done.
  rewrite (bind_ok _ _ _ _ _ (points_get_ok s _ v (proj1 (index_bounds _ _ _ _ Hb)) Hv)).
  rewrite (bind_ok _ _ s s s) by done.
  apply write_ok; [done | done |].
  apply index_bounds in Hb. unfold store_ok in Hs. lia.
Qed.



(** X15.  An electrode written with a potential at or below [-max_voltage]
    is not an electrode afterwards: [point(x, y, z, True, p)] succeeds and
    the point reads [(False, p + 2 * max_voltage)]. *)
Theorem electrode_below_the_range_is_lost (s : PA) (x y z : Z) (p : Q) :
  store_ok s -> (0 <= _max_voltage s)%Q ->
  inside x y z s = (s, Ok true) ->
  (p <= - _max_voltage s)%Q ->
  exists s',
    point_set x y z true (Some p) s = (s', Ok tt) /\
    point x y z s' = (s', Ok (false, (p + 2 * _max_voltage s)%Q)).
Proof.
  intros Hs Hm Hb Hp. apply inside_true in Hb.
  eexists. split; [by apply point_set_ok|].
  assert (raised p s = s) as Hr.
  { unfold raised. rewrite Qgtb_false; [done | lra]. }
  unfold wrote. rewrite Hr.
  set (s' := set_points _ s).
  assert (_points s' !! Z.to_nat (index s' x y z) = Some (p + 2 * _max_voltage s)%Q)
    as Hv.
  { unfold s'. simpl. change (index _ x y z) with (index s x y z).
    apply list_lookup_insert_eq. apply index_bounds in Hb. unfold store_ok in Hs. lia. }
  rewrite (point_ok s' x y z _ Hb Hv). simpl _max_voltage.
  rewrite Qgtb_false; [done | lra].
Qed.

(** X16.  [raw(x, y, z, v)] at a point of the grid stores [v] as it is:
    [raw] returns it, every other point keeps its raw value, and nothing
    else of the instance changes; no range is checked and the maximum is
    not adjusted. *)
Theorem raw_write_then_read (s : PA) (x y z : Z) (v : Q) :
  store_ok s -> inside x y z s = (s, Ok true) ->
  exists l,
    raw_set x y z v s = (set_points l s, Ok tt) /\
    raw x y z (set_points l s) = (set_points l s, Ok v) /\
    forall x' y' z' r,
      (x', y', z') <> (x, y, z) -> raw x' y' z' s = (s, Ok r) ->
      raw x' y' z' (set_points l s) = (set_points l s, Ok r).
Proof.
  intros Hs Hb. apply inside_true in Hb.
  pose proof (index_bounds _ _ _ _ Hb) as Hi. unfold store_ok in Hs.
  exists (<[Z.to_nat (index s x y z) := v]> (_points s)). split; [|split].
  - unfold raw_set.
    rewrite (bind_ok _ _ _ _ _ (assert_inside_ok s x y z Hb)).
    rewrite (bind_ok _ _ s s (index s x y z)) by done.
    apply points_set_ok. lia.
  - apply raw_ok; [done|]. simpl. change (index _ x y z) with (index s x y z).
    apply list_lookup_insert_eq. lia.
  - intros x' y' z' r Hne Hr.
    assert (in_bounds s x' y' z') as Hb'.
    { destruct (in_bounds_dec s x' y' z') as [|Hn]; [done|].
      apply assert_inside_fails in Hn. unfold raw in Hr.
      by rewrite (bind_raise _ _ _ _ _ Hn) in Hr. }
    destruct (stored _ _ _ _ Hs Hb') as [r' Hv].
    rewrite (raw_ok _ _ _ _ _ Hb' Hv) in Hr. simplify_eq.
    apply raw_ok; [done|]. simpl. change (index _ x' y' z') with (index s x' y' z').
    rewrite list_lookup_insert_ne; [done|].
    intros Heq. apply Hne.
    pose proof (index_bounds _ _ _ _ Hb').
    destruct (index_inj s x y z x' y' z' Hb Hb') as (-> & -> & ->); [lia | done].
Qed.

Lemma clear_loop (l0 : list Q) :
  forall (n k : nat) s,
    length l0 = (k + n)%nat ->
    _points s = replicate k 0%Q ++ drop k l0 ->
    for_ (seqZ (Z.of_nat k) (Z.of_nat n)) (fun n => points_set n 0%Q) s
    = (set_points (replicate (length l0) 0%Q) s, Ok tt).
Proof.
  induction n as [|n IH]; intros k s Hlen Hp.
  - simpl. rewrite drop_ge, app_nil_r in Hp by lia.
    rewrite Hlen, Nat.add_0_r, <- Hp. by rewrite set_points_same.
  - assert (seqZ (Z.of_nat k) (Z.of_nat (S n))
            = Z.of_nat k :: seqZ (Z.of_nat (S k)) (Z.of_nat n)) as ->.
    { clear IH. rewrite seqZ_cons by lia. do 2 f_equal; lia. }
    assert (k < length l0)%nat as Hk by (clear IH; lia).
    destruct (lookup_lt_is_Some_2 l0 k Hk) as [v Hv].
    set (s1 := set_points (<[k := 0%Q]> (_points s)) s).
    assert (points_set (Z.of_nat k) 0%Q s = (s1, Ok tt)) as Hbody.
    { rewrite points_set_ok, Nat2Z.id; [done|].
      rewrite Hp, length_app, length_replicate, length_drop. clear IH. lia. }
    rewrite (for_cons (Z.of_nat k) _ (fun n => points_set n 0%Q) s s1 Hbody).
    rewrite (IH (S k) s1); [by destruct s | by rewrite Hlen, Nat.add_succ_r |].
    unfold s1. cbn [_points set_points]. rewrite Hp.
    rewrite replicate_S_end, <- app_assoc.
    rewrite insert_app_r_alt; rewrite length_replicate; [|done].
    by rewrite Nat.sub_diag, (drop_S _ _ _ Hv).
Qed.

(** X17.  On an array whose store has one value per point,
    [clear_points()] succeeds and leaves a store of [nx * ny * nz] zeros,
    all else unchanged; every point of the grid then reads [(False, 0.0)]
    if the maximum is not negative. *)
Theorem clear_points_zeroes_the_store (s : PA) :
  store_ok s ->
  clear_points s = (set_points (list_times 0%Q (_nx s * _ny s * _nz s)) s, Ok tt) /\
  ((0 <= _max_voltage s)%Q ->
   forall x y z, inside x y z s = (s, Ok true) ->
     point x y z (set_points (list_times 0%Q (_nx s * _ny s * _nz s)) s)
     = (set_points (list_times 0%Q (_nx s * _ny s * _nz s)) s, Ok (false, 0%Q))).
Proof.
  intros Hs. split.
  - unfold clear_points, num_points.
    rewrite (bind_ok _ _ s s (_nx s * _ny s * _nz s)) by done.
    unfold range, list_times. unfold store_ok in Hs. rewrite <- Hs, Nat2Z.id.
    apply (clear_loop (_points s) (length (_points s)) 0%nat); [done|].
    by rewrite drop_0.
  - intros Hm x y z Hb. apply inside_true in Hb.
    apply point_nonpos; [done | | done | done].
    simpl. change (index _ x y z) with (index s x y z). unfold list_times.
    apply lookup_replicate_2. apply index_bounds in Hb. lia.
Qed.

End PointStore.


(** ** [set] and the maximum *)

Section SetMaxVoltage.
Context `{PyFloat}.

Lemma set_max_voltage_run (s : PA) (m : Q) (fs : gmap string (list Byte.byte)) :
  well_formed s -> (0 <= m)%Q ->
  set_ (with_max_voltage m no_kw) None None None fs s = (set_max_voltage m s, Ok tt).
Proof.
  intros Hw Hm.
  apply well_formed_config in Hw as (_ & _ & _ & _ & _ & _ & _ & Hcfg).
  pose proof (set_outcome (with_max_voltage m no_kw) None None fs s) as Ho.
  unfold set_plan, set_mirrors, set_plan_with in Ho.
  cbn [with_max_voltage no_kw kw_mirror kw_mirror_x kw_mirror_y kw_mirror_z kw_symmetry
       kw_nx kw_ny kw_nz given orb andb negb fst snd from_option id bool_decide
       p_nx p_ny p_nz p_symmetry p_mirror_x p_mirror_y p_mirror_z] in Ho.
  rewrite bool_decide_eq_false_2 in Ho by done.
  cbn [andb fst snd from_option id] in Ho.
  unfold set_checks_test in Ho.
  cbn [with_max_voltage no_kw kw_mode kw_max_voltage kw_field_type kw_ng kw_symmetry
       kw_dx_mm kw_dy_mm kw_dz_mm from_option andb] in Ho.
  replace (Qltb m 0) with false in Ho
    by (symmetry; apply negb_false_iff; by apply Qle_bool_iff).
  cbn [negb andb] in Ho. rewrite Hcfg in Ho. rewrite Ho.
  unfold set_effect, update.
  cbn [with_max_voltage no_kw kw_mode kw_max_voltage kw_field_type kw_ng
       kw_dx_mm kw_dy_mm kw_dz_mm p_nx p_ny p_nz p_symmetry p_mirror_x p_mirror_y
       p_mirror_z].
  rewrite !Z.eqb_refl. cbn [negb orb]. by destruct s.
Qed.


End SetMaxVoltage.


(** ** What [load] leaves behind *)

Section LoadOutcome.
Context `{PyFloat}.

Lemma load_rows_shape ns :
  forall f s, exists l,
    (load_rows ns f s).1 = set_points l s /\
    ((load_rows ns f s).2 = Ok tt \/ (load_rows ns f s).2 = Raise StructError).
Proof.
  induction ns as [|n ns IH]; intros f s.
  - exists (_points s). simpl. split; [by rewrite set_points_same | by left].
  - rewrite load_rows_cons. destruct (file_read f (_nx s * 8)) as [buf f'].
    unfold bind at 1, lift at 1, unpack_ds.
    destruct (negb _).
    + exists (_points s). simpl. split; [by rewrite set_points_same | by right].
    + unfold bind at 1, modify at 1.
      destruct (IH f' (set_points
                         (slice_assign (_points s) n (n + _nx s)
                            (unpack_chunks (Z.to_nat (_nx s)) buf)) s)) as (l & Hl & Hr).
      exists l. rewrite set_points_twice in Hl. by split.
Qed.

Lemma load_points_shape f s :
  exists l,
    (load_points f s).1 = set_points l s /\
    ((load_points f s).2 = Ok tt \/ (load_points f s).2 = Raise StructError \/
     (load_points f s).2 = Raise ValueError).
Proof.
  unfold load_points. rewrite (bind_ok _ _ s s s) by done.
  set (s1 := set_points (list_times 0%Q (_nx s * _ny s * _nz s)) s).
  rewrite (bind_ok _ _ s s1 tt) by done.
  unfold bind at 1, lift at 1, range3.
  destruct (_nx s =? 0).
  - exists (_points s1). split; [done | by right; right].
  - destruct (load_rows_shape
                ((fun k => 0 + k * _nx s) <$>
                 seqZ 0 (if 0 <? _nx s
                         then (_nx s * _ny s * _nz s - 0 + _nx s - 1) / _nx s
                         else (0 - _nx s * _ny s * _nz s - _nx s - 1) / - _nx s))
                f s1) as (l & Hl & Hr).
    exists l. unfold s1 in Hl. rewrite set_points_twice in Hl.
    split; [exact Hl|]. destruct Hr as [Hr|Hr]; [by left | by right; left].
Qed.

Lemma load_outcome (path : string)
    (fs : gmap string (list Byte.byte)) (self s' : PA) (r : result unit) :
  load path fs self = (s', r) ->
  (exists cause, r = Raise (failed_reading path cause) /\ s' = self) \/
  (exists f l, fs !! path = Some f /\ s' = set_points l (decoded path f self) /\
     (r = Ok tt \/ r = Raise StructError \/ r = Raise ValueError)).
Proof.
  destruct (fs !! path) as [f|] eqn:Hf.
  2: { rewrite (load_unreadable _ _ _ Hf). intros [= <- <-]. left. by eexists. }
  destruct (Z.lt_ge_cases (Z.of_nat (length f)) 4) as [H4|H4].
  { rewrite (load_short_header _ _ _ _ Hf (or_introl H4)).
    intros [= <- <-]. left. by eexists. }
  destruct (Z.eq_dec (file_mode f) (-1)) as [Hm1|Hm1];
    [|destruct (Z.eq_dec (file_mode f) (-2)) as [Hm2|Hm2]].
  3: { rewrite (load_invalid_mode _ _ _ _ Hf H4) by (unfold valid_mode; lia).
       intros [= <- <-]. left. by eexists. }
  all: assert (valid_mode (file_mode f)) as Hm by (unfold valid_mode; lia).
  all: destruct (Z.lt_ge_cases (Z.of_nat (length f)) (header_length f)) as [Hh|Hh];
    [ rewrite (load_short_header _ _ _ _ Hf (or_intror (conj Hm Hh)));
      intros [= <- <-]; left; by eexists |].
  all: rewrite (load_found _ _ _ _ Hf), (load_try_header _ _ _ Hm Hh).
  all: destruct (load_points_shape (drop (Z.to_nat (header_length f)) f)
                   (decoded path f self)) as (l & Hl & Hr).
  all: destruct (load_points _ _) as [s1 r1]; simpl in Hl, Hr; subst s1.
  all: destruct Hr as [->|[->| ->]]; intros [= <- <-]; right; exists f, l; auto.
Qed.



Lemma load_flag (path : string) (fs : gmap string (list Byte.byte)) (self s' : PA) :
  load path fs self = (s', Ok tt) -> _fast_adjustable s' = search_hash_end path.
Proof.
  intros Hl. apply load_outcome in Hl as [(c & Hc & _)|(f & l & _ & -> & _)]; [|done].
  unfold failed_reading in Hc. congruence.
Qed.

End LoadOutcome.



(** ** What [save] writes *)

Lemma first_points_ok (p : PA) (bound : Z) (ns : list Z) :
  forall l,
    Forall (fun n => 0 <= n < Z.of_nat (length (_points p)) /\ n < bound) ns ->
    length l = 31%nat -> Forall (fun i => -1 <= i < bound) l ->
    exists l', first_points p ns l = Ok l' /\ length l' = 31%nat /\
               Forall (fun i => -1 <= i < bound) l'.
Proof.
  induction ns as [|n ns IH]; intros l Hns Hl Hf; [by exists l|].
  apply Forall_cons in Hns as [[Hn Hb] Hns]. simpl first_points.
  destruct (lookup_lt_is_Some_2 (_points p) (Z.to_nat n)) as [v Hv]; [lia|].
  rewrite (getitem_ok _ _ v) by (lia || done).
  assert (forall i, 0 <= i <= 30 ->
            exists l',
              match getitem l i with
              | Raise e => Raise e
              | Ok j =>
                  if j =? -1 then
                    match setitem l i n with
                    | Raise e => Raise e
                    | Ok l1 => first_points p ns l1
                    end
                  else first_points p ns l
              end = Ok l' /\ length l' = 31%nat /\
              Forall (fun i => -1 <= i < bound) l') as Hstep.
  { intros i Hi. destruct (lookup_lt_is_Some_2 l (Z.to_nat i)) as [j Hj]; [lia|].
    rewrite (getitem_ok _ _ j) by (lia || done). destruct (j =? -1).
    - rewrite setitem_ok by lia.
      apply IH; [done | by rewrite length_insert |].
      apply Forall_insert; [done | lia].
    - by apply IH. }
  destruct (Qgeb _ _); [|by apply IH].
  destruct (_ && _ && _) eqn:E; [|apply Hstep; lia].
  apply andb_prop in E as [E E3]. apply andb_prop in E as [_ E2].
  apply Hstep. lia.
Qed.

Lemma write_ints_ok (l : list Z) :
  Forall (fun i => - 2 ^ 31 <= i < 2 ^ 31) l ->
  write_ints l = (concat (word <$> l), Ok tt).
Proof.
  induction 1 as [|i l Hi _ IH]; [done|].
  change (write_ints (i :: l))
    with (wbind (wlift (pack_i i)) (fun b => wbind (write b) (fun _ => write_ints l))).
  by rewrite (pack_i_word i Hi), wbind_lift, wbind_write, IH.
Qed.

Lemma concat_word_length (l : list Z) : length (concat (word <$> l)) = (4 * length l)%nat.
Proof.
  induction l as [|i l IH]; [done|].
  rewrite fmap_cons. change (concat (word i :: (word <$> l)))
    with (word i ++ concat (word <$> l)).
  rewrite length_app, IH. unfold word.
  rewrite le_bytes4_length. simpl length. lia.
Qed.

Section SaveLayout.
Context `{PyFloat}.

Lemma save_try_layout (s : PA) :
  valid s ->
  save_try s
  = (header_of s ++ concat (pack_d <$> _points s) ++
       (match _pasharp s with
        | Some pasharp => save_stats s pasharp
        | None => wret tt
        end).1,
     (match _pasharp s with
      | Some pasharp => save_stats s pasharp
      | None => wret tt
      end).2).
Proof.
  intros Hv. pose proof (valid_header s Hv) as (Hm & Hs & Hf & Hx & Hy & Hz).
  destruct Hv as [_ Hst]. unfold store_ok in Hst.
  assert (valid_mode (reported_mode s)) as Hrm.
  { rewrite reported_mode_eq. destruct (_ && _); [by right | done]. }
  pose proof (raw_mirror_decode s) as (_ & _ & _ & _ & _ & Hr).
  unfold save_try.
  rewrite (pack_i_word (reported_mode s)) by (destruct Hrm as [-> | ->]; lia).
  rewrite wbind_lift.
  rewrite pack_i_word by (destruct (String.eqb (_symmetry s) "planar"); lia).
  rewrite wbind_lift.
  rewrite (pack_i_word (_nx s)) by lia. rewrite wbind_lift.
  rewrite (pack_i_word (_ny s)) by lia. rewrite wbind_lift.
  rewrite (pack_i_word (_nz s)) by lia. rewrite wbind_lift.
  rewrite (pack_i_word (save_raw_mirror s)) by lia. rewrite wbind_lift.
  rewrite wbind_write.
  set (w := Z.to_nat (_nx s)). set (k := Z.to_nat (_ny s * _nz s)).
  assert (_nx s = Z.of_nat w) as Hw by lia.
  assert (length (_points s) = (k * w)%nat) as Hlen by (unfold k, w; nia).
  assert (range3 0 (Z.of_nat (length (_points s))) (_nx s)
          = Ok ((fun i => 0 + i * Z.of_nat w) <$> seqZ (Z.of_nat 0) (Z.of_nat k))) as ->.
  { rewrite <- Hw. change (Z.of_nat 0) with 0.
    rewrite <- (range3_rows (_nx s) (Z.of_nat k)) by lia.
    f_equal. unfold k. nia. }
  rewrite wbind_lift.
  rewrite (save_rows_ok s w Hw k 0) by lia.
  simpl drop. rewrite <- Hlen, firstn_all.
  assert (forall tail : W unit,
            wbind (concat (pack_d <$> _points s), Ok tt) (fun _ => tail)
            = (concat (pack_d <$> _points s) ++ tail.1, tail.2)) as Htail
    by (by intros [t r]).
  destruct (_pasharp s) as [p|]; rewrite Htail; cbn [fst snd]; f_equal;
    unfold header_of; destruct (reported_mode s <=? -2);
    by rewrite ?app_nil_r, <- !app_assoc.
Qed.

Lemma save_stats_ok (s p : PA) :
  (_nx p, _ny p, _nz p) = (_nx s, _ny s, _nz s) ->
  (length (_points s) <= length (_points p))%nat ->
  Z.of_nat (length (_points s)) < 2 ^ 31 ->
  exists t, save_stats s p = (t, Ok tt) /\ length t = 140%nat.
Proof.
  intros [= Hx Hy Hz] Hlen Hmax. unfold save_stats.
  rewrite Hx, Hy, Hz, !Z.eqb_refl. cbn [andb negb].
  destruct (first_points_ok p (Z.of_nat (length (_points s)))
              (range (Z.of_nat (length (_points s)))) (list_times (-1)%Z 31%Z))
    as (l & Hl & Hl31 & Hlf).
  { unfold range. apply Forall_seqZ. intros n Hn. lia. }
  { done. }
  { unfold list_times. apply Forall_replicate. lia. }
  rewrite Hl, wbind_lift.
  pose proof (length_filter (fun i => i <> -1) (drop 1 l)) as Hfl.
  rewrite length_drop, Hl31 in Hfl.
  rewrite pack_i_word by (destruct (negb _); lia).
  rewrite wbind_lift, !wbind_write.
  rewrite write_ints_ok by (eapply Forall_impl; [exact Hlf | simpl; lia]).
  rewrite (pack_i_word (-1)) by lia. rewrite wbind_lift.
  eexists. split; [reflexivity|].
  unfold wbind, write. cbn [fst snd]. rewrite !length_app, concat_word_length, Hl31, pack_d_length.
  unfold word. by rewrite !le_bytes4_length.
Qed.


(** X21.  [save] of a valid array paired with a raw array of the same
    dimensions, whose store is not shorter, succeeds: the file holds the
    header, the points and 140 bytes of statistics. *)
Theorem save_appends_the_statistics (s p : PA) (path : string)
    (fs : gmap string (list Byte.byte)) :
  valid s -> _pasharp s = Some p ->
  (_nx p, _ny p, _nz p) = (_nx s, _ny s, _nz s) ->
  (length (_points s) <= length (_points p))%nat ->
  exists t,
    save path fs s
    = (<[path := header_of s ++ concat (pack_d <$> _points s) ++ t]> fs, Ok tt) /\
    length t = 140%nat.
Proof.
  intros Hv Hp Hd Hlen.
  assert (Z.of_nat (length (_points s)) < 2 ^ 31) as Hmax.
  { destruct Hv as [Hc Hst]. apply check_all_well_formed in Hc.
    destruct Hc as (_ & _ & _ & _ & (_ & _ & _ & Hn) & _).
    unfold store_ok in Hst. lia. }
  destruct (save_stats_ok s p Hd Hlen Hmax) as (t & Ht & Ht140).
  exists t. split; [|done].
  unfold save. by rewrite (save_try_layout s Hv), Hp, Ht.
Qed.

End SaveLayout.

Lemma valid_paired_plate3 : valid paired_plate3.
Proof. split; by vm_compute. Qed.

Lemma valid_mispaired_plate3 : valid mispaired_plate3.
Proof. split; by vm_compute. Qed.


Lemma save_appends_the_statistics_witness :
  valid paired_plate3 /\
  exists t,
    save "plate.pa0" ∅ paired_plate3
    = (<["plate.pa0" := header_of paired_plate3 ++
                        concat (pack_d <$> _points paired_plate3) ++ t]> ∅, Ok tt) /\
    length t = 140%nat.
Proof.
  split; [exact valid_paired_plate3|].
  apply (save_appends_the_statistics paired_plate3 plate3);
    [exact valid_paired_plate3 | reflexivity | reflexivity | by vm_compute].
Defined.


(** ** The file names of the service *)

Lemma endswith_refl (s : string) : endswith s s = true.
Proof. destruct s; simpl; by rewrite ?Ascii.eqb_refl, ?String.eqb_refl. Qed.

Lemma endswith_app (s suffix : string) : endswith (s +:+ suffix) suffix = true.
Proof.
  induction s as [|c s IH]; [apply endswith_refl|].
  change (String c s +:+ suffix) with (String c (s +:+ suffix)).
  simpl endswith. rewrite IH. apply orb_true_r.
Qed.

Lemma endswith_inv (s suffix : string) :
  endswith s suffix = true -> exists prefix, s = prefix +:+ suffix.
Proof.
  induction s as [|c s IH]; cbn [endswith]; intros Hs.
  - rewrite orb_false_r in Hs. apply String.eqb_eq in Hs. exists EmptyString. by rewrite <- Hs.
  - apply orb_prop in Hs as [Hs|Hs].
    + apply String.eqb_eq in Hs. exists EmptyString. by rewrite <- Hs.
    + destruct (IH Hs) as [prefix ->]. by exists (String c prefix).
Qed.

Lemma search_hash_end_raw (prefix : string) :
  search_hash_end (prefix +:+ _PA_RAW_EXTENSION) = true.
Proof.
  induction prefix as [|c prefix IH]; [done|].
  change (String c prefix +:+ _PA_RAW_EXTENSION)
    with (String c (prefix +:+ _PA_RAW_EXTENSION)).
  simpl search_hash_end. rewrite IH. apply orb_true_r.
Qed.

Lemma search_hash_end_refined (prefix : string) :
  search_hash_end (prefix +:+ _PA_REFINED_EXTENSION) = false.
Proof.
  induction prefix as [|c prefix IH]; [done|].
  change (String c prefix +:+ _PA_REFINED_EXTENSION)
    with (String c (prefix +:+ _PA_REFINED_EXTENSION)).
  simpl search_hash_end. rewrite IH, orb_false_r.
  apply andb_false_intro2.
  unfold newline. destruct prefix as [|c1 prefix]; [done|].
  change (String c1 prefix +:+ _PA_REFINED_EXTENSION)
    with (String c1 (prefix +:+ _PA_REFINED_EXTENSION)).
  cbn [String.eqb orb]. destruct (Ascii.eqb c1 _); [|done]. by destruct prefix.
Qed.

Lemma add_raw_extension_inv (filename : string) :
  exists prefix, add_raw_extension filename = prefix +:+ _PA_RAW_EXTENSION.
Proof.
  unfold add_raw_extension. destruct (endswith _ _) eqn:E.
  - by apply endswith_inv.
  - by exists filename.
Qed.

Lemma add_refined_extension_inv (filename : string) :
  exists prefix, add_refined_extension filename = prefix +:+ _PA_REFINED_EXTENSION.
Proof.
  unfold add_refined_extension. destruct (endswith _ _) eqn:E.
  - by apply endswith_inv.
  - by exists filename.
Qed.

(** X22.  The two functions that add an extension leave a name that ends
    with it, and add it once: applied to their own result they change
    nothing. *)
Theorem extensions_are_added_once (filename : string) :
  endswith (add_raw_extension filename) _PA_RAW_EXTENSION = true /\
  add_raw_extension (add_raw_extension filename) = add_raw_extension filename /\
  endswith (add_refined_extension filename) _PA_REFINED_EXTENSION = true /\
  add_refined_extension (add_refined_extension filename)
  = add_refined_extension filename.
Proof.
  assert (endswith (add_raw_extension filename) _PA_RAW_EXTENSION = true) as Hr.
  { destruct (add_raw_extension_inv filename) as [p ->]. apply endswith_app. }
  assert (endswith (add_refined_extension filename) _PA_REFINED_EXTENSION = true) as Hf.
  { destruct (add_refined_extension_inv filename) as [p ->]. apply endswith_app. }
  split_and!; try done.
  - unfold add_raw_extension at 1. by rewrite Hr.
  - unfold add_refined_extension at 1. by rewrite Hf.
Qed.

Section Extensions.
Context `{PyFloat}.

(** X23.  The extension decides the flag that [load] sets: an array
    loaded from a name made by [add_raw_extension] is fast adjustable, one
    loaded from a name made by [add_refined_extension] is not. *)
Theorem extension_decides_the_flag (filename : string)
    (fs : gmap string (list Byte.byte)) (self s' : PA) :
  (load (add_raw_extension filename) fs self = (s', Ok tt) ->
   _fast_adjustable s' = true) /\
  (load (add_refined_extension filename) fs self = (s', Ok tt) ->
   _fast_adjustable s' = false).
Proof.
  split; intros Hl; rewrite (load_flag _ _ _ _ Hl).
  - destruct (add_raw_extension_inv filename) as [p ->]. apply search_hash_end_raw.
  - destruct (add_refined_extension_inv filename) as [p ->].
    apply search_hash_end_refined.
Qed.

End Extensions.

Lemma extension_decides_the_flag_witness :
  exists s',
    load (add_raw_extension "trap") {[ "trap.pa#" := narrow_file ]} grid3 = (s', Ok tt) /\
    _fast_adjustable s' = true.
Proof.
  assert (load (add_raw_extension "trap") {[ "trap.pa#" := narrow_file ]} grid3
          = (set_points
               (unpack_chunks
                  (Z.to_nat (file_nx narrow_file * file_ny narrow_file *
                             file_nz narrow_file))
                  (drop (Z.to_nat (header_length narrow_file)) narrow_file))
               (decoded (add_raw_extension "trap") narrow_file grid3), Ok tt)) as Hl.
  { apply load_complete; [by vm_compute | by left | by vm_compute | by vm_compute]. }
  eexists. split; [exact Hl|].
  exact (proj1 (extension_decides_the_flag "trap" _ grid3 _) Hl).
Defined.


(** ** Interpolation inside the array *)

Lemma int_of_float_floor q :
  (0 <= q)%Q ->
  0 <= int_of_float q /\
  (inject_Z (int_of_float q) <= q)%Q /\ (q < inject_Z (int_of_float q + 1))%Q.
Proof.
  intros Hq. unfold int_of_float.
  assert (0 <= Qnum q) as Hn by (unfold Qle in Hq; simpl in Hq; lia).
  rewrite Z.quot_div_nonneg by lia.
  assert (Qnum q / Z.pos (Qden q) = Qfloor q) as -> by (by destruct q).
  split; [|split; [apply Qfloor_le | apply Qlt_floor]].
  apply (Qfloor_resp_le 0 q) in Hq. by simpl in Hq.
Qed.

Lemma Qabs_opp_eq x : Qabs (- x) = Qabs x.
Proof. destruct x as [n d]. unfold Qabs, Qopp. simpl. by rewrite Z.abs_opp. Qed.

Lemma axis_test_abs mirrored dim c :
  axis_test mirrored dim c = true -> (Qabs c <= inject_Z (dim - 1))%Q.
Proof.
  intros Ha. apply axis_test_ok in Ha as [[H0 Hd]|[_ Hd]]; [|done].
  by rewrite Qabs_pos.
Qed.

(** The cell of a coordinate: its index, and whether the next grid line is
    read. *)
Lemma cell_ok dim c :
  (0 <= c)%Q -> (c <= inject_Z (dim - 1))%Q ->
  0 <= int_of_float c < dim /\
  (Qneb (c - inject_Z (int_of_float c)) 0 = true -> int_of_float c + 1 < dim).
Proof.
  intros H0 Hd. destruct (int_of_float_floor c H0) as (Hi & Hlo & Hhi).
  assert (int_of_float c <= dim - 1) as Hle.
  { rewrite Zle_Qle. lra. }
  split; [lia|]. intros Hne.
  destruct (Z.eq_dec (int_of_float c) (dim - 1)) as [Heq|]; [|lia].
  exfalso. unfold Qneb in Hne. apply negb_true_iff in Hne.
  assert (c - inject_Z (int_of_float c) == 0)%Q as Hz by (rewrite Heq in *; lra).
  apply Qeq_bool_iff in Hz. congruence.
Qed.

Lemma axis_test_mirrored dim c :
  axis_test true dim c = true <-> (Qabs c <= inject_Z (dim - 1))%Q.
Proof.
  split; [apply axis_test_abs|]. intros Ha. apply axis_test_ok. by right.
Qed.

Lemma axis_test_opp dim c : axis_test true dim (- c) = axis_test true dim c.
Proof.
  destruct (axis_test true dim c) eqn:E.
  - apply axis_test_mirrored. rewrite Qabs_opp_eq. by apply axis_test_mirrored.
  - destruct (axis_test true dim (- c)) eqn:E'; [|done].
    apply axis_test_mirrored in E'. rewrite Qabs_opp_eq in E'.
    apply axis_test_mirrored in E'. congruence.
Qed.

Section DefinedInside.
Context `{PyFloat}.

Lemma potential_total s x y z :
  store_ok s -> in_bounds s x y z -> exists v, potential x y z s = (s, Ok v).
Proof.
  intros Hs Hb. destruct (stored _ _ _ _ Hs Hb) as [v Hv].
  eexists. by apply potential_ok.
Qed.

Lemma and_or_total (c : bool) (m : M Q) s :
  (c = true -> exists v, m s = (s, Ok v)) -> exists v, and_or c m s = (s, Ok v).
Proof.
  intros Hm. unfold and_or. destruct c; [|by eexists].
  destruct (Hm eq_refl) as [v Hv]. rewrite (bind_ok _ _ _ _ _ Hv). by eexists.
Qed.

Lemma bilinear_total s xi yi wx wy :
  store_ok s -> 0 <= xi < _nx s -> 0 <= yi < _ny s -> 0 < _nz s ->
  (Qneb wx 0 = true -> xi + 1 < _nx s) ->
  (Qneb wy 0 = true -> yi + 1 < _ny s) ->
  exists p, bilinear xi yi wx wy s = (s, Ok p).
Proof.
  intros Hs Hx Hy Hz Hwx Hwy. unfold bilinear.
  destruct (potential_total s xi yi 0 Hs) as [p00 H00]; [unfold in_bounds; lia|].
  rewrite (bind_ok _ _ _ _ _ H00).
  destruct (and_or_total (Qneb wx 0) (potential (xi + 1) yi 0) s) as [p10 H10].
  { intros Hc. apply potential_total; [done|]. specialize (Hwx Hc).
    unfold in_bounds. lia. }
  rewrite (bind_ok _ _ _ _ _ H10).
  destruct (and_or_total (Qneb wy 0) (potential xi (yi + 1) 0) s) as [p01 H01].
  { intros Hc. apply potential_total; [done|]. specialize (Hwy Hc).
    unfold in_bounds. lia. }
  rewrite (bind_ok _ _ _ _ _ H01).
  destruct (and_or_total (Qneb wx 0 && Qneb wy 0) (potential (xi + 1) (yi + 1) 0) s)
    as [p11 H11].
  { intros Hc. apply andb_prop in Hc as [Hc1 Hc2]. apply potential_total; [done|].
    specialize (Hwx Hc1). specialize (Hwy Hc2). unfold in_bounds. lia. }
  rewrite (bind_ok _ _ _ _ _ H11). by eexists.
Qed.

Lemma trilinear_total s xi yi zi wx wy wz :
  store_ok s -> 0 <= xi < _nx s -> 0 <= yi < _ny s -> 0 <= zi < _nz s ->
  (Qneb wx 0 = true -> xi + 1 < _nx s) ->
  (Qneb wy 0 = true -> yi + 1 < _ny s) ->
  (Qneb wz 0 = true -> zi + 1 < _nz s) ->
  exists p, trilinear xi yi zi wx wy wz s = (s, Ok p).
Proof.
  intros Hs Hx Hy Hz Hwx Hwy Hwz. unfold trilinear.
  destruct (potential_total s xi yi zi Hs) as [p0 H0]; [unfold in_bounds; lia|].
  rewrite (bind_ok _ _ _ _ _ H0).
  assert (forall (c : bool) a b d,
            (c = true -> in_bounds s a b d) ->
            exists v, and_or c (potential a b d) s = (s, Ok v)) as Hstep.
  { intros c a b d Hc. apply and_or_total. intros Ht. by apply potential_total, Hc. }
  destruct (Hstep (Qneb wx 0) (xi + 1) yi zi) as [p1 H1].
  { intros Hc. specialize (Hwx Hc). unfold in_bounds. lia. }
  rewrite (bind_ok _ _ _ _ _ H1).
  destruct (Hstep (Qneb wy 0) xi (yi + 1) zi) as [p2 H2].
  { intros Hc. specialize (Hwy Hc). unfold in_bounds. lia. }
  rewrite (bind_ok _ _ _ _ _ H2).
  destruct (Hstep (Qneb wx 0 && Qneb wy 0) (xi + 1) (yi + 1) zi) as [p3 H3].
  { intros Hc. apply andb_prop in Hc as [Hc1 Hc2].
    specialize (Hwx Hc1). specialize (Hwy Hc2). unfold in_bounds. lia. }
  rewrite (bind_ok _ _ _ _ _ H3).
  destruct (Hstep (Qneb wz 0) xi yi (zi + 1)) as [p4 H4].
  { intros Hc. specialize (Hwz Hc). unfold in_bounds. lia. }
  rewrite (bind_ok _ _ _ _ _ H4).
  destruct (Hstep (Qneb wx 0 && Qneb wz 0) (xi + 1) yi (zi + 1)) as [p5 H5].
  { intros Hc. apply andb_prop in Hc as [Hc1 Hc2].
    specialize (Hwx Hc1). specialize (Hwz Hc2). unfold in_bounds. lia. }
  rewrite (bind_ok _ _ _ _ _ H5).
  destruct (Hstep (Qneb wy 0 && Qneb wz 0) xi (yi + 1) (zi + 1)) as [p6 H6].
  { intros Hc. apply andb_prop in Hc as [Hc1 Hc2].
    specialize (Hwy Hc1). specialize (Hwz Hc2). unfold in_bounds. lia. }
  rewrite (bind_ok _ _ _ _ _ H6).
  destruct (Hstep (Qneb wx 0 && Qneb wy 0 && Qneb wz 0) (xi + 1) (yi + 1) (zi + 1))
    as [p7 H7].
  { intros Hc. apply andb_prop in Hc as [Hc Hc3]. apply andb_prop in Hc as [Hc1 Hc2].
    specialize (Hwx Hc1). specialize (Hwy Hc2). specialize (Hwz Hc3).
    unfold in_bounds. lia. }
  rewrite (bind_ok _ _ _ _ _ H7). by eexists.
Qed.

(** X24.  [potential_real] returns a value wherever [inside_real] holds, on
    a planar array and on a cylindrical one with a single plane: at the last
    grid line the neighbour beyond it has weight zero and is not read.
    Where [inside_real] fails it raises [AssertionError] with the message of
    [_fail_point]. *)
Theorem potential_real_is_defined_inside (s : PA) (x y z : Q) :
  store_ok s ->
  (_symmetry s = "cylindrical" -> _nz s = 1 /\ (0 <= sqrt (y * y + z * z))%Q) ->
  (inside_real x y z s = (s, Ok true) ->
   exists p, potential_real x y z s = (s, Ok p)) /\
  (inside_real x y z s = (s, Ok false) ->
   exists msg, potential_real x y z s = (s, Raise (AssertionError (Some msg)))).
Proof.
  intros Hs Hcyl. split; intros Hin; unfold potential_real;
    rewrite (bind_ok _ _ _ _ _ Hin).
  2: { by eexists. }
  rewrite (bind_ok _ _ s s tt) by done.
  rewrite (bind_ok _ _ s s s) by done.
  destruct (String.eqb_spec (_symmetry s) "planar") as [Hp|Hnp].
  - rewrite (inside_real_planar _ _ _ _ Hp) in Hin. injection Hin as Hin.
    apply andb_prop in Hin as [Hin Haz]. apply andb_prop in Hin as [Hax Hay].
    apply axis_test_abs in Hax, Hay.
    destruct (cell_ok (_nx s) (Qabs x) (Qabs_nonneg x) Hax) as [Hxi Hwx].
    destruct (cell_ok (_ny s) (Qabs y) (Qabs_nonneg y) Hay) as [Hyi Hwy].
    destruct (Z.eqb_spec (_nz s) 1) as [Hz|Hz].
    + apply bilinear_total; try done. lia.
    + simpl in Haz. apply axis_test_abs in Haz.
      destruct (cell_ok (_nz s) (Qabs z) (Qabs_nonneg z) Haz) as [Hzi Hwz].
      by apply trilinear_total.
  - destruct (String.eqb_spec (_symmetry s) "cylindrical") as [Hc|Hnc].
    + destruct (Hcyl Hc) as [Hz Hr].
      rewrite (inside_real_cylindrical _ _ _ _ Hc) in Hin. injection Hin as Hin.
      apply andb_prop in Hin as [Hax Har].
      apply axis_test_abs in Hax. apply Qleb_le in Har.
      destruct (cell_ok (_nx s) (Qabs x) (Qabs_nonneg x) Hax) as [Hxi Hwx].
      destruct (cell_ok (_ny s) _ Hr Har) as [Hri Hwr].
      apply bilinear_total; try done. lia.
    + exfalso. unfold inside_real, bind, get in Hin.
      destruct (String.eqb_spec (_symmetry s) "planar"); [done|].
      destruct (String.eqb_spec (_symmetry s) "cylindrical"); [done|].
      discriminate Hin.
Qed.

Lemma inside_real_symmetry s x y z b :
  inside_real x y z s = (s, Ok b) ->
  _symmetry s = "planar" \/ _symmetry s = "cylindrical".
Proof.
  intros Hin. unfold inside_real, bind, get in Hin.
  destruct (String.eqb_spec (_symmetry s) "planar"); [by left|].
  destruct (String.eqb_spec (_symmetry s) "cylindrical"); [by right|].
  discriminate Hin.
Qed.

Lemma potential_real_inside s x y z :
  inside_real x y z s = (s, Ok true) ->
  potential_real x y z s
  = (if String.eqb (_symmetry s) "planar" then
       if _nz s =? 1 then
         bilinear (int_of_float (Qabs x)) (int_of_float (Qabs y))
           (Qabs x - inject_Z (int_of_float (Qabs x)))
           (Qabs y - inject_Z (int_of_float (Qabs y)))
       else
         trilinear (int_of_float (Qabs x)) (int_of_float (Qabs y))
           (int_of_float (Qabs z))
           (Qabs x - inject_Z (int_of_float (Qabs x)))
           (Qabs y - inject_Z (int_of_float (Qabs y)))
           (Qabs z - inject_Z (int_of_float (Qabs z)))
     else
       bilinear (int_of_float (Qabs x)) (int_of_float (sqrt (y * y + z * z)))
         (Qabs x - inject_Z (int_of_float (Qabs x)))
         (sqrt (y * y + z * z) - inject_Z (int_of_float (sqrt (y * y + z * z))))) s.
Proof.
  intros Hin. unfold potential_real. rewrite (bind_ok _ _ _ _ _ Hin).
  rewrite (bind_ok _ _ s s tt) by done.
  rewrite (bind_ok _ _ s s s) by done.
  destruct (inside_real_symmetry _ _ _ _ _ Hin) as [-> | ->]; [|done].
  by destruct (_nz s =? 1).
Qed.

(** X25.  A mirrored array is symmetric: where [inside_real] holds and the
    array is mirrored in x, the point with [x] negated is inside as well
    and [potential_real] returns the same there; likewise in y and in z on
    a planar array. *)
Theorem mirrored_axes_are_symmetric (s : PA) (x y z : Q) :
  inside_real x y z s = (s, Ok true) ->
  (_mirror_x s = true ->
   inside_real (- x) y z s = (s, Ok true) /\
   potential_real (- x) y z s = potential_real x y z s) /\
  (_symmetry s = "planar" -> _mirror_y s = true ->
   inside_real x (- y) z s = (s, Ok true) /\
   potential_real x (- y) z s = potential_real x y z s) /\
  (_symmetry s = "planar" -> _mirror_z s = true ->
   inside_real x y (- z) s = (s, Ok true) /\
   potential_real x y (- z) s = potential_real x y z s).
Proof.
  intros Hin. split_and!.
  - intros Hm.
    assert (inside_real (- x) y z s = (s, Ok true)) as Hin'.
    { destruct (inside_real_symmetry _ _ _ _ _ Hin) as [Hp|Hc].
      - rewrite inside_real_planar in Hin |- * by done.
        rewrite Hm in Hin |- *. by rewrite axis_test_opp.
      - rewrite inside_real_cylindrical in Hin |- * by done.
        rewrite Hm in Hin |- *. by rewrite axis_test_opp. }
    split; [done|].
    by rewrite (potential_real_inside _ _ _ _ Hin), (potential_real_inside _ _ _ _ Hin'),
      Qabs_opp_eq.
  - intros Hp Hm.
    assert (inside_real x (- y) z s = (s, Ok true)) as Hin'.
    { rewrite inside_real_planar in Hin |- * by done.
      rewrite Hm in Hin |- *. by rewrite axis_test_opp. }
    split; [done|].
    rewrite (potential_real_inside _ _ _ _ Hin), (potential_real_inside _ _ _ _ Hin').
    by rewrite Hp, String.eqb_refl, Qabs_opp_eq.
  - intros Hp Hm.
    assert (inside_real x y (- z) s = (s, Ok true)) as Hin'.
    { rewrite inside_real_planar in Hin |- * by done.
      rewrite Hm in Hin |- *. by rewrite axis_test_opp. }
    split; [done|].
    rewrite (potential_real_inside _ _ _ _ Hin), (potential_real_inside _ _ _ _ Hin').
    by rewrite Hp, String.eqb_refl, Qabs_opp_eq.
Qed.

End DefinedInside.

Section Interpolates.
Context `{PyFloat}.

Lemma reading_ok s x y z :
  store_ok s -> in_bounds s x y z -> potential x y z s = (s, Ok (reading s x y z)).
Proof.
  intros Hs Hb. destruct (potential_total s x y z Hs Hb) as [v Hv].
  unfold reading. by rewrite Hv.
Qed.

Lemma and_or_value (c : bool) (m : M Q) s v :
  (c = true -> m s = (s, Ok v)) ->
  exists v', and_or c m s = (s, Ok v') /\ (c = true -> (v' == v)%Q) /\
             (c = false -> v' = 0%Q).
Proof.
  intros Hm. unfold and_or. destruct c.
  - rewrite (bind_ok _ _ _ _ _ (Hm eq_refl)). eexists. split; [done|].
    split; [|done]. intros _. destruct (Qeq_bool v 0) eqn:E; [|reflexivity].
    apply Qeq_bool_iff in E. by rewrite E.
  - exists 0%Q. by split_and!.
Qed.

Lemma Qneb_false w : Qneb w 0 = false -> (w == 0)%Q.
Proof. unfold Qneb. intros Hw. apply negb_false_iff in Hw. by apply Qeq_bool_iff. Qed.

Lemma bilinear_value s xi yi wx wy :
  store_ok s -> 0 <= xi < _nx s -> 0 <= yi < _ny s -> 0 < _nz s ->
  (Qneb wx 0 = true -> xi + 1 < _nx s) ->
  (Qneb wy 0 = true -> yi + 1 < _ny s) ->
  exists p, bilinear xi yi wx wy s = (s, Ok p) /\ (p == blend s xi yi wx wy)%Q.
Proof.
  intros Hs Hx Hy Hz Hwx Hwy. unfold bilinear, blend.
  rewrite (bind_ok _ _ _ _ _ (reading_ok s xi yi 0 Hs ltac:(unfold in_bounds; lia))).
  destruct (and_or_value (Qneb wx 0) (potential (xi + 1) yi 0) s
              (reading s (xi + 1) yi 0)) as (p10 & H10 & T10 & F10).
  { intros Hc. apply reading_ok; [done|]. specialize (Hwx Hc). unfold in_bounds. lia. }
  rewrite (bind_ok _ _ _ _ _ H10).
  destruct (and_or_value (Qneb wy 0) (potential xi (yi + 1) 0) s
              (reading s xi (yi + 1) 0)) as (p01 & H01 & T01 & F01).
  { intros Hc. apply reading_ok; [done|]. specialize (Hwy Hc). unfold in_bounds. lia. }
  rewrite (bind_ok _ _ _ _ _ H01).
  destruct (and_or_value (Qneb wx 0 && Qneb wy 0) (potential (xi + 1) (yi + 1) 0) s
              (reading s (xi + 1) (yi + 1) 0)) as (p11 & H11 & T11 & F11).
  { intros Hc. apply andb_prop in Hc as [Hc1 Hc2]. apply reading_ok; [done|].
    specialize (Hwx Hc1). specialize (Hwy Hc2). unfold in_bounds. lia. }
  rewrite (bind_ok _ _ _ _ _ H11).
  eexists. split; [done|].
  destruct (Qneb wx 0) eqn:Ex, (Qneb wy 0) eqn:Ey; simpl in T11, F11.
  - rewrite (T10 eq_refl), (T01 eq_refl), (T11 eq_refl). reflexivity.
  - apply Qneb_false in Ey. rewrite (T10 eq_refl), (F01 eq_refl), (F11 eq_refl), Ey. ring.
  - apply Qneb_false in Ex. rewrite (F10 eq_refl), (T01 eq_refl), (F11 eq_refl), Ex. ring.
  - apply Qneb_false in Ex, Ey.
    rewrite (F10 eq_refl), (F01 eq_refl), (F11 eq_refl), Ex, Ey. ring.
Qed.

Lemma potential_real_plane (s : PA) (x y z : Q) :
  store_ok s -> _nz s = 1 ->
  (_symmetry s = "cylindrical" -> (0 <= sqrt (y * y + z * z))%Q) ->
  inside_real x y z s = (s, Ok true) ->
  exists p,
    potential_real x y z s = (s, Ok p) /\
    (p == blend s (int_of_float (Qabs x))
            (int_of_float (if String.eqb (_symmetry s) "planar" then Qabs y
                           else sqrt (y * y + z * z)))
            (Qabs x - inject_Z (int_of_float (Qabs x)))
            ((if String.eqb (_symmetry s) "planar" then Qabs y
              else sqrt (y * y + z * z)) -
             inject_Z (int_of_float (if String.eqb (_symmetry s) "planar" then Qabs y
                                     else sqrt (y * y + z * z)))))%Q.
Proof.
  intros Hs Hz Hcyl Hin. rewrite (potential_real_inside _ _ _ _ Hin).
  destruct (inside_real_symmetry _ _ _ _ _ Hin) as [Hp|Hc].
  - rewrite Hp, String.eqb_refl, Hz. cbn [Z.eqb Pos.eqb].
    rewrite (inside_real_planar _ _ _ _ Hp) in Hin. injection Hin as Hin.
    apply andb_prop in Hin as [Hin _]. apply andb_prop in Hin as [Hax Hay].
    apply axis_test_abs in Hax, Hay.
    destruct (cell_ok (_nx s) (Qabs x) (Qabs_nonneg x) Hax) as [Hxi Hwx].
    destruct (cell_ok (_ny s) (Qabs y) (Qabs_nonneg y) Hay) as [Hyi Hwy].
    apply bilinear_value; try done. lia.
  - rewrite Hc. change (String.eqb "cylindrical" "planar") with false. cbv iota.
    rewrite (inside_real_cylindrical _ _ _ _ Hc) in Hin. injection Hin as Hin.
    apply andb_prop in Hin as [Hax Har].
    apply axis_test_abs in Hax. apply Qleb_le in Har.
    destruct (cell_ok (_nx s) (Qabs x) (Qabs_nonneg x) Hax) as [Hxi Hwx].
    destruct (cell_ok (_ny s) _ (Hcyl Hc) Har) as [Hri Hwr].
    apply bilinear_value; try done. lia.
Qed.


(** X26.  On an array with one plane, where [inside_real] holds,
    [potential_real] is the bilinear blend of the potentials at the four
    grid points around [(|x|, |y|)], or around [(|x|, r)] on a cylindrical
    array: the guards that skip a neighbour of weight zero do not change
    the value. *)
Theorem potential_real_interpolates (s : PA) (x y z : Q) :
  store_ok s -> _nz s = 1 ->
  (_symmetry s = "cylindrical" -> (0 <= sqrt (y * y + z * z))%Q) ->
  inside_real x y z s = (s, Ok true) ->
  exists p,
    potential_real x y z s = (s, Ok p) /\
    (p == blend s (int_of_float (Qabs x))
            (int_of_float (if String.eqb (_symmetry s) "planar" then Qabs y
                           else sqrt (y * y + z * z)))
            (Qabs x - inject_Z (int_of_float (Qabs x)))
            ((if String.eqb (_symmetry s) "planar" then Qabs y
              else sqrt (y * y + z * z)) -
             inject_Z (int_of_float (if String.eqb (_symmetry s) "planar" then Qabs y
                                     else sqrt (y * y + z * z)))))%Q.
Proof. apply potential_real_plane. Qed.

End Interpolates.

(** ** The field at a grid point *)

Lemma floor_unique (q : Q) (a : Z) :
  (inject_Z a <= q)%Q -> (q < inject_Z a + 1)%Q -> 0 <= a -> int_of_float q = a.
Proof.
  intros Hlo Hhi Ha.
  assert (0 <= q)%Q as Hq.
  { apply Qle_trans with (inject_Z a); [|done]. by apply (inject_Z_le 0 a). }
  destruct (int_of_float_floor q Hq) as (_ & Hl & Hh).
  rewrite inject_Z_plus in Hh.
  assert (int_of_float q < a + 1) as H1.
  { rewrite Zlt_Qlt, inject_Z_plus. change (inject_Z 1) with 1%Q in *. lra. }
  assert (a < int_of_float q + 1) as H2.
  { rewrite Zlt_Qlt, inject_Z_plus. change (inject_Z 1) with 1%Q in *. lra. }
  lia.
Qed.

Lemma inject_Z_sub a b : (inject_Z (a - b) == inject_Z a - inject_Z b)%Q.
Proof. unfold Z.sub. by rewrite inject_Z_plus, inject_Z_opp. Qed.

Section FieldGetter.
Context `{PyFloat}.

Lemma blend_proper s xi yi wx wy wx' wy' :
  (wx == wx')%Q -> (wy == wy')%Q ->
  (blend s xi yi wx wy == blend s xi yi wx' wy')%Q.
Proof. intros Hx Hy. unfold blend. by rewrite Hx, Hy. Qed.

Lemma inside_real_plane s (xq yq zq : Q) :
  _symmetry s = "planar" -> _nz s = 1 ->
  (0 <= xq)%Q -> (0 <= yq)%Q ->
  (xq <= inject_Z (_nx s - 1))%Q -> (yq <= inject_Z (_ny s - 1))%Q ->
  inside_real xq yq zq s = (s, Ok true).
Proof.
  intros Hp Hz Hx0 Hy0 Hxd Hyd.
  rewrite (inside_real_planar _ _ _ _ Hp), Hz. cbn [Z.eqb Pos.eqb orb].
  unfold axis_test.
  rewrite (proj2 (Qgeb_ge xq 0) Hx0), (proj2 (Qgeb_ge yq 0) Hy0).
  by rewrite (proj2 (Qleb_le _ _) Hxd), (proj2 (Qleb_le _ _) Hyd).
Qed.

(** [potential_real] at a point of the cell [(a, b)] of a planar array
    with one plane. *)
Lemma potential_real_cell s (xq yq zq : Q) (a b : Z) (wa wb : Q) :
  store_ok s -> _symmetry s = "planar" -> _nz s = 1 ->
  0 <= a -> 0 <= b ->
  (xq == inject_Z a + wa)%Q -> (yq == inject_Z b + wb)%Q ->
  (0 <= wa)%Q -> (wa < 1)%Q -> (0 <= wb)%Q -> (wb < 1)%Q ->
  (xq <= inject_Z (_nx s - 1))%Q -> (yq <= inject_Z (_ny s - 1))%Q ->
  exists p, potential_real xq yq zq s = (s, Ok p) /\ (p == blend s a b wa wb)%Q.
Proof.
  intros Hs Hp Hz Ha Hb Hx Hy Hwa0 Hwa1 Hwb0 Hwb1 Hxd Hyd.
  pose proof (inject_Z_le 0 a Ha) as Ha'. pose proof (inject_Z_le 0 b Hb) as Hb'.
  change (inject_Z 0) with 0%Q in Ha', Hb'.
  assert (0 <= xq)%Q as Hx0 by lra. assert (0 <= yq)%Q as Hy0 by lra.
  pose proof (inside_real_plane s xq yq zq Hp Hz Hx0 Hy0 Hxd Hyd) as Hin.
  destruct (potential_real_plane s xq yq zq Hs Hz) as (p & Hpr & Hv);
    [by rewrite Hp | done |].
  exists p. split; [done|]. rewrite Hv, Hp, String.eqb_refl.
  assert (int_of_float (Qabs xq) = a) as ->.
  { apply floor_unique; [| |done]; rewrite Qabs_pos by done; lra. }
  assert (int_of_float (Qabs yq) = b) as ->.
  { apply floor_unique; [| |done]; rewrite Qabs_pos by done; lra. }
  apply blend_proper; rewrite Qabs_pos by done; lra.
Qed.

Lemma and_or_int_nonpos (c : bool) (v : Z) : v <= 0 -> and_or_int c v <= 0.
Proof. intros Hv. unfold and_or_int. destruct (_ && _); lia. Qed.

Lemma div_float_one a b : (b == 1)%Q ->
  exists q, forall s : PA, div_float a b s = (s, Ok q) /\ (q == a)%Q.
Proof.
  intros Hb. exists (a / b)%Q. intros s. unfold div_float.
  destruct (Qeq_bool b 0) eqn:E.
  - apply Qeq_bool_iff in E. rewrite Hb in E. discriminate E.
  - split; [done|]. rewrite Hb. field.
Qed.


End FieldGetter.


(** ** Voxels *)

Section Voxels.
Context `{PyFloat}.

Lemma for_unit (m : M unit) s : (m ;;; ret tt) s = m s.
Proof. unfold bind, ret. by destruct (m s) as [s' [[]|e]]. Qed.

Lemma toggled_reads m b v :
  (- m < v)%Q -> (v <= 3 * m)%Q -> Qgtb (toggled m b v) m = b.
Proof.
  intros Hlo Hhi. unfold toggled. destruct (Qgtb v m) eqn:E, b.
  - done.
  - apply Qgtb_false. lra.
  - apply Qgtb_true. lra.
  - done.
Qed.

(** The flag of every point of a list is set, one after the other. *)
Lemma electrodes_set (b : bool) (cs : list (Z * Z * Z)) :
  forall s,
    store_ok s -> NoDup cs ->
    Forall (fun c => in_bounds s c.1.1 c.1.2 c.2 /\
                     exists v, _points s !! Z.to_nat (index s c.1.1 c.1.2 c.2) = Some v /\
                               (- _max_voltage s < v)%Q /\ (v <= 3 * _max_voltage s)%Q) cs ->
    exists l,
      for_ cs (fun c => electrode_set c.1.1 c.1.2 c.2 b) s = (set_points l s, Ok tt) /\
      length l = length (_points s) /\
      (forall c, c ∈ cs ->
         electrode c.1.1 c.1.2 c.2 (set_points l s) = (set_points l s, Ok b)) /\
      (forall c, in_bounds s c.1.1 c.1.2 c.2 -> c ∉ cs ->
         l !! Z.to_nat (index s c.1.1 c.1.2 c.2)
         = _points s !! Z.to_nat (index s c.1.1 c.1.2 c.2)).
Proof.
  induction cs as [|c cs IH]; intros s Hs Hnd Hcs.
  - exists (_points s). simpl. rewrite set_points_same. split_and!; try done.
    intros c Hc. by apply elem_of_nil in Hc.
  - apply NoDup_cons in Hnd as [Hnotin Hnd].
    apply Forall_cons in Hcs as [(Hb & v & Hv & Hlo & Hhi) Hcs].
    pose proof (electrode_set_ok s c.1.1 c.1.2 c.2 b v Hs Hb Hv) as Hstep.
    set (i := Z.to_nat (index s c.1.1 c.1.2 c.2)) in *.
    set (s1 := set_points (<[i := toggled (_max_voltage s) b v]> (_points s)) s) in *.
    assert (store_ok s1) as Hs1.
    { unfold store_ok, s1. simpl. rewrite length_insert. exact Hs. }
    assert (forall c', in_bounds s c'.1.1 c'.1.2 c'.2 -> c' <> c ->
              Z.to_nat (index s c'.1.1 c'.1.2 c'.2) <> i) as Hne.
    { intros [[x' y'] z'] Hb' Hc' Heq. apply Hc'. destruct c as [[x y] z].
      simpl in *. unfold i in Heq.
      pose proof (index_bounds _ _ _ _ Hb). pose proof (index_bounds _ _ _ _ Hb').
      destruct (index_inj s x' y' z' x y z Hb' Hb) as (-> & -> & ->); [lia | done]. }
    rewrite Forall_forall in Hcs.
    destruct (IH s1 Hs1 Hnd) as (l & Hfor & Hlen & Hset & Hkeep).
    { apply Forall_forall. intros c' Hc'.
      destruct (Hcs c' Hc') as (Hb' & v' & Hv' & Hlo' & Hhi').
      split; [exact Hb'|]. exists v'. split; [|done].
      unfold s1. simpl. change (index _ c'.1.1 c'.1.2 c'.2) with (index s c'.1.1 c'.1.2 c'.2).
      rewrite list_lookup_insert_ne; [done|].
      intros Heq. symmetry in Heq. revert Heq. apply Hne; [done|].
      intros ->. done. }
    exists l. unfold s1 in Hfor. rewrite set_points_twice in Hfor.
    split_and!.
    + rewrite (for_cons c cs (fun c => electrode_set c.1.1 c.1.2 c.2 b) s s1 Hstep).
      exact Hfor.
    + rewrite Hlen. unfold s1. simpl. by rewrite length_insert.
    + intros c' Hc'. apply elem_of_cons in Hc' as [->|Hc'].
      * assert (l !! i = Some (toggled (_max_voltage s) b v)) as Hl.
        { assert (l !! i = _points s1 !! i) as -> by exact (Hkeep c Hb Hnotin).
          unfold s1. simpl.
          apply list_lookup_insert_eq. by apply lookup_lt_Some in Hv. }
        rewrite (electrode_ok (set_points l s) c.1.1 c.1.2 c.2 _ Hb Hl).
        simpl _max_voltage. by rewrite toggled_reads.
      * specialize (Hset c' Hc'). unfold s1 in Hset.
        by rewrite set_points_twice in Hset.
    + intros c' Hb' Hc'. apply not_elem_of_cons in Hc' as [Hc1 Hc2].
      assert (l !! Z.to_nat (index s c'.1.1 c'.1.2 c'.2)
              = _points s1 !! Z.to_nat (index s c'.1.1 c'.1.2 c'.2)) as ->
        by exact (Hkeep c' Hb' Hc2).
      unfold s1. simpl.
      rewrite list_lookup_insert_ne; [done|].
      intros Heq. symmetry in Heq. revert Heq. by apply Hne.
Qed.

Lemma bind_ext {A B} (m : M A) (k k' : A -> M B) s :
  (forall a s', k a s' = k' a s') -> bind m k s = bind m k' s.
Proof. intros Hk. unfold bind. destruct (m s) as [s' [a|e]]; [apply Hk | done]. Qed.

Lemma voxel_inside_true s x y z :
  voxel_inside x y z s = (s, Ok true) ->
  0 <= x /\ x + 1 < _nx s /\ 0 <= y /\ y + 1 < _ny s /\
  (if _nz s =? 1 then z = 0 else 0 <= z /\ z + 1 < _nz s).
Proof.
  unfold voxel_inside, bind, get, ret.
  destruct (_ && _ && _ && _) eqn:E; [|done].
  repeat (apply andb_prop in E as [E ?]).
  destruct (_nz s =? 1); intros [= Hz].
  - lia.
  - apply andb_prop in Hz as [? ?]. lia.
Qed.

Lemma corners_in_bounds s x y z c :
  voxel_inside x y z s = (s, Ok true) -> c ∈ corners s x y z ->
  in_bounds s c.1.1 c.1.2 c.2.
Proof.
  intros Hv Hc. apply voxel_inside_true in Hv as (Hx0 & Hx1 & Hy0 & Hy1 & Hz).
  unfold corners in Hc. unfold in_bounds.
  destruct (Z.eqb_spec (_nz s) 1) as [Hn|Hn];
    rewrite ?elem_of_cons, elem_of_nil in Hc;
    repeat destruct Hc as [Hc|Hc]; try done; subst c; simpl; lia.
Qed.

Lemma corners_NoDup s x y z : NoDup (corners s x y z).
Proof.
  unfold corners. destruct (_nz s =? 1);
    repeat (apply NoDup_cons; split;
            [rewrite ?elem_of_cons, elem_of_nil; intros Hc;
             repeat destruct Hc as [Hc|Hc]; try done; injection Hc; lia |]);
    apply NoDup_nil_2.
Qed.

Lemma reading_raw s x y z :
  store_ok s -> in_bounds s x y z ->
  (- _max_voltage s < reading s x y z)%Q -> (reading s x y z <= _max_voltage s)%Q ->
  exists v, _points s !! Z.to_nat (index s x y z) = Some v /\
            (- _max_voltage s < v)%Q /\ (v <= 3 * _max_voltage s)%Q.
Proof.
  intros Hs Hb. destruct (stored _ _ _ _ Hs Hb) as [v Hv].
  unfold reading. rewrite (potential_ok _ _ _ _ _ Hb Hv). simpl.
  intros Hlo Hhi. exists v. split; [done|].
  destruct (Qgtb v (_max_voltage s)) eqn:E.
  - apply Qgtb_gt in E. lra.
  - apply Qgtb_le in E. lra.
Qed.

Lemma assert_voxel_inside_ok s x y z :
  voxel_inside x y z s = (s, Ok true) -> assert_voxel_inside x y z s = (s, Ok tt).
Proof. intros Hv. unfold assert_voxel_inside. by rewrite (bind_ok _ _ _ _ _ Hv). Qed.

Lemma assert_voxel_inside_fails s x y z :
  voxel_inside x y z s = (s, Ok false) ->
  assert_voxel_inside x y z s = (s, Raise (voxel_out_of_bounds x y z)).
Proof. intros Hv. unfold assert_voxel_inside. by rewrite (bind_ok _ _ _ _ _ Hv). Qed.

Lemma solid_set_for s x y z b :
  voxel_inside x y z s = (s, Ok true) ->
  solid_set x y z b s
  = for_ (corners s x y z) (fun c => electrode_set c.1.1 c.1.2 c.2 b) s.
Proof.
  intros Hv. unfold solid_set.
  rewrite (bind_ok _ _ _ _ _ (assert_voxel_inside_ok _ _ _ _ Hv)).
  rewrite (bind_ok _ _ s s s) by done. unfold corners.
  destruct (_nz s =? 1); cbn [for_ fst snd];
    repeat (apply bind_ext; intros ? ?); symmetry; apply for_unit.
Qed.

Ltac corner := rewrite !elem_of_cons; auto 10.

Ltac read_corners Hset :=
  repeat match goal with
  | |- and_then (electrode ?a ?b ?c) _ ?s = _ =>
      unfold and_then at 1;
      rewrite (bind_ok _ _ _ _ _ (Hset (a, b, c) ltac:(corner)));
      try reflexivity
  end.


End Voxels.

(** ** The mirror string of the grid *)

Lemma contains_app c a b : contains c (a +:+ b) = contains c a || contains c b.
Proof.
  induction a as [|d a IH]; [done|].
  change (String d a +:+ b) with (String d (a +:+ b)). simpl. rewrite IH.
  by rewrite orb_assoc.
Qed.

Lemma create_from_str_mirror_str gx gy gz tail :
  contains "x" tail = false -> contains "y" tail = false -> contains "z" tail = false ->
  MirrorDirection.create_from_str (mirror_str gx gy gz +:+ tail)
  = MirrorDirection.mk gx gy gz.
Proof.
  intros Hx Hy Hz. unfold MirrorDirection.create_from_str.
  rewrite !contains_app, Hx, Hy, Hz, !orb_false_r. by destruct gx, gy, gz.
Qed.

Section GridMirror.
Context `{PyFloat}.

(** X29.  The grid and the array read a mirror string alike: on every
    string that [_parse_mirror] accepts, [MirrorDirection.create_from_str]
    gives the same three flags. *)
Theorem grid_mirror_agrees_with_the_array (str_mirror : string) (s s' : PA)
    (g : bool * bool * bool) :
  _parse_mirror str_mirror s = (s', Ok g) ->
  MirrorDirection.create_from_str str_mirror = MirrorDirection.mk g.1.1 g.1.2 g.2.
Proof.
  unfold _parse_mirror. destruct (match_xyz str_mirror) as [[[gx gy] gz]|] eqn:E; [|done].
  intros [= _ <-]. simpl.
  apply match_xyz_inv in E as [-> | ->].
  - rewrite <- (create_from_str_mirror_str gx gy gz EmptyString) by done.
    f_equal. clear. by destruct gx, gy, gz.
  - by apply create_from_str_mirror_str.
Qed.

End GridMirror.

Lemma grid_mirror_agrees_with_the_array_witness :
  _parse_mirror "xz" plate3 = (plate3, Ok (true, false, true)) /\
  MirrorDirection.create_from_str "xz" = MirrorDirection.mk true false true.
Proof.
  assert (_parse_mirror "xz" plate3 = (plate3, Ok (true, false, true))) as Hp
    by reflexivity.
  split; [exact Hp|].
  exact (grid_mirror_agrees_with_the_array "xz" plate3 plate3 (true, false, true) Hp).
Defined.

(** ** Counting voxels *)

Lemma NoDup_map_pair {A B} (a : A) (k : list B) : NoDup k -> NoDup (map (pair a) k).
Proof.
  induction 1 as [|b k Hb _ IH]; simpl; constructor; [|done].
  rewrite list_elem_of_In, in_map_iff. intros (b' & [= ->] & Hin).
  apply Hb. by apply list_elem_of_In.
Qed.

Lemma NoDup_list_prod {A B} (l : list A) (k : list B) :
  NoDup l -> NoDup k -> NoDup (list_prod l k).
Proof.
  intros Hl Hk. induction Hl as [|a l Ha _ IH]; simpl; [constructor|].
  apply NoDup_app. split_and!; [by apply NoDup_map_pair | | done].
  intros [a' b]. rewrite !list_elem_of_In, in_map_iff, in_prod_iff.
  intros (b' & [= -> ->] & _) [Hin _]. apply Ha. by apply list_elem_of_In.
Qed.

Section VoxelCount.
Context `{PyFloat}.

Lemma voxel_inside_iff s x y z :
  voxel_inside x y z s = (s, Ok true) <->
  0 <= x < _nx s - 1 /\ 0 <= y < _ny s - 1 /\
  0 <= z < (if _nz s =? 1 then 1 else _nz s - 1).
Proof.
  unfold voxel_inside, bind, get, ret.
  destruct (Z.leb_spec 0 x), (Z.ltb_spec (x + 1) (_nx s)), (Z.leb_spec 0 y),
    (Z.ltb_spec (y + 1) (_ny s)); cbn [andb];
    try (split; [done | lia]).
  destruct (_nz s =? 1).
  - destruct (Z.eqb_spec z 0); split; try done; lia.
  - destruct (Z.leb_spec 0 z), (Z.ltb_spec (z + 1) (_nz s)); cbn [andb];
      split; try done; lia.
Qed.

(** X30.  [num_voxels()] counts the voxels: on an array with at least one
    point along each axis it is the number of triples that [voxel_inside]
    accepts. *)
Theorem num_voxels_counts_the_voxels (s : PA) :
  1 <= _nx s -> 1 <= _ny s -> 1 <= _nz s ->
  NoDup (voxels s) /\
  (forall x y z, (x, y, z) ∈ voxels s <-> voxel_inside x y z s = (s, Ok true)) /\
  num_voxels s = (s, Ok (Z.of_nat (length (voxels s)))).
Proof.
  intros Hx Hy Hz. split_and!.
  - unfold voxels. repeat apply NoDup_list_prod; apply NoDup_seqZ.
  - intros x y z. rewrite voxel_inside_iff. unfold voxels.
    rewrite list_elem_of_In, !in_prod_iff, <- !list_elem_of_In, !elem_of_seqZ. lia.
  - unfold num_voxels, bind, get, ret, voxels. do 2 f_equal.
    rewrite !length_prod, !length_seqZ, !Nat2Z.inj_mul.
    destruct (Z.eqb_spec (_nz s) 1) as [Hn|Hn]; simpl negb; cbv iota;
      rewrite !Z2Nat.id by lia; lia.
Qed.

End VoxelCount.


(** ** Instances of the properties of the store, the interpolation and the voxels *)

Lemma access_out_of_bounds_is_refused_witness :
  inside 3 0 0 plate3 = (plate3, Ok false) /\
  raw 3 0 0 plate3 = (plate3, Raise (out_of_bounds plate3 3 0 0)) /\
  point_set 3 0 0 true None plate3 = (plate3, Raise (out_of_bounds plate3 3 0 0)).
Proof.
  assert (inside 3 0 0 plate3 = (plate3, Ok false)) as Hi by reflexivity.
  split; [exact Hi|].
  destruct (access_out_of_bounds_is_refused plate3 3 0 0 true 1 None Hi)
    as (Hr & _ & _ & _ & _ & _ & _ & Hp).
  split; [exact Hr | exact Hp].
Defined.



Lemma electrode_below_the_range_is_lost_witness :
  inside 0 0 0 plate3 = (plate3, Ok true) /\
  exists s',
    point_set 0 0 0 true (Some (-100000)%Q) plate3 = (s', Ok tt) /\
    point 0 0 0 s' = (s', Ok (false, (-100000 + 2 * _max_voltage plate3)%Q)).
Proof.
  assert (inside 0 0 0 plate3 = (plate3, Ok true)) as Hi by reflexivity.
  split; [exact Hi|].
  apply (electrode_below_the_range_is_lost plate3 0 0 0 (-100000));
    [by vm_compute | by vm_compute | exact Hi | by vm_compute].
Defined.

Lemma raw_write_then_read_witness :
  inside 0 0 0 plate3 = (plate3, Ok true) /\
  exists l,
    raw_set 0 0 0 42 plate3 = (set_points l plate3, Ok tt) /\
    raw 0 0 0 (set_points l plate3) = (set_points l plate3, Ok 42%Q) /\
    forall x' y' z' r,
      (x', y', z') <> (0, 0, 0) -> raw x' y' z' plate3 = (plate3, Ok r) ->
      raw x' y' z' (set_points l plate3) = (set_points l plate3, Ok r).
Proof.
  assert (inside 0 0 0 plate3 = (plate3, Ok true)) as Hi by reflexivity.
  split; [exact Hi|].
  apply (raw_write_then_read plate3 0 0 0 42); [by vm_compute | exact Hi].
Defined.

Lemma clear_points_zeroes_the_store_witness :
  store_ok plate3 /\
  clear_points plate3 = (set_points (list_times 0%Q 9) plate3, Ok tt).
Proof.
  assert (store_ok plate3) as Hs by (by vm_compute).
  split; [exact Hs|]. exact (proj1 (clear_points_zeroes_the_store plate3 Hs)).
Defined.


Lemma potential_real_is_defined_inside_witness :
  store_ok tube3 /\ inside_real (1 # 2) 1 0 tube3 = (tube3, Ok true) /\
  exists p, potential_real (1 # 2) 1 0 tube3 = (tube3, Ok p).
Proof.
  assert (store_ok tube3) as Hs by (by vm_compute).
  assert (inside_real (1 # 2) 1 0 tube3 = (tube3, Ok true)) as Hi by (by vm_compute).
  split; [exact Hs|]. split; [exact Hi|].
  apply (proj1 (potential_real_is_defined_inside tube3 (1 # 2) 1 0 Hs
                  ltac:(intros _; split; [reflexivity | by vm_compute]))).
  exact Hi.
Defined.

Lemma mirrored_axes_are_symmetric_witness :
  inside_real 1 (1 # 2) 0 plate3 = (plate3, Ok true) /\
  inside_real 1 (- (1 # 2)) 0 plate3 = (plate3, Ok true) /\
  potential_real 1 (- (1 # 2)) 0 plate3 = potential_real 1 (1 # 2) 0 plate3.
Proof.
  assert (inside_real 1 (1 # 2) 0 plate3 = (plate3, Ok true)) as Hi by (by vm_compute).
  split; [exact Hi|].
  destruct (mirrored_axes_are_symmetric plate3 1 (1 # 2) 0 Hi) as (_ & Hy & _).
  exact (Hy eq_refl eq_refl).
Defined.

Lemma potential_real_interpolates_witness :
  store_ok plate3 /\ inside_real (1 # 2) (3 # 2) 0 plate3 = (plate3, Ok true) /\
  exists p,
    potential_real (1 # 2) (3 # 2) 0 plate3 = (plate3, Ok p) /\
    (p == blend plate3 0 1 (1 # 2) (1 # 2))%Q.
Proof.
  assert (store_ok plate3) as Hs by (by vm_compute).
  assert (inside_real (1 # 2) (3 # 2) 0 plate3 = (plate3, Ok true)) as Hi
    by (by vm_compute).
  split; [exact Hs|]. split; [exact Hi|].
  destruct (potential_real_interpolates plate3 (1 # 2) (3 # 2) 0 Hs eq_refl
              ltac:(intros Hc; by vm_compute in Hc) Hi) as (p & Hp & Hv).
  exists p. split; [exact Hp|]. rewrite Hv. by vm_compute.
Defined.



Lemma num_voxels_counts_the_voxels_witness :
  NoDup (voxels plate3) /\
  (forall x y z, (x, y, z) ∈ voxels plate3 <->
                 voxel_inside x y z plate3 = (plate3, Ok true)) /\
  num_voxels plate3 = (plate3, Ok (Z.of_nat (length (voxels plate3)))).
Proof. apply (num_voxels_counts_the_voxels plate3); by vm_compute. Defined.

